(** * ENGLANG: a shallow embedding of the interpreter [englang.c]

    The interpreter executes a list of text lines.  Its C functions are
    embedded one by one, under their own names: [trim], [startswith],
    [find_var], [get_or_create_var], [find_array], [get_or_create_array],
    [resolve], [resolve_num], [resolve_str], [find_func], [eval_condition],
    [find_end], [tokenize], [exec_line], [execute] and [collect_funcs].

    The global tables of the C program become one record [State]; the two
    output streams and the input stream are fields of that record.  A C
    [double] is an IEEE-754 binary64 number, taken from the Standard
    Library's executable specification [SpecFloat]. *)

From Stdlib Require Import ZArith NArith List String Ascii Bool Lia.
From Stdlib Require Import Floats.SpecFloat DecimalString.
Import ListNotations.

Local Open Scope string_scope.
Local Open Scope nat_scope.

(** ** Limits ([#define]s of the source) *)

Definition MAX_VARS : nat := 512.
Definition MAX_NAME : nat := 64.
Definition MAX_LINE : nat := 1024.
Definition MAX_STACK : nat := 512.
Definition MAX_FUNCS : nat := 256.
Definition MAX_MEM : nat := 1024.
Definition MAX_ARRAYS : nat := 64.
Definition MAX_ARRAY_SIZE : nat := 1024.

(** ** The C library, as far as the interpreter calls it *)

Module CLib.

(** [isspace] in the "C" locale: space, and the controls 9 to 13. *)
Definition isspace (c : ascii) : bool :=
  let n := nat_of_ascii c in
  (n =? 32) || ((9 <=? n) && (n <=? 13)).

Definition isdigit (c : ascii) : bool :=
  let n := nat_of_ascii c in (48 <=? n) && (n <=? 57).

Definition isalnum (c : ascii) : bool :=
  let n := nat_of_ascii c in
  ((48 <=? n) && (n <=? 57)) || ((65 <=? n) && (n <=? 90)) || ((97 <=? n) && (n <=? 122)).

Definition tolower (c : ascii) : ascii :=
  let n := nat_of_ascii c in
  if (65 <=? n) && (n <=? 90) then ascii_of_nat (n + 32) else c.

(** [strcmp(a, b) == 0] *)
Definition streq (a b : string) : bool := String.eqb a b.

(** The first [n] characters of [s]: what [strncpy] followed by a
    terminator, or [snprintf] with a buffer of [n + 1] bytes, leaves. *)
Fixpoint truncate (n : nat) (s : string) : string :=
  match n, s with
  | S k, String c r => String c (truncate k r)
  | _, _ => EmptyString
  end.

(** *** Doubles *)

Definition double : Type := spec_float.

Definition prec : Z := 53.
Definition emax : Z := 1024.

Definition dzero : double := S754_zero false.
Definition dadd : double -> double -> double := SFadd prec emax.
Definition dsub : double -> double -> double := SFsub prec emax.
Definition dmul : double -> double -> double := SFmul prec emax.
Definition ddiv : double -> double -> double := SFdiv prec emax.
Definition sqrt : double -> double := SFsqrt prec emax.
Definition fabs : double -> double := SFabs.
Definition deq (a b : double) : bool := SFeqb a b.    (* a == b *)
Definition dlt (a b : double) : bool := SFltb a b.    (* a <  b *)
Definition dle (a b : double) : bool := SFleb a b.    (* a <= b *)
Definition dne (a b : double) : bool := negb (SFeqb a b).  (* a != b *)

(** Conversion of an integer to [double] (round to nearest, ties to even). *)
Definition of_Z (z : Z) : double := binary_normalize prec emax z 0 false.

(** The integral part of a double, when it has one: the value of a cast to an
    integer type, before the range of that type is looked at. *)
Definition integral_part (d : double) : option Z :=
  match d with
  | S754_zero _ => Some 0%Z
  | S754_finite s m e =>
      let mag := match e with
                 | Zneg p => Z.shiftr (Zpos m) (Zpos p)
                 | _ => Z.shiftl (Zpos m) e
                 end in
      Some (if s then Z.opp mag else mag)
  | _ => None
  end.

(** [(int)d] and [(long)d]: [None] where the C standard leaves the conversion
    undefined (the integral part is not representable, or there is none). *)
Definition to_int (d : double) : option Z :=
  match integral_part d with
  | Some z => if ((- 2147483648 <=? z) && (z <=? 2147483647))%Z then Some z else None
  | None => None
  end.

Definition to_long (d : double) : option Z :=
  match integral_part d with
  | Some z => if ((- 9223372036854775808 <=? z) && (z <=? 9223372036854775807))%Z
              then Some z else None
  | None => None
  end.

(** The double nearest to the positive rational [n / d]. *)
Definition round_ratio (s : bool) (n d : Z) : double :=
  let d1 := Zdigits2 n in
  let d2 := Zdigits2 d in
  let e' := Z.min (fexp prec emax (d1 - d2)) 0 in
  let m' := Z.shiftl n (- e') in
  let '(q, r) := Z.div_eucl m' d in
  binary_round_aux prec emax s q e' (new_location d r).

(** The double nearest to [m * 10 ^ e], with sign [s]. *)
Definition of_decimal (s : bool) (m e : Z) : double :=
  match m with
  | Z0 => S754_zero s
  | _ => if (0 <=? e)%Z then round_ratio s (m * 10 ^ e) 1
         else round_ratio s m (10 ^ (- e))
  end.

(** The double nearest to [m * 2 ^ e], with sign [s]. *)
Definition of_binary (s : bool) (m e : Z) : double :=
  match m with
  | Zpos p => binary_round prec emax s p e
  | _ => S754_zero s
  end.

(** *** [strtod] and [atof] *)

Fixpoint skip_space (s : string) : string :=
  match s with
  | String c r => if isspace c then skip_space r else s
  | EmptyString => s
  end.

Definition digit_value (c : ascii) : option Z :=
  if isdigit c then Some (Z.of_nat (nat_of_ascii c - 48)) else None.

Definition hex_value (c : ascii) : option Z :=
  let n := nat_of_ascii c in
  if isdigit c then Some (Z.of_nat (n - 48))
  else if (97 <=? n) && (n <=? 102) then Some (Z.of_nat (n - 87))
  else if (65 <=? n) && (n <=? 70) then Some (Z.of_nat (n - 55))
  else None.

(** Reads digits in base [base]: the number read after [acc], how many digits
    were read, and the rest of the text. *)
Fixpoint scan_digits (value : ascii -> option Z) (base : Z) (s : string) (acc : Z) (count : Z)
  : Z * Z * string :=
  match s with
  | String c r =>
      match value c with
      | Some v => scan_digits value base r (acc * base + v)%Z (count + 1)%Z
      | None => (acc, count, s)
      end
  | EmptyString => (acc, count, s)
  end.

(** An exponent part: the letter [mark] (either case), an optional sign and
    at least one decimal digit.  Without it the exponent is 0 and nothing is
    consumed. *)
Definition scan_exponent (mark : ascii) (s : string) : Z * string :=
  match s with
  | String c r =>
      if Ascii.eqb (tolower c) mark then
        let '(neg, r1) := match r with
                          | String "-" r' => (true, r')
                          | String "+" r' => (false, r')
                          | _ => (false, r)
                          end in
        let '(e, n, rest) := scan_digits digit_value 10 r1 0%Z 0%Z in
        if (n =? 0)%Z then (0%Z, s) else (if neg then (- e)%Z else e, rest)
      else (0%Z, s)
  | EmptyString => (0%Z, s)
  end.

(** A mantissa: digits, an optional point, digits; at least one digit. *)
Definition scan_mantissa (value : ascii -> option Z) (base : Z) (s : string)
  : option (Z * Z * string) :=
  let '(m1, n1, r1) := scan_digits value base s 0%Z 0%Z in
  let '(m2, n2, r2) := match r1 with
                       | String "." r => scan_digits value base r m1 0%Z
                       | _ => (m1, 0%Z, r1)
                       end in
  if (n1 + n2 =? 0)%Z then None else Some (m2, n2, r2).

Fixpoint prefix_nocase (p s : string) : option string :=
  match p, s with
  | EmptyString, _ => Some s
  | String a p', String b s' =>
      if Ascii.eqb a (tolower b) then prefix_nocase p' s' else None
  | _, EmptyString => None
  end.

(** The rest after the optional [(n-char-sequence)] of a NaN. *)
Fixpoint scan_nan_chars (s : string) : option string :=
  match s with
  | String c r =>
      if Ascii.eqb c ")" then Some r
      else if isalnum c || Ascii.eqb c "_" then scan_nan_chars r
      else None
  | EmptyString => None
  end.

Definition scan_decimal (neg : bool) (s : string) : option (double * string) :=
  match scan_mantissa digit_value 10 s with
  | Some (m, frac, r) =>
      let '(e, rest) := scan_exponent "e" r in
      Some (of_decimal neg m (e - frac), rest)
  | None => None
  end.

Definition scan_hex (neg : bool) (s : string) : option (double * string) :=
  match prefix_nocase "0x" s with
  | Some r0 =>
      match scan_mantissa hex_value 16 r0 with
      | Some (m, frac, r) =>
          let '(e, rest) := scan_exponent "p" r in
          Some (of_binary neg m (e - 4 * frac), rest)
      | None => None
      end
  | None => None
  end.

Definition scan_magnitude (neg : bool) (s : string) : option (double * string) :=
  match prefix_nocase "infinity" s with
  | Some rest => Some (S754_infinity neg, rest)
  | None =>
  match prefix_nocase "inf" s with
  | Some rest => Some (S754_infinity neg, rest)
  | None =>
  match prefix_nocase "nan" s with
  | Some r =>
      match r with
      | String "(" r' =>
          match scan_nan_chars r' with
          | Some rest => Some (S754_nan, rest)
          | None => Some (S754_nan, r)
          end
      | _ => Some (S754_nan, r)
      end
  | None =>
  match scan_hex neg s with
  | Some res => Some res
  | None => scan_decimal neg s
  end end end end.

(** [strtod(s, &end)]: the value, and the text [end] points to.  When no
    conversion is made the value is 0 and [end] is [s] itself. *)
Definition strtod (s : string) : double * string :=
  let p := skip_space s in
  let '(neg, p1) := match p with
                    | String "-" r => (true, r)
                    | String "+" r => (false, r)
                    | _ => (false, p)
                    end in
  match scan_magnitude neg p1 with
  | Some res => res
  | None => (dzero, s)
  end.

Definition atof (s : string) : double := fst (strtod s).

(** *** [snprintf(buf, n, "%g", d)] *)

(** The decimal exponent [x] of the positive rational [n / d]:
    [10 ^ x <= n / d < 10 ^ (x + 1)].  [up] and [down] search from 0. *)
Fixpoint decimal_exponent_up (fuel : nat) (n d : Z) (x : Z) : Z :=
  match fuel with
  | O => x
  | S f => if (d * 10 <=? n)%Z then decimal_exponent_up f n (d * 10)%Z (x + 1)%Z else x
  end.

Fixpoint decimal_exponent_down (fuel : nat) (n d : Z) (x : Z) : Z :=
  match fuel with
  | O => x
  | S f => if (n <? d)%Z then decimal_exponent_down f (n * 10)%Z d (x - 1)%Z else x
  end.

Definition decimal_exponent (n d : Z) : Z :=
  let fuel := Z.to_nat (Z.log2 n + Z.log2 d + 2) in
  if (d <=? n)%Z then decimal_exponent_up fuel n d 0 else decimal_exponent_down fuel n d 0.

(** [n / d] rounded to the nearest integer, ties to even. *)
Definition round_half_even (n d : Z) : Z :=
  let '(q, r) := Z.div_eucl n d in
  match (2 * r ?= d)%Z with
  | Lt => q
  | Gt => (q + 1)%Z
  | Eq => if Z.even q then q else (q + 1)%Z
  end.

(** The six significant decimal digits of [n / d], as an integer between
    100000 and 999999, and the decimal exponent of the rounded value. *)
Definition six_digits (n d : Z) : Z * Z :=
  let x := decimal_exponent n d in
  let q := if (x <=? 5)%Z then round_half_even (n * 10 ^ (5 - x)) d
           else round_half_even n (d * 10 ^ (x - 5)) in
  if (q =? 1000000)%Z then (100000%Z, (x + 1)%Z) else (q, x).

Definition digit_char (v : Z) : ascii := ascii_of_nat (48 + Z.to_nat v).

(** The [k] decimal digits of [q], most significant first. *)
Fixpoint digits_of (k : nat) (q : Z) : string :=
  match k with
  | O => EmptyString
  | S k' => String (digit_char ((q / 10 ^ Z.of_nat k') mod 10)) (digits_of k' q)
  end.

Fixpoint strip_zeros (s : string) : string :=
  match s with
  | EmptyString => EmptyString
  | String c r =>
      match strip_zeros r with
      | EmptyString => if Ascii.eqb c "0" then EmptyString else String c EmptyString
      | r' => String c r'
      end
  end.

Fixpoint zeros (k : nat) : string :=
  match k with
  | O => EmptyString
  | S k' => String "0" (zeros k')
  end.

Definition with_fraction (int_part frac : string) : string :=
  match strip_zeros frac with
  | EmptyString => int_part
  | f => int_part ++ "." ++ f
  end.

Definition string_of_Z_abs (z : Z) : string :=
  NilZero.string_of_uint (N.to_uint (Z.abs_N z)).

(** Style [e] with the zeros of the fraction removed, as [%g] prints it. *)
Definition fmt_exp (q x : Z) : string :=
  let ds := digits_of 6 q in
  let mant := with_fraction (substring 0 1 ds) (substring 1 5 ds) in
  let xs := string_of_Z_abs x in
  mant ++ "e" ++ (if (x <? 0)%Z then "-" else "+")
       ++ (if (Z.abs x <? 10)%Z then "0" ++ xs else xs).

(** Style [f] with the zeros of the fraction removed, for [-4 <= x < 6]. *)
Definition fmt_fixed (q x : Z) : string :=
  let ds := digits_of 6 q in
  if (x <? 0)%Z then with_fraction "0" (zeros (Z.to_nat (- x - 1)) ++ ds)
  else let k := Z.to_nat (x + 1) in
       with_fraction (substring 0 k ds) (substring k (6 - k) ds).

(** The text [%g] gives for a double (precision 6).  The sign of a NaN is not
    part of [double]; it is printed as [nan]. *)
Definition fmt_g (v : double) : string :=
  match v with
  | S754_nan => "nan"
  | S754_infinity s => if s then "-inf" else "inf"
  | S754_zero s => if s then "-0" else "0"
  | S754_finite s m e =>
      let '(n, d) := match e with
                     | Zneg p => (Zpos m, Z.shiftl 1 (Zpos p))
                     | _ => (Z.shiftl (Zpos m) e, 1%Z)
                     end in
      let '(q, x) := six_digits n d in
      (if s then "-" else "")
        ++ (if ((x <? -4) || (6 <=? x))%Z then fmt_exp q x else fmt_fixed q x)
  end.

(** [snprintf(buf, n, "%g", v)]: at most [n - 1] characters are stored. *)
Definition snprintf_g (n : nat) (v : double) : string := truncate (n - 1) (fmt_g v).

End CLib.

Import CLib.

(** ** Values and tables *)

Inductive VType : Type := TYPE_NUM | TYPE_STR.

(** A [Value] has all three fields at all times, as the C struct has: the tag
    says which of [num] and [str] is current, and the other keeps what was
    last written to it. *)
Record Value : Type := mkValue { type : VType; num : double; str : string }.

(** A slot of [vars] with [used] set.  Slots are taken in order and never
    released, so the used slots are a prefix of the table: [vars] below is
    that prefix. *)
Record Var : Type := mkVar { var_name : string; val : Value }.

(** An array record in use.  [data] holds the elements below [size]; the slots
    at and above [size] still hold the zero bytes [main] put there, because
    [size] never decreases and a write at index [i] brings [size] above [i]. *)
Record Array : Type := mkArray { array_name : string; data : list Value }.

Definition size (a : Array) : nat := List.length (data a).

(** [param_count] is the length of [params]. *)
Record FuncDef : Type := mkFuncDef
  { func_name : string; start_line : nat; end_line : nat; params : list string }.

(** The interpreter state: the static tables of the source, the program text
    and the three standard streams.  [data_stack] lists the cells below
    [stack_top], bottom first.  [call_stack] and [call_sp] are never used by
    the source and are left out. *)
Record State : Type := mkState
  { vars : list Var;
    arrays : list Array;
    funcs : list FuncDef;
    mem : list double;
    data_stack : list double;
    lines : list string;
    stdout : string;
    stderr : string;
    stdin : string }.

Definition func_count (st : State) : nat := List.length (funcs st).
Definition stack_top (st : State) : nat := List.length (data_stack st).
Definition line_count (st : State) : nat := List.length (lines st).

(** What [memset(.., 0, ..)] leaves in a [Value]. *)
Definition zero_value : Value := mkValue TYPE_NUM dzero "".

(** The state [main] sets up before it runs a program. *)
Definition initial_state (program : list string) (input : string) : State :=
  mkState [] [] [] (repeat dzero MAX_MEM) [] program "" "" input.

Definition with_vars (st : State) (vs : list Var) : State :=
  mkState vs (arrays st) (funcs st) (mem st) (data_stack st) (lines st)
          (stdout st) (stderr st) (stdin st).
Definition with_arrays (st : State) (l : list Array) : State :=
  mkState (vars st) l (funcs st) (mem st) (data_stack st) (lines st)
          (stdout st) (stderr st) (stdin st).
Definition with_funcs (st : State) (fs : list FuncDef) : State :=
  mkState (vars st) (arrays st) fs (mem st) (data_stack st) (lines st)
          (stdout st) (stderr st) (stdin st).
Definition with_mem (st : State) (m : list double) : State :=
  mkState (vars st) (arrays st) (funcs st) m (data_stack st) (lines st)
          (stdout st) (stderr st) (stdin st).
Definition with_data_stack (st : State) (s : list double) : State :=
  mkState (vars st) (arrays st) (funcs st) (mem st) s (lines st)
          (stdout st) (stderr st) (stdin st).
Definition with_stdout (st : State) (s : string) : State :=
  mkState (vars st) (arrays st) (funcs st) (mem st) (data_stack st) (lines st)
          s (stderr st) (stdin st).
Definition with_stderr (st : State) (s : string) : State :=
  mkState (vars st) (arrays st) (funcs st) (mem st) (data_stack st) (lines st)
          (stdout st) s (stdin st).
Definition with_stdin (st : State) (s : string) : State :=
  mkState (vars st) (arrays st) (funcs st) (mem st) (data_stack st) (lines st)
          (stdout st) (stderr st) s.

(** [l] with its cell [i] replaced by [x]; nothing changes when [i] is not an
    index of [l] (the callers check the index first, as the source does). *)
Fixpoint update_nth {A : Type} (i : nat) (x : A) (l : list A) : list A :=
  match l, i with
  | [], _ => []
  | _ :: t, O => x :: t
  | h :: t, S k => h :: update_nth k x t
  end.

(** ** String helpers *)

Fixpoint rtrim (s : string) : string :=
  match s with
  | EmptyString => EmptyString
  | String c r =>
      match rtrim r with
      | EmptyString => if isspace c then EmptyString else String c EmptyString
      | r' => String c r'
      end
  end.

(** [trim]: the text without the white space at either end.  The C function
    also writes the terminator into its argument; where it is given a
    stored line ([find_end], the search for [otherwise]) that line loses its
    trailing white space.  Every reader of a stored line trims it, so the
    state keeps the lines as loaded. *)
Definition trim (s : string) : string := rtrim (skip_space s).

(** [startswith(s, prefix)] *)
Definition startswith (s prefix : string) : bool := String.prefix prefix s.

(** A [strncpy] of [s] into a local buffer of [n] bytes that has not been
    initialised, with a count of [n - 1]: the copy is a C string only if [s]
    is shorter than the count, since nothing else writes a terminator. *)
Definition strncpy_local (s : string) (n : nat) : option string :=
  if String.length s <? n - 1 then Some s else None.

(** The words of [ws] joined by single spaces (the [strcat] loops). *)
Fixpoint join_words (ws : list string) : string :=
  match ws with
  | [] => EmptyString
  | [w] => w
  | w :: rest => w ++ " " ++ join_words rest
  end.

(** The index of the first word equal to [key] at or after [start]. *)
Fixpoint index_of (key : string) (ws : list string) (start : nat) : option nat :=
  match ws with
  | [] => None
  | w :: rest =>
      match start with
      | S k => option_map S (index_of key rest k)
      | O => if streq w key then Some 0
             else option_map S (index_of key rest 0)
      end
  end.

Definition string_of_nat (n : nat) : string := NilZero.string_of_uint (Nat.to_uint n).

Definition newline : string := String "010"%char EmptyString.
Definition dquote : ascii := "034"%char.

(** The token or line that is written [s] between double quotes. *)
Definition quoted (s : string) : string := String dquote (s ++ String dquote EmptyString).

(** ** Outcomes of running interpreter code

    Code that touches the tables is a function from the state to an outcome:
    it returns a result and a new state, or the process ends in [exit], or it
    reaches a point where C gives the program no meaning (a write past a
    fixed buffer, a read of memory never written, a conversion out of
    range), or the model gives up because the fuel for loops ran out. *)

Inductive Outcome (A : Type) : Type :=
| Ok (a : A) (st : State)
| Exit (status : Z) (st : State)
| Fault
| Timeout.

Arguments Ok {A} a st.
Arguments Exit {A} status st.
Arguments Fault {A}.
Arguments Timeout {A}.

Definition M (A : Type) : Type := State -> Outcome A.

Definition ret {A : Type} (a : A) : M A := fun st => Ok a st.

Definition bind {A B : Type} (m : M A) (k : A -> M B) : M B :=
  fun st =>
    match m st with
    | Ok a st' => k a st'
    | Exit status st' => Exit status st'
    | Fault => Fault
    | Timeout => Timeout
    end.

Declare Scope interp_scope.
Delimit Scope interp_scope with interp.
Notation "x <- m ;; k" := (bind m (fun x => k))
  (at level 61, m at next level, right associativity) : interp_scope.
Notation "m ;;; k" := (bind m (fun _ => k))
  (at level 61, right associativity) : interp_scope.
Local Open Scope interp_scope.

Definition get : M State := fun st => Ok st st.
Definition put (st : State) : M unit := fun _ => Ok tt st.
Definition fault {A : Type} : M A := fun _ => Fault.
Definition timeout {A : Type} : M A := fun _ => Timeout.
Definition exit {A : Type} (status : Z) : M A := fun st => Exit status st.

(** A value that C leaves undefined when it is [None]. *)
Definition defined {A : Type} (o : option A) : M A :=
  match o with
  | Some a => ret a
  | None => fault
  end.

(** [printf] and [fprintf(stderr, ..)] with the text already formatted. *)
Definition printf (s : string) : M unit :=
  fun st => Ok tt (with_stdout st (stdout st ++ s)).
Definition eprintf (s : string) : M unit :=
  fun st => Ok tt (with_stderr st (stderr st ++ s)).

(** ** Variable and array access *)

Fixpoint find_index {A : Type} (p : A -> bool) (l : list A) : option nat :=
  match l with
  | [] => None
  | x :: rest => if p x then Some 0 else option_map S (find_index p rest)
  end.

(** [find_var]: the slot of the variable called [name], if there is one. *)
Definition find_var (st : State) (name : string) : option nat :=
  find_index (fun v => streq (var_name v) name) (vars st).

(** The variable in slot [i]. *)
Definition var_at (st : State) (i : nat) : Value :=
  val (nth i (vars st) (mkVar "" zero_value)).

(** An assignment through a [Var *] that points to slot [i]. *)
Definition set_var (i : nat) (v : Value) : M unit :=
  fun st => Ok tt (with_vars st (update_nth i (mkVar (var_name (nth i (vars st) (mkVar "" zero_value))) v)
                                            (vars st))).

(** [v->val.type = TYPE_NUM; v->val.num = d;] *)
Definition set_var_num (i : nat) (d : double) : M unit :=
  fun st => set_var i (mkValue TYPE_NUM d (str (var_at st i))) st.

(** [v->val.type = t;] alone: the number and the text stay as they are. *)
Definition set_var_type (i : nat) (t : VType) : M unit :=
  fun st => set_var i (mkValue t (num (var_at st i)) (str (var_at st i))) st.

(** [v->val.num = d;] alone: the tag and the text stay as they are. *)
Definition set_var_num_field (i : nat) (d : double) : M unit :=
  fun st => set_var i (mkValue (type (var_at st i)) d (str (var_at st i))) st.

(** [get_or_create_var]: the slot of [name]; a new variable takes the first
    free slot and starts as the number 0. *)
Definition get_or_create_var (name : string) : M nat :=
  fun st =>
    match find_var st name with
    | Some i => Ok i st
    | None =>
        if List.length (vars st) <? MAX_VARS
        then Ok (List.length (vars st))
                (with_vars st (vars st ++ [mkVar (truncate (MAX_NAME - 1) name) zero_value]))
        else (eprintf ("Error: too many variables" ++ newline) ;;; exit 1) st
    end.

Definition find_array (st : State) (name : string) : option nat :=
  find_index (fun a => streq (array_name a) name) (arrays st).

Definition array_at (st : State) (i : nat) : Array :=
  nth i (arrays st) (mkArray "" []).

Definition set_array_data (i : nat) (d : list Value) : M unit :=
  fun st => Ok tt (with_arrays st (update_nth i (mkArray (array_name (array_at st i)) d) (arrays st))).

Definition get_or_create_array (name : string) : M nat :=
  fun st =>
    match find_array st name with
    | Some i => Ok i st
    | None =>
        if List.length (arrays st) <? MAX_ARRAYS
        then Ok (List.length (arrays st))
                (with_arrays st (arrays st ++ [mkArray (truncate (MAX_NAME - 1) name) []]))
        else (eprintf ("Error: too many arrays" ++ newline) ;;; exit 1) st
    end.

(** ** Value resolution *)

(** [resolve]: a quoted literal, a number, a variable, or the word itself.
    [strtod] is tried before the variable table is searched.  The last case
    copies at most 255 characters; every caller passes fewer than
    [MAX_NAME]. *)
Definition resolve (st : State) (token : string) : Value :=
  if match token with String c _ => Ascii.eqb c dquote | EmptyString => false end then
    let len := String.length token in
    let copy := if 2 <? len then len - 2 else 0 in
    let copy := if 256 <=? copy then 255 else copy in
    mkValue TYPE_STR dzero (substring 1 copy token)
  else
    let '(d, rest) := strtod token in
    match rest with
    | EmptyString => mkValue TYPE_NUM d ""
    | _ =>
        match find_var st token with
        | Some i => var_at st i
        | None => mkValue TYPE_STR dzero (truncate 255 token)
        end
    end.

Definition resolve_num (st : State) (token : string) : double :=
  let v := resolve st token in
  match type v with
  | TYPE_STR => dzero
  | TYPE_NUM => num v
  end.

(** [resolve_str] into a local buffer of 256 bytes.  A text of 255 characters
    is copied without a terminator: the result is not a C string. *)
Definition resolve_str (st : State) (token : string) : option string :=
  let v := resolve st token in
  match type v with
  | TYPE_NUM => Some (snprintf_g 256 (num v))
  | TYPE_STR => strncpy_local (str v) 256
  end.

(** [find_func]: the first entry with this name. *)
Definition find_func (st : State) (name : string) : option FuncDef :=
  find (fun f => streq (func_name f) name) (funcs st).

(** ** Tokenizer *)

(** The run of characters up to the next white space, and the rest. *)
Fixpoint scan_word (s : string) : string * string :=
  match s with
  | String c r =>
      if isspace c then (EmptyString, s)
      else let '(w, rest) := scan_word r in (String c w, rest)
  | EmptyString => (EmptyString, EmptyString)
  end.

(** After an opening quote: the characters up to and with the closing quote,
    or up to the end of the line, and the rest. *)
Fixpoint scan_quoted (s : string) : string * string :=
  match s with
  | String c r =>
      if Ascii.eqb c dquote then (String c EmptyString, r)
      else let '(w, rest) := scan_quoted r in (String c w, rest)
  | EmptyString => (EmptyString, EmptyString)
  end.

(** [tokenize(line, tokens, max_tok)]: [room] is [max_tok - count].  A token
    keeps its quotes and is cut to [MAX_NAME - 1] characters. *)
Fixpoint tokenize (line : string) (room : nat) : list string :=
  match room with
  | O => []
  | S k =>
      match skip_space line with
      | EmptyString => []
      | String c r =>
          let '(t, rest) := if Ascii.eqb c dquote
                            then (let '(w, rest) := scan_quoted r in (String c w, rest))
                            else scan_word (String c r) in
          truncate (MAX_NAME - 1) t :: tokenize rest k
      end
  end.

(** ** Condition evaluation *)

Definition is_delim (c : ascii) : bool := Ascii.eqb c " " || Ascii.eqb c "009".

Fixpoint skip_delims (s : string) : string :=
  match s with
  | String c r => if is_delim c then skip_delims r else s
  | EmptyString => s
  end.

Fixpoint scan_to_delim (s : string) : string * string :=
  match s with
  | String c r =>
      if is_delim c then (EmptyString, r)
      else let '(w, rest) := scan_to_delim r in (String c w, rest)
  | EmptyString => (EmptyString, EmptyString)
  end.

(** The [strtok(.., " \t")] loop: at most [room] words. *)
Fixpoint split_words (s : string) (room : nat) : list string :=
  match room with
  | O => []
  | S k =>
      match skip_delims s with
      | EmptyString => []
      | String c r =>
          let '(w, rest) := scan_to_delim (String c r) in
          w :: split_words rest k
      end
  end.

(** The [strcat] loop into a buffer of [MAX_NAME] bytes that starts empty:
    [None] when the words do not fit. *)
Definition strcat_words (ws : list string) : option string :=
  let s := join_words ws in
  if String.length s <? MAX_NAME then Some s else None.

(** The operator at [op_start], and where the right operand starts. *)
Definition detect_operator (words : list string) (op_start : nat) : string * nat :=
  let wc := List.length words in
  let w i := nth i words "" in
  if (op_start + 3 <? wc) && streq (w op_start) "greater" && streq (w (op_start + 1)) "than"
     && streq (w (op_start + 2)) "or" && streq (w (op_start + 3)) "equal"
     && (op_start + 4 <? wc) && streq (w (op_start + 4)) "to"
  then (">=", op_start + 5)
  else if (op_start + 3 <? wc) && streq (w op_start) "less" && streq (w (op_start + 1)) "than"
     && streq (w (op_start + 2)) "or" && streq (w (op_start + 3)) "equal"
     && (op_start + 4 <? wc) && streq (w (op_start + 4)) "to"
  then ("<=", op_start + 5)
  else if (op_start + 2 <? wc) && streq (w op_start) "greater" && streq (w (op_start + 1)) "than"
  then (">", op_start + 2)
  else if (op_start + 2 <? wc) && streq (w op_start) "less" && streq (w (op_start + 1)) "than"
  then ("<", op_start + 2)
  else if (op_start + 2 <? wc) && streq (w op_start) "equal" && streq (w (op_start + 1)) "to"
  then ("==", op_start + 2)
  else if (op_start <? wc) && streq (w op_start) "empty"
  then ("empty", op_start + 1)
  else if (op_start <? wc) && streq (w op_start) "zero"
  then ("zero", op_start + 1)
  else ("", op_start).

(** The value of the comparison [lhs op rhs] in state [st], before [not]. *)
Definition compare_operands (st : State) (op lhs rhs : string) : option bool :=
  if streq op "empty" then
    let lv := resolve st lhs in
    Some (match type lv with
          | TYPE_STR => match str lv with EmptyString => true | _ => false end
          | TYPE_NUM => false
          end)
  else if streq op "zero" then Some (deq (resolve_num st lhs) dzero)
  else if streq op ">" then Some (dlt (resolve_num st rhs) (resolve_num st lhs))
  else if streq op "<" then Some (dlt (resolve_num st lhs) (resolve_num st rhs))
  else if streq op ">=" then Some (dle (resolve_num st rhs) (resolve_num st lhs))
  else if streq op "<=" then Some (dle (resolve_num st lhs) (resolve_num st rhs))
  else if streq op "==" then
    let lv := resolve st lhs in
    let rv := resolve st rhs in
    match type lv, type rv with
    | TYPE_NUM, TYPE_NUM => Some (deq (num lv) (num rv))
    | _, _ =>
        match resolve_str st lhs, resolve_str st rhs with
        | Some lb, Some rb => Some (streq lb rb)
        | _, _ => None
        end
    end
  else Some false.

(** [eval_condition]: [Some b] when the C function returns [b] (as 1 or 0),
    [None] when it has no defined result: the copy of the condition into
    [buf] has no terminator, or an operand does not fit its buffer. *)
Definition eval_condition (st : State) (cond_str : string) : option bool :=
  match strncpy_local cond_str MAX_LINE with
  | None => None
  | Some buf =>
      let s := trim buf in
      let words := split_words s 32 in
      let wc := List.length words in
      if wc <? 3 then Some false
      else
        match index_of "is" words 0 with
        | None => Some false
        | Some is_idx =>
            match strcat_words (firstn is_idx words) with
            | None => None
            | Some lhs =>
                let neg := (is_idx + 1 <? wc) && streq (nth (is_idx + 1) words "") "not" in
                let op_start := if neg then is_idx + 2 else is_idx + 1 in
                let '(op, rhs_start) := detect_operator words op_start in
                match strcat_words (skipn rhs_start words) with
                | None => None
                | Some rhs =>
                    match compare_operands st op lhs rhs with
                    | Some result => Some (if neg then negb result else result)
                    | None => None
                    end
                end
            end
        end
  end.

(** ** Block resolution *)

(** The lines on which [find_end] and the search for [otherwise] count one
    more open block. *)
Definition opens_block (l : string) : bool :=
  startswith l "if " || startswith l "while " || startswith l "repeat " || startswith l "define ".

(** The loop of [find_end] over the lines from index [i] on, [rest] being
    those lines; [total] is [line_count]. *)
Fixpoint find_end_loop (rest : list string) (i : nat) (depth : Z) (end_keyword : string)
    (total : nat) : nat :=
  match rest with
  | [] => total
  | line :: rest' =>
      let l := trim line in
      let depth := if opens_block l then (depth + 1)%Z else depth in
      let depth := if startswith l end_keyword || startswith l "end " then (depth - 1)%Z else depth in
      if (depth =? 0)%Z then i else find_end_loop rest' (i + 1) depth end_keyword total
  end.

(** [find_end(from, end_keyword)] *)
Definition find_end (st : State) (from : nat) (end_keyword : string) : nat :=
  find_end_loop (skipn (from + 1) (lines st)) (from + 1) 1 end_keyword (line_count st).

(** ** Statements

    [exec_line] is one C function; here each statement form has a definition
    of its own, and [exec_tokens] tries them in the order of the source.
    [toks] are the tokens of the line, [tc] their count, [tok i] is
    [tok[i]].  The C library's [pow] is a parameter: its results are not
    fixed by the C standard. *)

Section Interpreter.

Variable pow : double -> double -> double.

(** The executor for a range of lines, as seen from a statement that runs a
    block; [fuel] bounds the iterations of a loop statement. *)
Variable exec : nat -> nat -> M nat.
Variable fuel : nat.

Section Statement.

Variable toks : list string.
Variable idx : nat.

Let tc : nat := List.length toks.
Let tok (i : nat) : string := nth i toks "".

(** [tok[i]] where the source reads it although only [i] tokens are known to
    exist: with exactly [i] tokens the array cell was never written. *)
Definition tok_unchecked (i : nat) : M string := defined (nth_error toks i).

Definition num_of (v : Value) (d : double) : Value := mkValue TYPE_NUM d (str v).

(** [set <var> to <value> [<operator> <value>]] *)
Definition do_set : M nat :=
  v <- get_or_create_var (tok 1) ;;
  st <- get ;;
  let val := resolve st (tok 3) in
  val <- (if 4 <? tc then
            if streq (tok 4) "plus" && (6 <=? tc) then
              ret (num_of val (dadd (resolve_num st (tok 3)) (resolve_num st (tok 5))))
            else if streq (tok 4) "minus" && (6 <=? tc) then
              ret (num_of val (dsub (resolve_num st (tok 3)) (resolve_num st (tok 5))))
            else if streq (tok 4) "times" && (6 <=? tc) then
              ret (num_of val (dmul (resolve_num st (tok 3)) (resolve_num st (tok 5))))
            else if streq (tok 4) "divided" && (7 <=? tc) && streq (tok 5) "by" then
              let d := resolve_num st (tok 6) in
              ret (num_of val (if dne d dzero then ddiv (resolve_num st (tok 3)) d else dzero))
            else if streq (tok 4) "modulo" && (6 <=? tc) then
              a <- defined (to_long (resolve_num st (tok 3))) ;;
              b <- defined (to_long (resolve_num st (tok 5))) ;;
              if (b =? 0)%Z then ret (num_of val dzero)
              else if ((a =? - 9223372036854775808) && (b =? -1))%Z then fault
              else ret (num_of val (of_Z (Z.rem a b)))
            else if streq (tok 4) "power" && (6 <=? tc) then
              ret (num_of val (pow (resolve_num st (tok 3)) (resolve_num st (tok 5))))
            else if streq (tok 4) "concatenated" && (7 <=? tc) && streq (tok 5) "with" then
              lb <- defined (resolve_str st (tok 3)) ;;
              rb <- defined (resolve_str st (tok 6)) ;;
              ret (mkValue TYPE_STR (num val) (truncate 255 (lb ++ rb)))
            else ret val
          else ret val) ;;
  set_var v val ;;;
  ret (idx + 1).

(** [add <a> and <b> into <result>] and its two siblings.  The result
    variable is made and tagged a number before the operands are read: an
    operand that is the result variable is read by its number field, also
    when the variable held a text. *)
Definition do_arith (op : double -> double -> double) (a b result : string) : M nat :=
  r <- get_or_create_var result ;;
  set_var_type r TYPE_NUM ;;;
  st <- get ;;
  set_var_num_field r (op (resolve_num st a) (resolve_num st b)) ;;;
  ret (idx + 1).

(** [divide <a> by <b> into <result>]: the divisor is read before the
    result is tagged a number, the dividend after, and only when the
    divisor is not 0. *)
Definition do_divide : M nat :=
  r <- get_or_create_var (tok 5) ;;
  st <- get ;;
  let d := resolve_num st (tok 3) in
  set_var_type r TYPE_NUM ;;;
  st' <- get ;;
  set_var_num_field r (if dne d dzero then ddiv (resolve_num st' (tok 1)) d else dzero) ;;;
  ret (idx + 1).

(** [increment <var> [by <n>]] and [decrement <var> [by <n>]] *)
Definition do_step (op : double -> double -> double) : M nat :=
  v <- get_or_create_var (tok 1) ;;
  st <- get ;;
  let by_ := if (4 <=? tc) && streq (tok 2) "by" then resolve_num st (tok 3) else of_Z 1 in
  set_var_num v (op (num (var_at st v)) by_) ;;;
  ret (idx + 1).

(** The loop of [print] over the tokens after the first. *)
Fixpoint print_loop (ts : list string) (first : bool) : M unit :=
  match ts with
  | [] => ret tt
  | t :: rest =>
      if streq t "and" then print_loop rest first
      else
        (if first then ret tt else printf " ") ;;;
        st <- get ;;
        s <- defined (resolve_str st t) ;;
        printf s ;;;
        print_loop rest false
  end.

Definition do_print : M nat :=
  print_loop (tl toks) true ;;;
  printf newline ;;;
  ret (idx + 1).

(** The loop of [say]. *)
Fixpoint say_loop (ts : list string) : M unit :=
  match ts with
  | [] => ret tt
  | t :: rest =>
      if streq t "and" then say_loop rest
      else
        st <- get ;;
        s <- defined (resolve_str st t) ;;
        printf (s ++ " ") ;;;
        say_loop rest
  end.

Definition do_say : M nat :=
  say_loop (tl toks) ;;;
  printf newline ;;;
  ret (idx + 1).

(** [fgets(input, n, stdin)]: at most [n - 1] characters, up to and with the
    end of the line; [None] at the end of the input. *)
Fixpoint fgets_chars (k : nat) (s : string) : string * string :=
  match k, s with
  | S k', String c r =>
      if Ascii.eqb c "010" then (String c EmptyString, r)
      else let '(l, rest) := fgets_chars k' r in (String c l, rest)
  | _, _ => (EmptyString, s)
  end.

Definition fgets (n : nat) : M (option string) :=
  fun st =>
    match stdin st with
    | EmptyString => Ok None st
    | s => let '(l, rest) := fgets_chars (n - 1) s in Ok (Some l) (with_stdin st rest)
    end.

(** The text before the first end of line ([strchr] and the write of 0). *)
Fixpoint cut_newline (s : string) : string :=
  match s with
  | String c r => if Ascii.eqb c "010" then EmptyString else String c (cut_newline r)
  | EmptyString => EmptyString
  end.

(** The bytes of a buffer as a C string: the text before the first zero
    byte.  [fgets] stores the zero bytes of the input like any other, and
    [strchr], [strtod] and [strncpy] stop at the first. *)
Fixpoint c_string (s : string) : string :=
  match s with
  | String c r => if Ascii.eqb c "000" then EmptyString else String c (c_string r)
  | EmptyString => EmptyString
  end.

(** [ask <prompt> into <var>].  The answer is stored with [strncpy] and a
    count of 255: an answer of 255 characters is stored without terminator. *)
Definition do_ask : M nat :=
  match index_of "into" toks 1 with
  | Some into_idx =>
      if (0 <? into_idx) && (into_idx + 1 <? tc) then
        st <- get ;;
        s <- defined (resolve_str st (tok 1)) ;;
        printf (s ++ " ") ;;;
        got <- fgets 256 ;;
        match got with
        | Some input =>
            let input := cut_newline (c_string input) in
            v <- get_or_create_var (tok (into_idx + 1)) ;;
            st <- get ;;
            let '(d, rest) := strtod input in
            match rest, input with
            | EmptyString, String _ _ => set_var_num v d
            | _, _ =>
                if String.length input <? 255
                then set_var v (mkValue TYPE_STR (num (var_at st v)) input)
                else fault
            end ;;;
            ret (idx + 1)
        | None => ret (idx + 1)
        end
      else ret (idx + 1)
  | None => ret (idx + 1)
  end.

(** The search for [otherwise] at the depth of the [if], over the lines from
    [i] up to [end_if]. *)
Fixpoint find_otherwise (rest : list string) (i : nat) (depth : Z) (end_if : nat) : option nat :=
  match rest with
  | [] => None
  | line :: rest' =>
      if i <? end_if then
        let l := trim line in
        let depth := if opens_block l then (depth + 1)%Z else depth in
        let depth := if startswith l "end " then (depth - 1)%Z else depth in
        if (depth =? 1)%Z && startswith l "otherwise" then Some i
        else find_otherwise rest' (i + 1) depth end_if
      else None
  end.

(** The condition text of [if] and [while]: the tokens between the keyword
    and [then]. *)
Definition condition_text (then_idx : nat) : string :=
  join_words (firstn (then_idx - 1) (tl toks)).

(** [if <condition> then] ... [otherwise] ... [end if] *)
Definition do_if : M nat :=
  match index_of "then" toks 1 with
  | None => ret (idx + 1)
  | Some then_idx =>
      let cond := condition_text then_idx in
      st <- get ;;
      let end_if := find_end st idx "end if" in
      let otherwise := find_otherwise (skipn (idx + 1) (lines st)) (idx + 1) 1 end_if in
      cond_true <- defined (eval_condition st cond) ;;
      (if cond_true then
         let block_end := match otherwise with Some o => o | None => end_if end in
         exec (idx + 1) block_end ;;; ret tt
       else
         match otherwise with
         | Some o => exec (o + 1) end_if ;;; ret tt
         | None => ret tt
         end) ;;;
      ret (end_if + 1)
  end.

(** The loop of [while]: the condition is evaluated before every round. *)
Fixpoint while_loop (n : nat) (cond : string) (body : M nat) : M unit :=
  match n with
  | O => timeout
  | S n' =>
      st <- get ;;
      c <- defined (eval_condition st cond) ;;
      if c then body ;;; while_loop n' cond body else ret tt
  end.

(** [while <condition> then] ... [end while] *)
Definition do_while : M nat :=
  match index_of "then" toks 1 with
  | None => ret (idx + 1)
  | Some then_idx =>
      let cond := condition_text then_idx in
      st <- get ;;
      let end_while := find_end st idx "end while" in
      while_loop fuel cond (exec (idx + 1) end_while) ;;;
      ret (end_while + 1)
  end.

Fixpoint repeat_loop (n : nat) (body : M nat) : M unit :=
  match n with
  | O => ret tt
  | S n' => body ;;; repeat_loop n' body
  end.

(** [repeat <n> times] ... [end repeat] *)
Definition do_repeat : M nat :=
  st <- get ;;
  n <- defined (to_int (resolve_num st (tok 1))) ;;
  let end_rep := find_end st idx "end repeat" in
  repeat_loop (Z.to_nat n) (exec (idx + 1) end_rep) ;;;
  ret (end_rep + 1).

(** The two loops of [for]: [up] is [step > 0]. *)
Fixpoint for_loop (n : nat) (up : bool) (v : nat) (d to step : double) (body : M nat) : M unit :=
  match n with
  | O => timeout
  | S n' =>
      if (if up then dle d to else dle to d) then
        set_var_num_field v d ;;;
        body ;;;
        for_loop n' up v (dadd d step) to step body
      else ret tt
  end.

(** [for <var> from <a> to <b> [step <s>] then] ... [end for] *)
Definition do_for : M nat :=
  st <- get ;;
  let from := resolve_num st (tok 3) in
  let to := resolve_num st (tok 5) in
  let step := if (9 <=? tc) && streq (tok 6) "step" then resolve_num st (tok 7) else of_Z 1 in
  let end_for := find_end st idx "end for" in
  v <- get_or_create_var (tok 1) ;;
  st' <- get ;;
  set_var v (mkValue TYPE_NUM (num (var_at st' v)) (str (var_at st' v))) ;;;
  for_loop fuel (dlt dzero step) v from to step (exec (idx + 1) end_for) ;;;
  ret (end_for + 1).

(** The parameter names of a [define] line: the tokens between [with] (or
    the name) and [as], eight at most, each cut to [MAX_NAME - 1]. *)
Definition define_params : list string :=
  match index_of "as" toks 2 with
  | Some as_idx =>
      if 0 <? as_idx then
        let param_start := if (2 <? tc) && streq (tok 2) "with" then 3 else 2 in
        map (truncate (MAX_NAME - 1))
            (firstn 8 (firstn (as_idx - param_start) (skipn param_start toks)))
      else []
  | None => []
  end.

(** [FuncDef *f = &funcs[func_count++]] and the writes through [f].  The
    table has [MAX_FUNCS] entries and the source does not test the count. *)
Definition register_func (end_def : nat) : M unit :=
  fun st =>
    if func_count st <? MAX_FUNCS then
      Ok tt (with_funcs st (funcs st ++ [mkFuncDef (truncate (MAX_NAME - 1) (tok 1))
                                                   (idx + 1) end_def define_params]))
    else Fault.

(** [define <name> [with <p1> ...] as] ... [end define], met by the executor *)
Definition do_define : M nat :=
  st <- get ;;
  let end_def := find_end st idx "end define" in
  register_func end_def ;;;
  ret (end_def + 1).

(** The binding of arguments to the parameter variables of a call. *)
Fixpoint bind_params (ps : list string) (args : list string) : M unit :=
  match ps, args with
  | p :: ps', a :: args' =>
      pv <- get_or_create_var p ;;
      st <- get ;;
      set_var pv (resolve st a) ;;;
      bind_params ps' args'
  | _, _ => ret tt
  end.

(** [call <name> [with <a> <b> ...]] *)
Definition do_call : M nat :=
  st <- get ;;
  match find_func st (tok 1) with
  | None =>
      eprintf ("Error: undefined function '" ++ tok 1 ++ "'" ++ newline) ;;;
      ret (idx + 1)
  | Some f =>
      let arg_start := if (2 <? tc) && streq (tok 2) "with" then 3 else 2 in
      bind_params (params f) (skipn arg_start toks) ;;;
      exec (start_line f) (end_line f) ;;;
      ret (idx + 1)
  end.

(** [return <value>] *)
Definition do_return : M nat :=
  rv <- get_or_create_var "return" ;;
  st <- get ;;
  set_var rv (resolve st (tok 1)) ;;;
  ret (idx + 1).

(** [push <val> onto stack] *)
Definition do_push : M nat :=
  st <- get ;;
  (if stack_top st <? MAX_STACK
   then put (with_data_stack st (data_stack st ++ [resolve_num st (tok 1)]))
   else ret tt) ;;;
  ret (idx + 1).

(** [pop from stack into <var>] *)
Definition do_pop : M nat :=
  v <- get_or_create_var (tok 4) ;;
  st <- get ;;
  (if 0 <? stack_top st
   then put (with_data_stack st (removelast (data_stack st))) ;;;
        set_var_num v (last (data_stack st) dzero)
   else set_var_num v dzero) ;;;
  ret (idx + 1).

Definition in_range (z : Z) (bound : nat) : bool := ((0 <=? z) && (z <? Z.of_nat bound))%Z.

(** [store <val> at address <n>] *)
Definition do_store : M nat :=
  st <- get ;;
  addr <- defined (to_int (resolve_num st (tok 4))) ;;
  (if in_range addr MAX_MEM
   then put (with_mem st (update_nth (Z.to_nat addr) (resolve_num st (tok 1)) (mem st)))
   else ret tt) ;;;
  ret (idx + 1).

(** [load from address <n> into <var>] *)
Definition do_load : M nat :=
  st <- get ;;
  addr <- defined (to_int (resolve_num st (tok 3))) ;;
  v <- get_or_create_var (tok 5) ;;
  st' <- get ;;
  set_var_num v (if in_range addr MAX_MEM then nth (Z.to_nat addr) (mem st') dzero else dzero) ;;;
  ret (idx + 1).

(** [create array <name>] *)
Definition do_create : M nat :=
  get_or_create_array (tok 2) ;;;
  ret (idx + 1).

(** [append <val> to array <name>] *)
Definition do_append : M nat :=
  a <- get_or_create_array (tok 4) ;;
  st <- get ;;
  (if size (array_at st a) <? MAX_ARRAY_SIZE
   then set_array_data a (data (array_at st a) ++ [resolve st (tok 1)])
   else ret tt) ;;;
  ret (idx + 1).

(** [get element <i> of array <name> into <var>]; the variable is [tok[7]],
    read with only seven tokens asked for. *)
Definition do_get : M nat :=
  st <- get ;;
  i <- defined (to_int (resolve_num st (tok 2))) ;;
  let a := find_array st (tok 5) in
  name <- tok_unchecked 7 ;;
  v <- get_or_create_var name ;;
  st' <- get ;;
  match a with
  | Some a =>
      if in_range i (size (array_at st' a))
      then set_var v (nth (Z.to_nat i) (data (array_at st' a)) zero_value)
      else set_var_num v dzero
  | None => set_var_num v dzero
  end ;;;
  ret (idx + 1).

(** The elements after [data[i] = x] and the update of [size]. *)
Definition store_element (d : list Value) (i : nat) (x : Value) : list Value :=
  if i <? List.length d then update_nth i x d
  else d ++ repeat zero_value (i - List.length d) ++ [x].

(** [set element <i> of array <name> to <val>]; the value is [tok[7]], read
    with only seven tokens asked for. *)
Definition do_set_element : M nat :=
  st <- get ;;
  i <- defined (to_int (resolve_num st (tok 2))) ;;
  a <- get_or_create_array (tok 5) ;;
  (if in_range i MAX_ARRAY_SIZE then
     t <- tok_unchecked 7 ;;
     st' <- get ;;
     set_array_data a (store_element (data (array_at st' a)) (Z.to_nat i) (resolve st' t))
   else ret tt) ;;;
  ret (idx + 1).

(** [size of array <name> into <var>]; the variable is [tok[5]], read with
    only five tokens asked for. *)
Definition do_size : M nat :=
  st <- get ;;
  let a := find_array st (tok 3) in
  name <- tok_unchecked 5 ;;
  v <- get_or_create_var name ;;
  st' <- get ;;
  set_var_num v (match a with
                 | Some a => of_Z (Z.of_nat (size (array_at st' a)))
                 | None => dzero
                 end) ;;;
  ret (idx + 1).

(** [square root of <val> into <var>] and [absolute value of <val> into
    <var>]: the variable is tagged a number before the operand is read. *)
Definition do_math (f : double -> double) : M nat :=
  v <- get_or_create_var (tok 5) ;;
  set_var_type v TYPE_NUM ;;;
  st <- get ;;
  set_var_num_field v (f (resolve_num st (tok 3))) ;;;
  ret (idx + 1).

(** [length of <str_var> into <var>] *)
Definition do_length : M nat :=
  st <- get ;;
  sb <- defined (resolve_str st (tok 2)) ;;
  v <- get_or_create_var (tok 4) ;;
  set_var_num v (of_Z (Z.of_nat (String.length sb))) ;;;
  ret (idx + 1).

(** [convert <var> to number] *)
Definition do_convert_number : M nat :=
  v <- get_or_create_var (tok 1) ;;
  st <- get ;;
  let x := var_at st v in
  match type x with
  | TYPE_STR => set_var v (mkValue TYPE_NUM (atof (str x)) (str x))
  | TYPE_NUM => ret tt
  end ;;;
  ret (idx + 1).

(** [convert <var> to string] *)
Definition do_convert_string : M nat :=
  v <- get_or_create_var (tok 1) ;;
  st <- get ;;
  let x := var_at st v in
  match type x with
  | TYPE_NUM => set_var v (mkValue TYPE_STR (num x) (snprintf_g 256 (num x)))
  | TYPE_STR => ret tt
  end ;;;
  ret (idx + 1).

(** The statement forms in the order [exec_line] tries them; [line] is the
    trimmed line, for the warning. *)
Definition exec_tokens (line : string) : M nat :=
  if streq (tok 0) "set" && (4 <=? tc) && streq (tok 2) "to" then do_set
  else if streq (tok 0) "add" && (5 <=? tc) && streq (tok 2) "and" && streq (tok 4) "into"
          && (6 <=? tc)
  then do_arith dadd (tok 1) (tok 3) (tok 5)
  else if streq (tok 0) "subtract" && (6 <=? tc) && streq (tok 2) "from" && streq (tok 4) "into"
  then do_arith dsub (tok 3) (tok 1) (tok 5)
  else if streq (tok 0) "multiply" && (6 <=? tc) && streq (tok 2) "by" && streq (tok 4) "into"
  then do_arith dmul (tok 1) (tok 3) (tok 5)
  else if streq (tok 0) "divide" && (6 <=? tc) && streq (tok 2) "by" && streq (tok 4) "into"
  then do_divide
  else if streq (tok 0) "increment" && (2 <=? tc) then do_step dadd
  else if streq (tok 0) "decrement" && (2 <=? tc) then do_step dsub
  else if streq (tok 0) "print" then do_print
  else if streq (tok 0) "say" then do_say
  else if streq (tok 0) "ask" && (4 <=? tc) then do_ask
  else if streq (tok 0) "if" then do_if
  else if streq (tok 0) "while" then do_while
  else if streq (tok 0) "repeat" && (3 <=? tc) && streq (tok 2) "times" then do_repeat
  else if streq (tok 0) "for" && (6 <=? tc) && streq (tok 2) "from" && streq (tok 4) "to"
  then do_for
  else if streq (tok 0) "define" && (3 <=? tc) then do_define
  else if streq (tok 0) "call" && (2 <=? tc) then do_call
  else if streq (tok 0) "return" && (2 <=? tc) then do_return
  else if streq (tok 0) "push" && (4 <=? tc) && streq (tok 2) "onto" && streq (tok 3) "stack"
  then do_push
  else if streq (tok 0) "pop" && (5 <=? tc) && streq (tok 1) "from" && streq (tok 2) "stack"
          && streq (tok 3) "into"
  then do_pop
  else if streq (tok 0) "store" && (5 <=? tc) && streq (tok 2) "at" && streq (tok 3) "address"
  then do_store
  else if streq (tok 0) "load" && (6 <=? tc) && streq (tok 1) "from" && streq (tok 2) "address"
          && streq (tok 4) "into"
  then do_load
  else if streq (tok 0) "create" && (3 <=? tc) && streq (tok 1) "array" then do_create
  else if streq (tok 0) "append" && (5 <=? tc) && streq (tok 2) "to" && streq (tok 3) "array"
  then do_append
  else if streq (tok 0) "get" && (7 <=? tc) && streq (tok 1) "element" && streq (tok 3) "of"
          && streq (tok 4) "array" && streq (tok 6) "into"
  then do_get
  else if streq (tok 0) "set" && (7 <=? tc) && streq (tok 1) "element" && streq (tok 3) "of"
          && streq (tok 4) "array" && streq (tok 6) "to"
  then do_set_element
  else if streq (tok 0) "size" && (5 <=? tc) && streq (tok 1) "of" && streq (tok 2) "array"
          && streq (tok 4) "into"
  then do_size
  else if streq (tok 0) "square" && (6 <=? tc) && streq (tok 1) "root" && streq (tok 2) "of"
          && streq (tok 4) "into"
  then do_math sqrt
  else if streq (tok 0) "absolute" && (6 <=? tc) && streq (tok 1) "value" && streq (tok 2) "of"
          && streq (tok 4) "into"
  then do_math fabs
  else if streq (tok 0) "length" && (5 <=? tc) && streq (tok 1) "of" && streq (tok 3) "into"
  then do_length
  else if streq (tok 0) "convert" && (4 <=? tc) && streq (tok 2) "to" && streq (tok 3) "number"
  then do_convert_number
  else if streq (tok 0) "convert" && (4 <=? tc) && streq (tok 2) "to" && streq (tok 3) "string"
  then do_convert_string
  else if streq (tok 0) "stop" || streq (tok 0) "exit" then exit 0
  else if streq (tok 0) "otherwise" || startswith (tok 0) "end" then ret (idx + 1)
  else
    eprintf ("Warning: unknown instruction on line " ++ string_of_nat (idx + 1) ++ ": '"
               ++ line ++ "'" ++ newline) ;;;
    ret (idx + 1).

End Statement.

(** [exec_line(idx)]: the index of the line to run next.  The line is copied
    into a local buffer of [MAX_LINE] bytes first. *)
Definition exec_line (idx : nat) : M nat :=
  st <- get ;;
  buf <- defined (strncpy_local (nth idx (lines st) "") MAX_LINE) ;;
  let line := trim buf in
  if match line with EmptyString => true | _ => false end
     || startswith line "#" || startswith line "//"
  then ret (idx + 1)
  else
    let toks := tokenize line 32 in
    match toks with
    | [] => ret (idx + 1)
    | _ => exec_tokens toks idx line
    end.

End Interpreter.

(** [execute(start, end_excl)]: runs lines until the index leaves the range.
    [fuel] bounds the nesting of blocks and calls, the number of lines run in
    one range and the rounds of one loop. *)
Fixpoint execute (pow : double -> double -> double) (fuel : nat) (start end_excl : nat)
  : M nat :=
  match fuel with
  | O => timeout
  | S fuel' =>
      fun st =>
        if (start <? end_excl) && (start <? line_count st)
        then (i <- exec_line pow (execute pow fuel') fuel' start ;;
              execute pow fuel' i end_excl) st
        else Ok start st
  end.

(** The loop of [collect_funcs] from line [i] on.  Every round moves [i]
    forward, so [line_count] rounds are enough; [n] counts them. *)
Fixpoint collect_funcs_loop (n : nat) (i : nat) : M unit :=
  match n with
  | O => ret tt
  | S n' =>
      st <- get ;;
      if i <? line_count st then
        buf <- defined (strncpy_local (nth i (lines st) "") MAX_LINE) ;;
        let toks := tokenize (trim buf) 32 in
        if (3 <=? List.length toks) && streq (nth 0 toks "") "define" then
          let end_def := find_end st i "end define" in
          register_func toks i end_def ;;;
          collect_funcs_loop n' (end_def + 1)
        else collect_funcs_loop n' (i + 1)
      else ret tt
  end.

(** [collect_funcs]: the pass over the whole program before it runs. *)
Definition collect_funcs : M unit :=
  st <- get ;;
  collect_funcs_loop (line_count st) 0.

(** [main] once the program is loaded: the pass for definitions, then the
    program from its first line; the result is the status [main] returns. *)
Definition main (pow : double -> double -> double) (fuel : nat) : M Z :=
  collect_funcs ;;;
  st <- get ;;
  execute pow fuel 0 (line_count st) ;;;
  ret 0%Z.

(** The run of a program from the state [main] starts with. *)
Definition run_program (pow : double -> double -> double) (fuel : nat)
    (program : list string) (input : string) : Outcome Z :=
  main pow fuel (initial_state program input).

(** * Vocabulary of the properties *)

(** ** Statements and states *)

(** The line at [idx] is a statement with the tokens [toks]: it fits the line
    buffer of [exec_line], and these are the tokens [exec_line] gets. *)
Definition statement_at (st : State) (idx : nat) (toks : list string) : Prop :=
  String.length (nth idx (lines st) "") < MAX_LINE - 1 /\
  tokenize (trim (nth idx (lines st) "")) 32 = toks.

(** The variable [name] is a number and its value is [d]. *)
Definition holds_number (st : State) (name : string) (d : double) : Prop :=
  exists slot, find_var st name = Some slot /\
               type (var_at st slot) = TYPE_NUM /\ num (var_at st slot) = d.

(** The token [b] stands for the number 0 (of either sign) in state [st]. *)
Definition resolves_to_zero (st : State) (b : string) : Prop :=
  deq (resolve_num st b) dzero = true.

(** The value [v] can be read back from the text that [convert .. to string]
    stores for it. *)
Definition representable (v : double) : Prop := atof (snprintf_g 256 v) = v.

(** Equality of two doubles as data (not the comparison [==] of C). *)
Definition same_double (a b : double) : bool :=
  match a, b with
  | S754_zero s, S754_zero t => Bool.eqb s t
  | S754_infinity s, S754_infinity t => Bool.eqb s t
  | S754_nan, S754_nan => true
  | S754_finite s m e, S754_finite t n f => Bool.eqb s t && Pos.eqb m n && Z.eqb e f
  | _, _ => false
  end.

(** [p] holds of every integer from 0 up to [n], [n] not included. *)
Fixpoint all_below (n : nat) (p : Z -> bool) : bool :=
  match n with
  | O => true
  | S k => p (Z.of_nat k) && all_below k p
  end.

(** The integers [k] and [- k], as doubles, are read back from their text. *)
Definition round_trips (k : Z) : bool :=
  same_double (atof (snprintf_g 256 (of_Z k))) (of_Z k) &&
  same_double (atof (snprintf_g 256 (of_Z (- k)))) (of_Z (- k)).


(** The state after [get_or_create_var] has made a variable. *)
Definition with_new_var (st : State) (name : string) : State :=
  with_vars st (vars st ++ [mkVar (truncate (MAX_NAME - 1) name) zero_value]).

(** ** The depth of blocks, as the specification words it

    A line (trimmed) that begins with [if ], [while ], [repeat ] or
    [define ] adds one to the depth, a line that begins with [end ] takes
    one away, and any other line, one that begins with [for ] too, leaves
    the depth as it is. *)

Definition begins_with (word line : string) : bool := String.prefix word line.

Definition depth_step (line : string) : Z :=
  let l := trim line in
  (if begins_with "if " l || begins_with "while " l || begins_with "repeat " l
      || begins_with "define " l then 1 else 0)
  - (if begins_with "end " l then 1 else 0).

Fixpoint depth_steps (ls : list string) : Z :=
  match ls with
  | [] => 0
  | l :: rest => depth_step l + depth_steps rest
  end.

(** The depth once the lines after [open_index] up to and with line [i] have
    been counted, from the depth 1 at the start. *)
Definition depth_after (program : list string) (open_index i : nat) : Z :=
  1 + depth_steps (firstn (i - open_index) (skipn (open_index + 1) program)).

(** ** What [print] and [say] are given to write *)

(** The display texts of the arguments of [print] or [say]: the resolved
    text of every token that is not the word [and]; [None] when one of them
    has none (see [resolve_str]). *)
Fixpoint display_texts (st : State) (ts : list string) : option (list string) :=
  match ts with
  | [] => Some []
  | t :: rest =>
      if streq t "and" then display_texts st rest
      else match resolve_str st t, display_texts st rest with
           | Some s, Some l => Some (s :: l)
           | _, _ => None
           end
  end.

(** Every text followed by a space: what the loop of [say] writes. *)
Fixpoint spaced (texts : list string) : string :=
  match texts with
  | [] => EmptyString
  | s :: rest => s ++ " " ++ spaced rest
  end.

(** ** Programs and states of the examples *)

(** In closed examples, whose programs have no [power] operator, this stands
    where the C library's [pow] would. *)
Definition pow_unused : double -> double -> double := fun _ _ => S754_nan.

(** A program that fills the array [a] and then appends to it. *)
Definition full_array_program : list string :=
  ["set element 1023 of array a to 5"; "append 7 to array a"].

(** A state in which the array [a] is full. *)
Definition full_array_state : State :=
  with_arrays (initial_state ["append 7 to array a"] "")
              [mkArray "a" (repeat zero_value MAX_ARRAY_SIZE)].

(** A program that defines one function, and the state after the pass that
    collects its definition. *)
Definition define_program : list string := ["define f as"; "print 1"; "end define"].

Definition define_state : State :=
  with_funcs (initial_state define_program "") [mkFuncDef "f" 1 2 []].

(** The same [if] statement on one line and on five. *)
Definition if_one_line : list string :=
  ["if 5 is greater than 3 then print " ++ quoted "yes" ++ " otherwise print "
     ++ quoted "no" ++ " end if"].

Definition if_five_lines : list string :=
  ["if 5 is greater than 3 then"; "print " ++ quoted "yes"; "otherwise";
   "print " ++ quoted "no"; "end if"].

(** A [while] block with a [for] loop inside. *)
Definition nested_for_state : State :=
  initial_state ["while x is less than 3 then"; "for i from 1 to 2 then"; "end for";
                 "increment x"; "end while"; "print x"] "".

(** Two pushes and three pops. *)
Definition stack_program : list string :=
  ["push 1 onto stack"; "push 2 onto stack"; "pop from stack into a";
   "pop from stack into b"; "pop from stack into c"].



(** A state in which [n] holds 3.5, before the two conversions. *)
Definition round_trip_state : State :=
  with_vars (initial_state ["convert n to string"; "convert n to number"] "")
            [mkVar "n" (mkValue TYPE_NUM (atof "3.5") "")].


(** ** What a run keeps *)

(** [l'] is [l] with more at its end. *)
Definition extends_list {A : Type} (l l' : list A) : Prop := exists more, l' = (l ++ more)%list.

(** [s'] is [s] with more text at its end. *)
Definition extends_text (s s' : string) : Prop := exists more, s' = s ++ more.

(** The tables are within the sizes the source declares for them. *)
Record bounded (st : State) : Prop := mkBounded
  { vars_bound : List.length (vars st) <= MAX_VARS;
    arrays_bound : List.length (arrays st) <= MAX_ARRAYS;
    sizes_bound : Forall (fun a => size a <= MAX_ARRAY_SIZE) (arrays st);
    stack_bound : stack_top st <= MAX_STACK;
    mem_bound : List.length (mem st) = MAX_MEM;
    funcs_bound : func_count st <= MAX_FUNCS }.

(** The state [st'] comes after [st]: no variable, array or function entry
    has left its slot, output was only added, input was only taken from the
    front, and the tables are within bounds if they were. *)
Record evolves (st st' : State) : Prop := mkEvolves
  { vars_kept : extends_list (map var_name (vars st)) (map var_name (vars st'));
    arrays_kept : extends_list (map array_name (arrays st)) (map array_name (arrays st'));
    funcs_kept : extends_list (funcs st) (funcs st');
    stdout_kept : extends_text (stdout st) (stdout st');
    stderr_kept : extends_text (stderr st) (stderr st');
    stdin_taken : exists taken, stdin st = taken ++ stdin st';
    bounds_kept : bounded st -> bounded st' }.

(** Where [m] ends from [st], by returning or by [exit], the state comes
    after [st]. *)
Definition sound_at {A : Type} (m : M A) (st : State) : Prop :=
  match m st with
  | Ok _ st' => evolves st st'
  | Exit _ st' => evolves st st'
  | Fault => True
  | Timeout => True
  end.


(** The run [o] ends in state [st'], by returning or through [exit]. *)
Definition ends_in {A : Type} (o : Outcome A) (st' : State) : Prop :=
  (exists a, o = Ok a st') \/ (exists status, o = Exit status st').

(** A program with a function, a loop, an array and the stack. *)
Definition tour_program : list string :=
  ["define twice with n as"; "add n and n into return"; "end define";
   "set k to 3"; "repeat k times"; "call twice with k"; "push return onto stack";
   "append return to array seen"; "end repeat"; "define twice as"; "print 0"; "end define";
   "call twice with 5"; "print return"].

(** The state of [tour_program] once its definitions are collected, and a
    state with one variable before a program of two lines. *)
Definition tour_state : State :=
  with_funcs (initial_state tour_program "")
             [mkFuncDef "twice" 1 2 ["n"]; mkFuncDef "twice" 10 11 []].

Definition one_variable_state : State :=
  with_vars (initial_state ["set y to 2"; "increment x"; "print x and y"] "")
            [mkVar "x" zero_value].


(** ** Names and values *)

(** The token [t] is read as a variable name when a variable of that name
    exists: it is no quoted text and [strtod] does not read all of it. *)
Definition names_variable (t : string) : Prop :=
  match t with String c _ => Ascii.eqb c dquote | EmptyString => false end = false /\
  snd (strtod t) <> "".

(** The variable [name] exists, or the table has a free slot for it. *)
Definition can_hold (st : State) (name : string) : Prop :=
  find_var st name <> None \/ List.length (vars st) < MAX_VARS.

(** [names_variable] as a test. *)
Definition is_name (t : string) : bool :=
  negb (match t with String c _ => Ascii.eqb c dquote | EmptyString => false end) &&
  negb (match snd (strtod t) with EmptyString => true | _ => false end).

(** The number an operand [t] of a statement of arithmetic stands for when
    the result goes into [r]: the number [t] stands for in [st], except
    that the result variable itself, named as an operand, counts with the
    number stored in it, also when it holds a text (and with 0 when it does
    not exist yet). *)
Definition operand (st : State) (r t : string) : double :=
  if is_name t && String.eqb t r then
    match find_var st r with
    | Some slot => num (var_at st slot)
    | None => dzero
    end
  else resolve_num st t.

(** A state in which [x] is the text [hello] over a stored number 5, as
    [convert x to string] and a later assignment of a text leave it. *)
Definition stale_number_state (program : list string) : State :=
  with_vars (initial_state program "") [mkVar "x" (mkValue TYPE_STR (of_Z 5) "hello")].

(** A state with a full stack. *)
Definition full_stack_state : State :=
  with_data_stack (initial_state ["push 1 onto stack"] "") (repeat dzero MAX_STACK).

(** The variable [name] holds the value [v], tag and both fields. *)
Definition holds_value (st : State) (name : string) (v : Value) : Prop :=
  exists slot, find_var st name = Some slot /\ var_at st slot = v.

(** Element [j] of the array in slot [a]; beyond [size] it is the zero value
    the table was filled with. *)
Definition element (st : State) (a : nat) (j : nat) : Value :=
  nth j (data (array_at st a)) zero_value.

(** A state with the array [a] of two elements, 1 and 2. *)
Definition small_array_state (program : list string) : State :=
  with_arrays (initial_state program "")
              [mkArray "a" [mkValue TYPE_NUM (of_Z 1) ""; mkValue TYPE_NUM (of_Z 2) ""]].

(** A state whose variable table is full, with the names [v0], [v1], ...,
    and one whose array table is full. *)
Definition numbered (prefix : string) (n : nat) : list string :=
  map (fun i => prefix ++ string_of_nat i) (seq 0 n).

Definition full_vars_state (program : list string) : State :=
  with_vars (initial_state program "")
            (map (fun n => mkVar n zero_value) (numbered "v" MAX_VARS)).

Definition full_arrays_state (program : list string) : State :=
  with_arrays (initial_state program "")
              (map (fun n => mkArray n []) (numbered "t" MAX_ARRAYS)).

(** The first words of the statement forms [exec_line] knows. *)
Definition keywords : list string :=
  ["set"; "add"; "subtract"; "multiply"; "divide"; "increment"; "decrement"; "print"; "say";
   "ask"; "if"; "while"; "repeat"; "for"; "define"; "call"; "return"; "push"; "pop"; "store";
   "load"; "create"; "append"; "get"; "size"; "square"; "absolute"; "length"; "convert";
   "stop"; "exit"; "otherwise"].

(** ** Input *)

(** The text [s] has no end of line in it. *)
Fixpoint one_line (s : string) : bool :=
  match s with
  | String c r => negb (Ascii.eqb c "010") && one_line r
  | EmptyString => true
  end.

(** The variable [name] is a text and its text is [s]. *)
Definition holds_text (st : State) (name : string) (s : string) : Prop :=
  exists slot, find_var st name = Some slot /\
               type (var_at st slot) = TYPE_STR /\ str (var_at st slot) = s.

(** An input line with a zero byte in it: [42], the zero byte, [xyz]. *)
Definition zero_byte_line : string := "42" ++ String "000" "xyz".

(** What [ask] leaves in its variable for the answer [line]: the number,
    when [strtod] reads all of a line that is not empty, and the text of the
    line otherwise. *)
Definition answer_stored (st : State) (name : string) (line : string) : Prop :=
  match snd (strtod line), line with
  | EmptyString, String _ _ => holds_number st name (fst (strtod line))
  | _, _ => holds_text st name line
  end.

(** ** Texts *)

(** The text [t] is not empty and its first character is no white space. *)
Definition starts_word (t : string) : bool :=
  match t with
  | String c _ => negb (isspace c)
  | EmptyString => false
  end.

(** The text [s] is white space only. *)
Fixpoint blank (s : string) : bool :=
  match s with
  | String c r => isspace c && blank r
  | EmptyString => true
  end.

(** The text [s] has no double quote in it. *)
Fixpoint no_quote (s : string) : bool :=
  match s with
  | String c r => negb (Ascii.eqb c dquote) && no_quote r
  | EmptyString => true
  end.

(** The text [s] has no white space in it. *)
Fixpoint no_space (s : string) : bool :=
  match s with
  | String c r => negb (isspace c) && no_space r
  | EmptyString => true
  end.

(** A word: a text that is not empty and has no white space in it, as the
    tokenizer gives for all that is not quoted. *)
Definition is_word (s : string) : bool :=
  match s with
  | EmptyString => false
  | _ => no_space s
  end.

(** The operators of a condition that compare two numbers: the words after
    [is], and the comparison of the left with the right number. *)
Definition comparisons : list (list string * (double -> double -> bool)) :=
  [ (["greater"; "than"], fun l r => dlt r l);
    (["less"; "than"], fun l r => dlt l r);
    (["greater"; "than"; "or"; "equal"; "to"], fun l r => dle r l);
    (["less"; "than"; "or"; "equal"; "to"], fun l r => dle l r) ].

(** ** The pass for definitions *)

(** The line is one that [collect_funcs] registers when it meets it: its
    first token is [define] and it has three tokens or more. *)
Definition is_define (line : string) : bool :=
  let toks := tokenize (trim line) 32 in
  (3 <=? List.length toks) && streq (nth 0 toks "") "define".

Definition count_defines (ls : list string) : nat := List.length (filter is_define ls).

(** Every line fits the line buffer. *)
Definition lines_fit (st : State) : Prop :=
  Forall (fun l => String.length l < MAX_LINE - 1) (lines st).

(** ** Proof steps *)

(** Runs the tests of [exec_tokens] on a token list whose keywords are
    known, down to the statement form that matches. *)
Ltac dispatch :=
  unfold exec_tokens;
  cbn [nth List.length Nat.leb andb orb streq String.eqb Ascii.eqb Bool.eqb
       startswith String.prefix].

(** * Properties *)

(** ** Strings and tokens *)

Lemma truncate_length (n : nat) (s : string) : String.length (truncate n s) <= n.
Proof.
  revert s; induction n as [|n IH]; intros [|c r]; simpl; try lia.
  specialize (IH r); lia.
Qed.

Lemma truncate_short (n : nat) (s : string) : String.length s <= n -> truncate n s = s.
Proof.
  revert s; induction n as [|n IH]; intros [|c r]; simpl; intros H;
    try reflexivity; try lia.
  f_equal; apply IH; lia.
Qed.

Lemma tokenize_length (line : string) (room : nat) :
  Forall (fun t => String.length t <= MAX_NAME - 1) (tokenize line room).
Proof.
  revert line; induction room as [|k IH]; intros line; cbn [tokenize]; [constructor|].
  destruct (skip_space line) as [|c r]; [constructor|].
  destruct (Ascii.eqb c dquote).
  - destruct (scan_quoted r) as [w rest]. constructor; [apply truncate_length | apply IH].
  - destruct (scan_word (String c r)) as [w rest]. constructor; [apply truncate_length | apply IH].
Qed.

Lemma skip_space_head (c : ascii) (r : string) :
  isspace c = false -> skip_space (String c r) = String c r.
Proof. intros H; cbn [skip_space]; rewrite H; reflexivity. Qed.

(** The first token starts with the first character of the line. *)
Lemma tokenize_head_char (c : ascii) (r : string) (room : nat) (t : string) (rest : list string) :
  isspace c = false ->
  tokenize (String c r) room = t :: rest ->
  exists r', t = String c r'.
Proof.
  intros Hc. destruct room as [|k]; [discriminate|].
  cbn [tokenize]. rewrite (skip_space_head c r Hc).
  destruct (Ascii.eqb c dquote).
  - destruct (scan_quoted r) as [w rest']. intros H; injection H as <- _.
    exists (truncate 62 w). reflexivity.
  - cbn [scan_word]. rewrite Hc. destruct (scan_word r) as [w rest'].
    intros H; injection H as <- _. exists (truncate 62 w). reflexivity.
Qed.

Lemma startswith_head (a c : ascii) (p r : string) :
  startswith (String c r) (String a p) = true -> c = a.
Proof.
  unfold startswith; cbn [String.prefix].
  destruct (ascii_dec a c); [auto | discriminate].
Qed.

(** A line is no comment when its first token does not start like one. *)
Lemma not_comment (a : ascii) (p line : string) (t : string) (rest : list string) :
  isspace a = false ->
  tokenize line 32 = t :: rest ->
  startswith t (String a EmptyString) = false ->
  startswith line (String a p) = false.
Proof.
  intros Ha Htok Ht.
  destruct line as [|c r]; [reflexivity|].
  destruct (startswith (String c r) (String a p)) eqn:E; [|reflexivity].
  apply startswith_head in E. subst c.
  destruct (tokenize_head_char a r 32 t rest Ha Htok) as [r' ->].
  unfold startswith in Ht. cbn [String.prefix] in Ht.
  destruct (ascii_dec a a) as [_|N]; [destruct r'; discriminate Ht | elim N; reflexivity].
Qed.

(** A line whose first token begins with a letter is neither blank nor a
    comment, so [exec_line] goes on to the statement forms. *)
Lemma exec_line_tokens (pow : double -> double -> double) (exec : nat -> nat -> M nat)
    (fuel : nat) (st : State) (idx : nat) (t : string) (rest : list string) :
  statement_at st idx (t :: rest) ->
  startswith t "#" = false -> startswith t "/" = false ->
  exec_line pow exec fuel idx st
  = exec_tokens pow exec fuel (t :: rest) idx (trim (nth idx (lines st) "")) st.
Proof.
  intros [Hlen Htok] Hhash Hslash.
  unfold exec_line, bind, get, defined, strncpy_local.
  apply Nat.ltb_lt in Hlen. rewrite Hlen. unfold ret at 1.
  rewrite (not_comment "#" "" _ t rest eq_refl Htok Hhash).
  rewrite (not_comment "/" "/" _ t rest eq_refl Htok Hslash).
  rewrite Htok.
  destruct (trim (nth idx (lines st) "")); [discriminate Htok | reflexivity].
Qed.

(** ** Reading a statement *)

Lemma index_of_spec (key : string) (ws : list string) (start i : nat) :
  index_of key ws start = Some i ->
  start <= i /\ nth_error ws i = Some key.
Proof.
  revert start i; induction ws as [|w rest IH]; intros start i; cbn [index_of]; [discriminate|].
  destruct start as [|k].
  - unfold streq. destruct (String.eqb_spec w key) as [->|_].
    + intros H; injection H as <-. split; [lia | reflexivity].
    + destruct (index_of key rest 0) as [j|] eqn:E; [|discriminate].
      cbn [option_map]. intros H; injection H as <-.
      destruct (IH 0 j E) as [_ Hj]. split; [lia | exact Hj].
  - destruct (index_of key rest k) as [j|] eqn:E; [|discriminate].
    cbn [option_map]. intros H; injection H as <-.
    destruct (IH k j E) as [Hk Hj]. split; [lia | exact Hj].
Qed.

Lemma nth_error_removelast {A : Type} (l : list A) (i : nat) (x : A) :
  nth_error l i = Some x -> i + 1 < List.length l -> In x (removelast l).
Proof.
  revert i; induction l as [|a l IH]; intros i; [destruct i; discriminate|].
  destruct l as [|b l]; [cbn [List.length]; lia|].
  destruct i as [|i]; cbn [nth_error].
  - intros H _; injection H as ->. left; reflexivity.
  - intros H Hlen. right. apply (IH i H). cbn [List.length] in *. lia.
Qed.

Lemma in_removelast {A : Type} (l : list A) (x : A) : In x (removelast l) -> In x l.
Proof.
  induction l as [|a l IH]; [auto|].
  destruct l as [|b l]; [intros []|].
  intros [->|H]; [left; reflexivity | right; exact (IH H)].
Qed.

(** ** The statement [ask] *)

(** C10: an [ask] line of four tokens or more in which no token is [into], or
    in which [into] comes only as the last token, changes nothing: no prompt
    is printed, no input is read, no variable is made or written, nothing
    goes to the error stream, and the next line to run is the one after. *)
Theorem ask_without_target (pow : double -> double -> double) (exec : nat -> nat -> M nat)
    (fuel : nat) (st : State) (idx : nat) (rest : list string) :
  statement_at st idx ("ask" :: rest) ->
  4 <= List.length ("ask" :: rest) ->
  (~ In "into" rest \/ exists before, rest = (before ++ ["into"])%list /\ ~ In "into" before) ->
  exec_line pow exec fuel idx st = Ok (idx + 1) st.
Proof.
  intros Hst Htc Hinto.
  rewrite (exec_line_tokens pow exec fuel st idx "ask" rest Hst eq_refl eq_refl).
  assert (Hnone : ~ In "into" (removelast ("ask" :: rest))).
  { intros Hin.
    assert (Hin' : In "into" (removelast rest)).
    { destruct rest as [|t1 rest']; [destruct Hin|].
      destruct Hin as [Heq|Hin]; [discriminate Heq | exact Hin]. }
    destruct Hinto as [Hno | [before [-> Hno]]].
    - apply Hno, in_removelast, Hin'.
    - rewrite removelast_last in Hin'. exact (Hno Hin'). }
  destruct rest as [|t1 [|t2 [|t3 rest]]]; cbn [List.length] in Htc; try lia.
  dispatch. unfold do_ask.
  destruct (index_of "into" ("ask" :: t1 :: t2 :: t3 :: rest) 1) as [into_idx|] eqn:E;
    [|reflexivity].
  destruct (index_of_spec _ _ _ _ E) as [Hpos Hnth].
  destruct (into_idx + 1 <? List.length ("ask" :: t1 :: t2 :: t3 :: rest)) eqn:Hlast.
  - apply Nat.ltb_lt in Hlast. elim Hnone. exact (nth_error_removelast _ _ _ Hnth Hlast).
  - rewrite andb_false_r. reflexivity.
Qed.

(** The theorem at the line [ask name please into]. *)
Lemma ask_without_target_witness :
  exec_line pow_unused (execute pow_unused 0) 0 0
    (initial_state ["ask name please into"] "Ada")
  = Ok 1 (initial_state ["ask name please into"] "Ada").
Proof.
  apply (ask_without_target pow_unused (execute pow_unused 0) 0
           (initial_state ["ask name please into"] "Ada") 0 ["name"; "please"; "into"]).
  - split; [vm_compute; lia | reflexivity].
  - cbn [List.length]; lia.
  - right. exists ["name"; "please"]. split; [reflexivity|].
    intros [H|[H|[]]]; discriminate H.
Defined.

(** ** The condition evaluator *)

(** C9: a condition of fewer than three words is false, whatever the words
    are and whatever the state is. *)
Theorem eval_condition_few_words (st : State) (cond_str : string) :
  String.length cond_str < MAX_LINE - 1 ->
  List.length (split_words (trim cond_str) 32) < 3 ->
  eval_condition st cond_str = Some false.
Proof.
  intros Hlen Hwc. unfold eval_condition, strncpy_local.
  apply Nat.ltb_lt in Hlen. rewrite Hlen.
  apply Nat.ltb_lt in Hwc. rewrite Hwc. reflexivity.
Qed.

(** The theorem at the condition [x is]. *)
Lemma eval_condition_few_words_witness :
  eval_condition (initial_state [] "") "x is" = Some false.
Proof.
  apply (eval_condition_few_words (initial_state [] "") "x is").
  - vm_compute; lia.
  - vm_compute; lia.
Defined.

(** ** The tables *)

Lemma find_index_bound {A : Type} (p : A -> bool) (l : list A) (i : nat) (d : A) :
  find_index p l = Some i -> i < List.length l /\ p (nth i l d) = true.
Proof.
  revert i; induction l as [|x l IH]; intros i; cbn [find_index]; [discriminate|].
  destruct (p x) eqn:Hp.
  - intros H; injection H as <-. cbn [List.length nth]. split; [lia | exact Hp].
  - destruct (find_index p l) as [j|]; [|discriminate].
    cbn [option_map]. intros H; injection H as <-.
    destruct (IH j eq_refl) as [Hlt Hj]. cbn [List.length nth]. split; [lia | exact Hj].
Qed.

Lemma find_index_app {A : Type} (p : A -> bool) (l : list A) (x : A) :
  find_index p (l ++ [x])
  = match find_index p l with
    | Some i => Some i
    | None => if p x then Some (List.length l) else None
    end.
Proof.
  induction l as [|y l IH]; cbn [find_index app List.length].
  - destruct (p x); reflexivity.
  - destruct (p y); [reflexivity|]. rewrite IH.
    destruct (find_index p l); [reflexivity|]. destruct (p x); reflexivity.
Qed.

Lemma nth_update_nth {A : Type} (i : nat) (x d : A) (l : list A) :
  i < List.length l -> nth i (update_nth i x l) d = x.
Proof.
  revert i; induction l as [|y l IH]; intros i; cbn [List.length]; [lia|].
  destruct i as [|i]; cbn [update_nth nth]; [reflexivity|]. intros H; apply IH; lia.
Qed.

Lemma find_index_update_nth {A : Type} (p : A -> bool) (i : nat) (x d : A) (l : list A) :
  p x = p (nth i l d) -> find_index p (update_nth i x l) = find_index p l.
Proof.
  revert i; induction l as [|y l IH]; intros i; [destruct i; reflexivity|].
  destruct i as [|i]; cbn [update_nth nth find_index].
  - intros ->. reflexivity.
  - intros H. rewrite (IH i H). reflexivity.
Qed.

Lemma find_app_some {A : Type} (p : A -> bool) (l : list A) (x y : A) :
  find p l = Some y -> find p (l ++ [x]) = Some y.
Proof.
  induction l as [|z l IH]; cbn [find app]; [discriminate|].
  destruct (p z); auto.
Qed.

(** A write through a variable pointer keeps every name in its slot. *)
Lemma find_var_set_var (i : nat) (v : Value) (st st' : State) (name : string) :
  set_var i v st = Ok tt st' -> find_var st' name = find_var st name.
Proof.
  unfold set_var. intros H; injection H as <-.
  unfold find_var. cbn [vars with_vars].
  apply find_index_update_nth with (d := mkVar "" zero_value). reflexivity.
Qed.

Lemma var_at_set_var (i : nat) (v : Value) (st st' : State) :
  set_var i v st = Ok tt st' -> i < List.length (vars st) -> var_at st' i = v.
Proof.
  unfold set_var. intros H Hi; injection H as <-.
  unfold var_at. cbn [vars with_vars]. rewrite nth_update_nth by exact Hi. reflexivity.
Qed.

Lemma find_var_bound (st : State) (name : string) (i : nat) :
  find_var st name = Some i -> i < List.length (vars st).
Proof.
  intros H. exact (proj1 (find_index_bound _ _ _ (mkVar "" zero_value) H)).
Qed.

(** [get_or_create_var] finds the variable, or makes it when the table has a
    free slot; in both cases the name is found in that slot afterwards. *)
Lemma get_or_create_var_ok (name : string) (st : State) :
  String.length name <= MAX_NAME - 1 ->
  find_var st name <> None \/ List.length (vars st) < MAX_VARS ->
  exists slot st',
    get_or_create_var name st = Ok slot st' /\
    find_var st' name = Some slot /\
    slot < List.length (vars st') /\
    ((find_var st name = Some slot /\ st' = st) \/
     (find_var st name = None /\ st' = with_new_var st name)).
Proof.
  intros Hname Hroom. unfold get_or_create_var.
  destruct (find_var st name) as [i|] eqn:Hfind.
  - exists i, st. repeat split; auto. exact (find_var_bound _ _ _ Hfind).
  - destruct Hroom as [Hroom|Hroom]; [congruence|].
    apply Nat.ltb_lt in Hroom. rewrite Hroom.
    exists (List.length (vars st)), (with_new_var st name).
    split; [reflexivity|]. split; [|split].
    + unfold find_var in *. unfold with_new_var. cbn [vars with_vars].
      rewrite find_index_app, Hfind. cbn [var_name].
      rewrite (truncate_short _ _ Hname). unfold streq. rewrite String.eqb_refl. reflexivity.
    + unfold with_new_var. cbn [vars with_vars]. rewrite length_app. cbn [List.length]. lia.
    + right. split; reflexivity.
Qed.

(** The number a token stands for does not change when a variable is made:
    a word that named no variable was read as 0, and the new variable is 0. *)
Lemma resolve_num_with_new_var (st : State) (name token : string) :
  find_var st name = None ->
  resolve_num (with_new_var st name) token = resolve_num st token.
Proof.
  intros Hfresh. unfold resolve_num, resolve.
  destruct (match token with String c _ => Ascii.eqb c dquote | EmptyString => false end);
    [reflexivity|].
  destruct (strtod token) as [d rest]. destruct rest as [|c r]; [reflexivity|].
  unfold find_var, with_new_var, var_at. cbn [vars with_vars].
  rewrite find_index_app.
  destruct (find_index (fun v => streq (var_name v) token) (vars st)) as [i|] eqn:Hi.
  - destruct (find_index_bound _ _ _ (mkVar "" zero_value) Hi) as [Hlt _].
    rewrite app_nth1 by exact Hlt. reflexivity.
  - cbn [var_name]. destruct (streq (truncate (MAX_NAME - 1) name) token).
    + rewrite nth_middle. reflexivity.
    + reflexivity.
Qed.

(** ** Arrays: [append] at capacity *)

(** C1, as stated, fails: after the first line the array [a] holds
    [MAX_ARRAY_SIZE] elements, and the [append] of the second line does not
    end the process; it returns to the executor with the state as it was. *)
Lemma append_at_capacity_does_not_exit :
  exists st a,
    exec_line pow_unused (execute pow_unused 0) 0 0 (initial_state full_array_program "")
    = Ok 1 st /\
    find_array st "a" = Some a /\ size (array_at st a) = MAX_ARRAY_SIZE /\
    exec_line pow_unused (execute pow_unused 0) 0 1 st = Ok 2 st /\
    ~ (exists status st', exec_line pow_unused (execute pow_unused 0) 0 1 st = Exit status st').
Proof.
  eexists; exists 0.
  split; [vm_compute; reflexivity|].
  split; [reflexivity|]. split; [reflexivity|].
  split; [vm_compute; reflexivity|].
  intros (status & st' & Hexit). vm_compute in Hexit. discriminate Hexit.
Qed.

(** C1, amended: [append <value> to array <name>] on an array that holds
    [MAX_ARRAY_SIZE] elements is a no-operation.  The whole state is as
    before (the array, the other tables and the streams), and the executor
    goes on with the next line. *)
Theorem append_at_capacity (pow : double -> double -> double) (exec : nat -> nat -> M nat)
    (fuel : nat) (st : State) (idx : nat) (value name : string) (rest : list string) (a : nat) :
  statement_at st idx ("append" :: value :: "to" :: "array" :: name :: rest) ->
  find_array st name = Some a ->
  size (array_at st a) = MAX_ARRAY_SIZE ->
  exec_line pow exec fuel idx st = Ok (idx + 1) st.
Proof.
  intros Hst Hfind Hfull.
  rewrite (exec_line_tokens pow exec fuel st idx _ _ Hst eq_refl eq_refl).
  dispatch. unfold do_append, bind, get_or_create_array, get.
  cbn [nth]. rewrite Hfind, Hfull, Nat.ltb_irrefl. reflexivity.
Qed.

(** The theorem at [append 7 to array a] with [a] full. *)
Lemma append_at_capacity_witness :
  exec_line pow_unused (execute pow_unused 0) 0 0 full_array_state = Ok 1 full_array_state.
Proof.
  apply (append_at_capacity pow_unused (execute pow_unused 0) 0 full_array_state 0
           "7" "a" [] 0).
  - split; [vm_compute; lia | reflexivity].
  - reflexivity.
  - unfold size, array_at, full_array_state. cbn [arrays with_arrays nth data].
    apply repeat_length.
Defined.

(** ** Functions: [define] met at run time *)

(** C2, as stated, fails: the pass before the run has registered [f], and
    the [define] line run afterwards adds a second entry to the table. *)
Lemma define_at_run_time_adds_entry :
  exists st1 st2,
    collect_funcs (initial_state define_program "") = Ok tt st1 /\
    find_func st1 "f" = Some (mkFuncDef "f" 1 2 []) /\
    exec_line pow_unused (execute pow_unused 0) 0 0 st1 = Ok 3 st2 /\
    funcs st1 = [mkFuncDef "f" 1 2 []] /\
    funcs st2 = [mkFuncDef "f" 1 2 []; mkFuncDef "f" 1 2 []] /\
    funcs st2 <> funcs st1.
Proof.
  eexists; eexists.
  split; [vm_compute; reflexivity|].
  split; [reflexivity|].
  split; [vm_compute; reflexivity|].
  split; [reflexivity|]. split; [reflexivity|].
  cbn [funcs]. discriminate.
Qed.

(** C2, amended: a [define] line met by the executor moves execution to the
    line after the matching [end define] and changes nothing but the
    function table, which gets one more entry at its end, for the name on
    the line, whether or not the name is in the table already.  Since lookup
    takes the first entry with a name, every name that was in the table
    still leads to the same entry.  (The table must have a free entry.) *)
Theorem define_at_run_time (pow : double -> double -> double) (exec : nat -> nat -> M nat)
    (fuel : nat) (st : State) (idx : nat) (name t2 : string) (rest : list string) :
  statement_at st idx ("define" :: name :: t2 :: rest) ->
  func_count st < MAX_FUNCS ->
  exists entry,
    exec_line pow exec fuel idx st
    = Ok (find_end st idx "end define" + 1) (with_funcs st (funcs st ++ [entry])) /\
    func_name entry = name /\
    start_line entry = idx + 1 /\
    end_line entry = find_end st idx "end define" /\
    forall g f, find_func st g = Some f ->
                find_func (with_funcs st (funcs st ++ [entry])) g = Some f.
Proof.
  intros Hst Hroom.
  rewrite (exec_line_tokens pow exec fuel st idx _ _ Hst eq_refl eq_refl).
  dispatch. unfold do_define, bind, get, register_func.
  apply Nat.ltb_lt in Hroom. rewrite Hroom.
  eexists. split; [reflexivity|]. cbn [func_name start_line end_line nth].
  split; [|split; [reflexivity|split; [reflexivity|]]].
  - apply truncate_short.
    destruct Hst as [_ Htok]. pose proof (tokenize_length (trim (nth idx (lines st) "")) 32) as Hall.
    rewrite Htok in Hall. inversion Hall as [|? ? _ Htail]. inversion Htail as [|? ? Hname _].
    exact Hname.
  - intros g f Hg. unfold find_func in *. cbn [funcs with_funcs].
    apply find_app_some. exact Hg.
Qed.

(** The theorem at the first line of that program. *)
Lemma define_at_run_time_witness :
  exists entry,
    exec_line pow_unused (execute pow_unused 0) 0 0 define_state
    = Ok 3 (with_funcs define_state [mkFuncDef "f" 1 2 []; entry]) /\
    func_name entry = "f" /\
    find_func (with_funcs define_state [mkFuncDef "f" 1 2 []; entry]) "f"
    = Some (mkFuncDef "f" 1 2 []).
Proof.
  destruct (define_at_run_time pow_unused (execute pow_unused 0) 0 define_state 0 "f" "as" [])
    as (entry & Hrun & Hname & _ & _ & Hfind).
  - split; [vm_compute; lia | reflexivity].
  - vm_compute; lia.
  - exists entry. split; [exact Hrun|]. split; [exact Hname|].
    apply (Hfind "f"). reflexivity.
Defined.

(** ** Division by zero *)

(** No token of a line is longer than a name. *)
Lemma token_fits (st : State) (idx : nat) (toks : list string) (t : string) :
  statement_at st idx toks -> In t toks -> String.length t <= MAX_NAME - 1.
Proof.
  intros [_ Htok] Hin.
  pose proof (tokenize_length (trim (nth idx (lines st) "")) 32) as Hall.
  rewrite Htok in Hall. rewrite Forall_forall in Hall. exact (Hall t Hin).
Qed.

Lemma dne_zero (d : double) : deq d dzero = true -> dne d dzero = false.
Proof. unfold dne, deq. intros ->. reflexivity. Qed.

(** C5: when [b] stands for 0, [divide <a> by <b> into <q>] and
    [set <q> to <a> divided by <b>] store [Number(0)] in [q], whatever [a]
    is; the run goes on with the next line and nothing is written to either
    output stream.  ([q] exists already or the variable table has a free
    slot for it.) *)
Theorem division_by_zero (pow : double -> double -> double) (exec : nat -> nat -> M nat)
    (fuel : nat) (st : State) (idx : nat) (a b q : string) (rest : list string) :
  statement_at st idx ("divide" :: a :: "by" :: b :: "into" :: q :: rest) \/
  statement_at st idx ("set" :: q :: "to" :: a :: "divided" :: "by" :: b :: rest) ->
  resolves_to_zero st b ->
  find_var st q <> None \/ List.length (vars st) < MAX_VARS ->
  exists st',
    exec_line pow exec fuel idx st = Ok (idx + 1) st' /\
    holds_number st' q dzero /\
    stdout st' = stdout st /\ stderr st' = stderr st.
Proof.
  intros Hst Hzero Hroom.
  assert (Hq : String.length q <= MAX_NAME - 1).
  { destruct Hst as [Hst|Hst]; apply (token_fits _ _ _ q Hst); cbn [In]; auto 10. }
  destruct (get_or_create_var_ok q st Hq Hroom) as (slot & st1 & Hget & Hfind & Hslot & Hcase).
  assert (Hzero1 : dne (resolve_num st1 b) dzero = false).
  { apply dne_zero. destruct Hcase as [[_ ->]|[Hfresh ->]]; [exact Hzero|].
    rewrite (resolve_num_with_new_var st q b Hfresh). exact Hzero. }
  assert (Hout : stdout st1 = stdout st /\ stderr st1 = stderr st).
  { destruct Hcase as [[_ ->]|[_ ->]]; split; reflexivity. }
  destruct Hst as [Hst|Hst];
    rewrite (exec_line_tokens pow exec fuel st idx _ _ Hst eq_refl eq_refl); dispatch.
  - unfold do_divide, bind. cbn [nth]. rewrite Hget. unfold get.
    rewrite Hzero1.
    destruct (set_var_type slot TYPE_NUM st1) as [[] st2| | |] eqn:Htag; try discriminate Htag.
    unfold set_var_type in Htag.
    pose proof (find_var_set_var _ _ _ _ q Htag) as Hfind2. rewrite Hfind in Hfind2.
    pose proof (var_at_set_var _ _ _ _ Htag Hslot) as Hval2.
    destruct (set_var_num_field slot dzero st2) as [[] st3| | |] eqn:Hset; try discriminate Hset.
    unfold set_var_num_field in Hset.
    exists st3. split; [reflexivity|]. split.
    + exists slot.
      rewrite (find_var_set_var _ _ _ _ q Hset),
        (var_at_set_var _ _ _ _ Hset (find_var_bound _ _ _ Hfind2)), Hval2.
      auto.
    + unfold set_var in Hset, Htag. injection Hset as <-. injection Htag as <-. exact Hout.
  - unfold do_set, bind. cbn [nth]. rewrite Hget. unfold get.
    cbn [List.length Nat.ltb Nat.leb andb streq String.eqb Ascii.eqb Bool.eqb nth].
    rewrite Hzero1. unfold ret at 1.
    destruct (set_var slot (num_of (resolve st1 a) dzero) st1)
      as [[] st2| | |] eqn:Hset; try discriminate Hset.
    exists st2. split; [reflexivity|]. split.
    + exists slot. rewrite (find_var_set_var _ _ _ _ q Hset), (var_at_set_var _ _ _ _ Hset Hslot).
      auto.
    + unfold set_var in Hset. injection Hset as <-. exact Hout.
Qed.

(** The theorem at [divide 5 by 0 into q], run as a one-line program. *)
Lemma division_by_zero_witness :
  exists st',
    exec_line pow_unused (execute pow_unused 0) 0 0 (initial_state ["divide 5 by 0 into q"] "")
    = Ok 1 st' /\
    holds_number st' "q" dzero /\
    stdout st' = "" /\ stderr st' = "".
Proof.
  apply (division_by_zero pow_unused (execute pow_unused 0) 0
           (initial_state ["divide 5 by 0 into q"] "") 0 "5" "0" "q" []).
  - left. split; [vm_compute; lia | reflexivity].
  - reflexivity.
  - right. vm_compute; lia.
Defined.

(** ** Conversions between number and text *)

(** What the two conversions do to a number: [convert n to string] stores
    the text [%g] gives for it, and [convert n to number] what [atof] reads
    from that text.  So a number that is read back from its text
    ([representable]) is restored. *)
Lemma convert_restores_readable (pow : double -> double -> double) (exec : nat -> nat -> M nat)
    (fuel : nat) (st : State) (idx : nat) (n : string) (rest1 rest2 : list string)
    (slot : nat) :
  statement_at st idx ("convert" :: n :: "to" :: "string" :: rest1) ->
  statement_at st (idx + 1) ("convert" :: n :: "to" :: "number" :: rest2) ->
  find_var st n = Some slot ->
  type (var_at st slot) = TYPE_NUM ->
  representable (num (var_at st slot)) ->
  exists st1 st2,
    exec_line pow exec fuel idx st = Ok (idx + 1) st1 /\
    exec_line pow exec fuel (idx + 1) st1 = Ok (idx + 1 + 1) st2 /\
    find_var st2 n = Some slot /\
    type (var_at st2 slot) = TYPE_NUM /\
    num (var_at st2 slot) = num (var_at st slot).
Proof.
  intros Hs1 Hs2 Hfind Htype Hrep.
  pose proof (find_var_bound _ _ _ Hfind) as Hslot.
  rewrite (exec_line_tokens pow exec fuel st idx _ _ Hs1 eq_refl eq_refl). dispatch.
  unfold do_convert_string, bind, get_or_create_var. cbn [nth]. rewrite Hfind.
  unfold get. rewrite Htype.
  destruct (set_var slot _ st) as [[] st1| | |] eqn:Hset1; try discriminate Hset1.
  exists st1.
  assert (Hlines : lines st1 = lines st).
  { unfold set_var in Hset1. injection Hset1 as <-. reflexivity. }
  assert (Hs2' : statement_at st1 (idx + 1) ("convert" :: n :: "to" :: "number" :: rest2)).
  { unfold statement_at. rewrite Hlines. exact Hs2. }
  pose proof (find_var_set_var _ _ _ _ n Hset1) as Hfind1. rewrite Hfind in Hfind1.
  pose proof (var_at_set_var _ _ _ _ Hset1 Hslot) as Hval1.
  assert (Hslot1 : slot < List.length (vars st1)) by exact (find_var_bound _ _ _ Hfind1).
  rewrite (exec_line_tokens pow exec fuel st1 (idx + 1) _ _ Hs2' eq_refl eq_refl). dispatch.
  unfold do_convert_number, bind, get_or_create_var. cbn [nth]. rewrite Hfind1.
  unfold get. rewrite Hval1. cbn [type str].
  destruct (set_var slot _ st1) as [[] st2| | |] eqn:Hset2; try discriminate Hset2.
  exists st2. split; [reflexivity|]. split; [reflexivity|].
  rewrite (find_var_set_var _ _ _ _ n Hset2), (var_at_set_var _ _ _ _ Hset2 Hslot1).
  cbn [type num]. auto.
Qed.

(** The lemma at the state in which [n] is 3.5. *)
Example convert_restores_3_5 :
  exists st1 st2,
    exec_line pow_unused (execute pow_unused 0) 0 0 round_trip_state = Ok 1 st1 /\
    exec_line pow_unused (execute pow_unused 0) 0 1 st1 = Ok 2 st2 /\
    holds_number st2 "n" (atof "3.5").
Proof.
  destruct (convert_restores_readable pow_unused (execute pow_unused 0) 0 round_trip_state 0
              "n" [] [] 0) as (st1 & st2 & H1 & H2 & H3 & H4 & H5).
  - split; [vm_compute; lia | reflexivity].
  - split; [vm_compute; lia | reflexivity].
  - reflexivity.
  - reflexivity.
  - vm_compute. reflexivity.
  - exists st1, st2. split; [exact H1|]. split; [exact H2|].
    exists 0. split; [exact H3|]. split; [exact H4 | exact H5].
Qed.

(** ** The text of an integer and its reading *)








Lemma substring_prefix (s t : string) : substring 0 (String.length s) (s ++ t) = s.
Proof.
  induction s as [|c r IH]; cbn [String.length append substring].
  - destruct t; reflexivity.
  - rewrite IH. reflexivity.
Qed.





















(** Numbers of up to six significant digits are read back as they were, and
    so is the double nearest to 0.1; a number of seven digits is not. *)
Example representable_values :
  representable (atof "3") /\ representable (atof "3.5") /\ representable (atof "100000") /\
  representable (atof "-0.000125") /\ representable (atof "0.1") /\
  representable (atof "2.5e+20").
Proof. repeat split; vm_compute; reflexivity. Qed.

Example seven_digits_not_representable :
  snprintf_g 256 (atof "1234567") = "1.23457e+06" /\ ~ representable (atof "1234567").
Proof. split; [vm_compute; reflexivity | vm_compute; discriminate]. Qed.

Lemma same_double_eq (a b : double) : same_double a b = true -> a = b.
Proof.
  destruct a as [s|s| |s m e], b as [t|t| |t n f]; cbn [same_double]; try discriminate.
  - intros H. apply Bool.eqb_prop in H. congruence.
  - intros H. apply Bool.eqb_prop in H. congruence.
  - reflexivity.
  - intros H. apply andb_prop in H. destruct H as [H He].
    apply andb_prop in H. destruct H as [Hs Hm].
    apply Bool.eqb_prop in Hs. apply Pos.eqb_eq in Hm. apply Z.eqb_eq in He. congruence.
Qed.

Lemma all_below_spec (n : nat) (p : Z -> bool) :
  all_below n p = true -> forall k, (0 <= k < Z.of_nat n)%Z -> p k = true.
Proof.
  induction n as [|n IH]; intros H k Hk; [lia|].
  cbn [all_below] in H. apply andb_prop in H. destruct H as [Hn Hrest].
  destruct (Z.eq_dec k (Z.of_nat n)) as [->|Hne]; [exact Hn|].
  apply IH; [exact Hrest | lia].
Qed.

(** Every integer of up to three digits, of either sign, is representable. *)
Lemma small_integers_representable (k : Z) :
  (-1000 < k < 1000)%Z -> representable (of_Z k).
Proof.
  intros Hk.
  assert (Hall : all_below 1000 round_trips = true) by (vm_compute; reflexivity).
  destruct (Z.le_gt_cases 0 k) as [Hpos|Hneg].
  - pose proof (all_below_spec 1000 round_trips Hall k ltac:(lia)) as H.
    apply andb_prop in H. exact (same_double_eq _ _ (proj1 H)).
  - pose proof (all_below_spec 1000 round_trips Hall (- k)%Z ltac:(lia)) as H.
    apply andb_prop in H. destruct H as [_ H]. rewrite Z.opp_involutive in H.
    exact (same_double_eq _ _ H).
Qed.


(** ** The block resolver *)

Lemma prefix_trans (a b c : string) :
  String.prefix a b = true -> String.prefix b c = true -> String.prefix a c = true.
Proof.
  revert a b; induction c as [|z c IH]; intros a b Hab Hbc.
  - destruct b; [|discriminate Hbc]. destruct a; [reflexivity | discriminate Hab].
  - destruct b as [|y b]; [destruct a; [reflexivity | discriminate Hab]|].
    destruct a as [|x a]; [reflexivity|].
    cbn [String.prefix] in *.
    destruct (ascii_dec y z) as [->|]; [|discriminate Hbc].
    destruct (ascii_dec x z) as [_|]; [|discriminate Hab].
    exact (IH a b Hab Hbc).
Qed.

(** With a closing keyword that itself begins with [end ], the two tests of
    [find_end] for a closing line are the one test for [end ]. *)
Lemma closing_test (kw l : string) :
  startswith kw "end " = true ->
  startswith l kw || startswith l "end " = startswith l "end ".
Proof.
  intros Hkw. destruct (startswith l kw) eqn:E; [|reflexivity].
  cbn [orb]. symmetry. unfold startswith in *. exact (prefix_trans _ _ _ Hkw E).
Qed.

Lemma no_open_and_close (l : string) :
  opens_block l = true -> startswith l "end " = false.
Proof.
  unfold opens_block, startswith. destruct l as [|c l]; [discriminate|].
  cbn [String.prefix].
  destruct (ascii_dec "e" c) as [<-|]; [|reflexivity]. discriminate.
Qed.

(** One round of the loop of [find_end] moves the depth by [depth_step]. *)
Lemma loop_step (kw line : string) (depth : Z) :
  startswith kw "end " = true ->
  (let l := trim line in
   let d1 := if opens_block l then (depth + 1)%Z else depth in
   if startswith l kw || startswith l "end " then (d1 - 1)%Z else d1)
  = (depth + depth_step line)%Z.
Proof.
  intros Hkw. cbv zeta. rewrite (closing_test kw _ Hkw).
  unfold depth_step, begins_with. fold (startswith (trim line) "end ").
  change (String.prefix "if " (trim line) || String.prefix "while " (trim line)
          || String.prefix "repeat " (trim line) || String.prefix "define " (trim line))
    with (opens_block (trim line)).
  destruct (opens_block (trim line)) eqn:Ho.
  - rewrite (no_open_and_close _ Ho). lia.
  - destruct (startswith (trim line) "end "); lia.
Qed.

Lemma find_end_loop_spec (kw : string) (rest : list string) :
  startswith kw "end " = true ->
  forall (i : nat) (depth : Z) (total : nat),
    total = i + List.length rest ->
    let r := find_end_loop rest i depth kw total in
    i <= r <= total /\
    (r < total -> (depth + depth_steps (firstn (r - i + 1) rest) = 0)%Z) /\
    (forall j, i <= j < r -> (depth + depth_steps (firstn (j - i + 1) rest) <> 0)%Z).
Proof.
  intros Hkw. induction rest as [|line rest IH]; intros i depth total Htotal; cbn [find_end_loop].
  - cbn [List.length] in Htotal. cbv zeta. split; [lia|]. split; intros; lia.
  - cbn [List.length] in Htotal.
    pose proof (loop_step kw line depth Hkw) as Hstep. cbv zeta in Hstep. rewrite Hstep.
    destruct (Z.eqb_spec (depth + depth_step line) 0) as [Hz|Hnz]; cbv zeta.
    + split; [lia|]. split; [|intros; lia].
      intros _. replace (i - i + 1) with 1 by lia. cbn [firstn depth_steps]. lia.
    + specialize (IH (i + 1) (depth + depth_step line)%Z total ltac:(lia)).
      cbv zeta in IH. destruct IH as (Hrange & Hzero & Hfirst).
      set (r := find_end_loop rest (i + 1) (depth + depth_step line) kw total) in *.
      split; [lia|]. split.
      * intros Hr. specialize (Hzero Hr).
        replace (r - i + 1) with (S (r - (i + 1) + 1)) by lia.
        cbn [firstn depth_steps]. lia.
      * intros j Hj. destruct (Nat.eq_dec j i) as [->|Hne].
        -- replace (i - i + 1) with 1 by lia. cbn [firstn depth_steps]. lia.
        -- specialize (Hfirst j ltac:(lia)).
           replace (j - i + 1) with (S (j - (i + 1) + 1)) by lia.
           cbn [firstn depth_steps]. lia.
Qed.

(** C4: [find_end] counts depth from 1 over the lines after [open_index] as
    [depth_after] does, and returns the first index at which the depth is
    0, or the length of the program when there is none.  A line that begins
    with [for ] does not change the depth.  (The closing keyword is one that
    begins with [end ], as all five keywords of the interpreter do.) *)
Theorem find_end_first_close (st : State) (open_index : nat) (end_keyword : string) :
  startswith end_keyword "end " = true ->
  let r := find_end st open_index end_keyword in
  r <= line_count st /\
  (r < line_count st -> open_index < r /\ depth_after (lines st) open_index r = 0%Z) /\
  (forall j, open_index < j < r -> depth_after (lines st) open_index j <> 0%Z) /\
  (forall line, begins_with "for " (trim line) = true -> depth_step line = 0%Z).
Proof.
  intros Hkw. cbv zeta. unfold find_end, line_count, depth_after.
  split; [|split; [|split]].
  4: { intros line Hfor. unfold depth_step, begins_with in *.
       destruct (trim line) as [|c l]; [discriminate Hfor|].
       cbn [String.prefix] in *.
       destruct (ascii_dec "f" c) as [<-|]; [reflexivity | discriminate Hfor]. }
  all: destruct (Nat.le_gt_cases (open_index + 1) (List.length (lines st))) as [Hin|Hout].
  all: try (rewrite (skipn_all2 (lines st)) by lia; cbn [find_end_loop]; intros; lia).
  all: pose proof (find_end_loop_spec end_keyword (skipn (open_index + 1) (lines st)) Hkw
                     (open_index + 1) 1%Z (List.length (lines st))
                     ltac:(rewrite length_skipn; lia)) as H;
       cbv zeta in H; destruct H as (Hrange & Hzero & Hfirst).
  - lia.
  - intros Hr. split; [lia|]. specialize (Hzero Hr).
    set (r := find_end_loop _ _ _ _ _) in *.
    replace (r - open_index) with (r - (open_index + 1) + 1) by lia. exact Hzero.
  - intros j Hj. specialize (Hfirst j ltac:(lia)).
    replace (j - open_index) with (j - (open_index + 1) + 1) by lia. exact Hfirst.
Qed.

(** The theorem at that program: the [for] line is not counted, so the
    depth is 0 again at the [end for] of line 2. *)
Lemma find_end_first_close_witness :
  find_end nested_for_state 0 "end while" = 2 /\
  depth_after (lines nested_for_state) 0 2 = 0%Z.
Proof.
  destruct (find_end_first_close nested_for_state 0 "end while" eq_refl) as (_ & Hzero & _).
  split; [reflexivity|]. apply Hzero. vm_compute. lia.
Defined.

(** ** The statement [if] *)

(** C3, as stated, fails: run as a program of one line, the statement prints
    nothing.  The block of an [if] is the lines after it, and there are
    none; the tokens after [then] are not looked at. *)
Lemma if_on_one_line_prints_nothing :
  (exists st, run_program pow_unused 2 if_one_line "" = Ok 0%Z st /\ stdout st = "") /\
  ~ (exists fuel status st,
       (run_program pow_unused fuel if_one_line "" = Ok status st \/
        run_program pow_unused fuel if_one_line "" = Exit status st) /\
       stdout st <> "").
Proof.
  split.
  - eexists. split; vm_compute; reflexivity.
  - intros (fuel & status & st & Hrun & Hout).
    destruct fuel as [|[|fuel]].
    + destruct Hrun as [H|H]; vm_compute in H; discriminate H.
    + destruct Hrun as [H|H]; vm_compute in H; discriminate H.
    + destruct Hrun as [H|H]; vm_compute in H; [|discriminate H].
      injection H as _ <-. apply Hout. reflexivity.
Qed.

(** C3, amended: written on five lines, the statement prints [yes] and a
    newline, and nothing else; the program ends with status 0. *)
Theorem if_prints_yes (pow : double -> double -> double) (fuel : nat) :
  exists st,
    run_program pow (4 + fuel) if_five_lines "" = Ok 0%Z st /\
    stdout st = "yes" ++ newline /\ stderr st = "".
Proof.
  eexists. split; [vm_compute; reflexivity|]. split; reflexivity.
Qed.

(** ** The data stack *)

Lemma nth_update_nth_other {A : Type} (i j : nat) (x d : A) (l : list A) :
  j <> i -> nth j (update_nth i x l) d = nth j l d.
Proof.
  revert i j; induction l as [|y l IH]; intros i j Hne; [destruct i; reflexivity|].
  destruct i as [|i], j as [|j]; cbn [update_nth nth]; try reflexivity; try lia.
  apply IH. lia.
Qed.

Lemma var_at_set_var_other (i j : nat) (v : Value) (st st' : State) :
  set_var i v st = Ok tt st' -> j <> i -> var_at st' j = var_at st j.
Proof.
  unfold set_var. intros H Hne; injection H as <-.
  unfold var_at. cbn [vars with_vars]. rewrite nth_update_nth_other by exact Hne. reflexivity.
Qed.

Lemma find_var_name (st : State) (name : string) (i : nat) :
  find_var st name = Some i -> var_name (nth i (vars st) (mkVar "" zero_value)) = name.
Proof.
  intros H. destruct (find_index_bound _ _ _ (mkVar "" zero_value) H) as [_ Hp].
  apply String.eqb_eq. exact Hp.
Qed.

(** Two names lead to two slots. *)
Lemma find_var_distinct (st : State) (v w : string) (i j : nat) :
  find_var st v = Some i -> find_var st w = Some j -> v <> w -> i <> j.
Proof.
  intros Hv Hw Hne ->. apply Hne.
  rewrite <- (find_var_name _ _ _ Hv), <- (find_var_name _ _ _ Hw). reflexivity.
Qed.

(** What a variable holds is not touched when another variable is made. *)
Lemma holds_number_with_new_var (st : State) (name w : string) (d : double) :
  holds_number st w d -> holds_number (with_new_var st name) w d.
Proof.
  intros (j & Hj & Ht & Hn). exists j.
  pose proof (find_var_bound _ _ _ Hj) as Hlt.
  unfold find_var, var_at, with_new_var in *. cbn [vars with_vars].
  rewrite find_index_app, Hj, app_nth1 by exact Hlt. auto.
Qed.

(** A line that is a statement is a line of the program. *)
Lemma statement_at_in_program (st : State) (idx : nat) (t : string) (rest : list string) :
  statement_at st idx (t :: rest) -> idx < line_count st.
Proof.
  intros [_ Htok]. unfold line_count.
  destruct (Nat.lt_ge_cases idx (List.length (lines st))) as [H|H]; [exact H|].
  rewrite nth_overflow in Htok by exact H. discriminate Htok.
Qed.

Lemma bind_ok {A B : Type} (m : M A) (k : A -> M B) (st st' : State) (a : A) :
  m st = Ok a st' -> bind m k st = k a st'.
Proof. unfold bind. intros ->. reflexivity. Qed.

(** [push <literal> onto stack] with room on the stack. *)
Lemma push_number (pow : double -> double -> double) (exec : nat -> nat -> M nat)
    (fuel : nat) (st : State) (idx : nat) (value : string) (rest : list string) :
  statement_at st idx ("push" :: value :: "onto" :: "stack" :: rest) ->
  stack_top st < MAX_STACK ->
  exec_line pow exec fuel idx st
  = Ok (idx + 1) (with_data_stack st (data_stack st ++ [resolve_num st value])).
Proof.
  intros Hst Hroom.
  rewrite (exec_line_tokens pow exec fuel st idx _ _ Hst eq_refl eq_refl). dispatch.
  unfold do_push, bind, get. apply Nat.ltb_lt in Hroom. rewrite Hroom. reflexivity.
Qed.

(** [pop from stack into <var>]: the variable gets the top of the stack, or
    0 when the stack is empty; the other variables keep what they hold. *)
Lemma pop_number (pow : double -> double -> double) (exec : nat -> nat -> M nat)
    (fuel : nat) (st : State) (idx : nat) (v : string) (rest : list string) :
  statement_at st idx ("pop" :: "from" :: "stack" :: "into" :: v :: rest) ->
  find_var st v <> None \/ List.length (vars st) < MAX_VARS ->
  exists st',
    exec_line pow exec fuel idx st = Ok (idx + 1) st' /\
    holds_number st' v (last (data_stack st) dzero) /\
    data_stack st' = removelast (data_stack st) /\
    lines st' = lines st /\
    List.length (vars st') <= List.length (vars st) + 1 /\
    (forall w d, w <> v -> holds_number st w d -> holds_number st' w d).
Proof.
  intros Hst Hroom.
  assert (Hv : String.length v <= MAX_NAME - 1).
  { apply (token_fits _ _ _ v Hst); cbn [In]; auto 10. }
  destruct (get_or_create_var_ok v st Hv Hroom) as (slot & st1 & Hget & Hfind & Hslot & Hcase).
  rewrite (exec_line_tokens pow exec fuel st idx _ _ Hst eq_refl eq_refl). dispatch.
  unfold do_pop. cbn [nth]. rewrite (bind_ok _ _ _ _ _ Hget). rewrite (bind_ok _ _ _ _ _ (eq_refl : get st1 = Ok st1 st1)).
  assert (Hframe : data_stack st1 = data_stack st /\ lines st1 = lines st /\
                   List.length (vars st1) <= List.length (vars st) + 1 /\
                   forall w d, holds_number st w d -> holds_number st1 w d).
  { destruct Hcase as [[_ ->]|[_ ->]].
    - repeat split; auto; lia.
    - repeat split; [unfold with_new_var; cbn [vars with_vars]; rewrite length_app;
                     cbn [List.length]; lia|].
      intros w d. apply holds_number_with_new_var. }
  destruct Hframe as (Hds & Hlines & Hlen & Hkeep).
  set (top := last (data_stack st) dzero).
  assert (Hrun : exists st2, (st2 = st1 \/ st2 = with_data_stack st1 (removelast (data_stack st1)))
                 /\ data_stack st2 = removelast (data_stack st)
                 /\ (if 0 <? stack_top st1
                     then bind (put (with_data_stack st1 (removelast (data_stack st1))))
                               (fun _ => set_var_num slot (last (data_stack st1) dzero))
                     else set_var_num slot dzero) st1
                    = set_var_num slot top st2).
  { unfold stack_top, top. rewrite Hds. destruct (data_stack st) as [|x ds] eqn:Eds.
    - exists st1. cbn [List.length Nat.ltb Nat.leb removelast]. auto.
    - exists (with_data_stack st1 (removelast (x :: ds))).
      cbn [List.length Nat.ltb Nat.leb]. unfold bind, put. auto. }
  destruct Hrun as (st2 & Hst2 & Hds2 & Hrun).
  assert (Hsame : vars st2 = vars st1 /\ lines st2 = lines st1).
  { destruct Hst2 as [->| ->]; split; reflexivity. }
  destruct Hsame as [Hvars Hlines2].
  assert (Hfind2 : forall w, find_var st2 w = find_var st1 w).
  { intros w. unfold find_var. rewrite Hvars. reflexivity. }
  assert (Hat2 : forall j, var_at st2 j = var_at st1 j).
  { intros j. unfold var_at. rewrite Hvars. reflexivity. }
  unfold set_var_num in Hrun.
  destruct (set_var slot (mkValue TYPE_NUM top (str (var_at st2 slot))) st2)
    as [[] st3| | |] eqn:Hset; try discriminate Hset.
  rewrite (bind_ok _ _ _ _ _ Hrun).
  exists st3. split; [reflexivity|].
  assert (Hslot2 : slot < List.length (vars st2)) by (rewrite Hvars; exact Hslot).
  split; [|split; [|split; [|split]]].
  - exists slot. rewrite (find_var_set_var _ _ _ _ v Hset), Hfind2, (var_at_set_var _ _ _ _ Hset Hslot2).
    auto.
  - unfold set_var in Hset. injection Hset as <-. exact Hds2.
  - unfold set_var in Hset. injection Hset as <-. cbn [lines with_vars]. congruence.
  - unfold set_var in Hset. injection Hset as <-. cbn [vars with_vars].
    assert (Hupd : forall (l : list Var) i x, List.length (update_nth i x l) = List.length l).
    { induction l as [|y l IH]; intros [|i] x; cbn [update_nth List.length]; auto. }
    rewrite Hupd, Hvars. exact Hlen.
  - intros w d Hne Hw. destruct (Hkeep w d Hw) as (j & Hj & Ht & Hn).
    exists j. rewrite (find_var_set_var _ _ _ _ w Hset), Hfind2.
    assert (Hji : j <> slot) by exact (find_var_distinct st1 w v j slot Hj Hfind Hne).
    rewrite (var_at_set_var_other _ _ _ _ _ Hset Hji), Hat2. auto.
Qed.

Lemma statement_at_same_lines (st st' : State) (idx : nat) (toks : list string) :
  lines st' = lines st -> statement_at st idx toks -> statement_at st' idx toks.
Proof. unfold statement_at. intros ->. auto. Qed.

(** One round of the loop of [execute]. *)
Lemma execute_step (pow : double -> double -> double) (fuel : nat) (idx end_excl : nat)
    (st st' : State) (next : nat) :
  idx < end_excl -> idx < line_count st ->
  exec_line pow (execute pow fuel) fuel idx st = Ok next st' ->
  execute pow (S fuel) idx end_excl st = execute pow fuel next end_excl st'.
Proof.
  intros He Hl Hrun. cbn [execute].
  apply Nat.ltb_lt in He, Hl. rewrite He, Hl. cbn [andb].
  unfold bind. rewrite Hrun. reflexivity.
Qed.

Lemma execute_done (pow : double -> double -> double) (fuel : nat) (idx : nat) (st : State) :
  execute pow (S fuel) idx idx st = Ok idx st.
Proof. cbn [execute]. rewrite Nat.ltb_irrefl. reflexivity. Qed.

(** C6: wherever the five statements stand in a program, if the stack is
    empty when the first is reached, running them leaves [a = 2], [b = 1]
    (last in, first out) and [c = 0], the third pop finding the stack
    empty.  (The variable table has room for three more variables.) *)
Theorem stack_is_lifo (pow : double -> double -> double) (fuel : nat) (st : State) (idx : nat) :
  data_stack st = [] ->
  statement_at st idx ["push"; "1"; "onto"; "stack"] ->
  statement_at st (idx + 1) ["push"; "2"; "onto"; "stack"] ->
  statement_at st (idx + 2) ["pop"; "from"; "stack"; "into"; "a"] ->
  statement_at st (idx + 3) ["pop"; "from"; "stack"; "into"; "b"] ->
  statement_at st (idx + 4) ["pop"; "from"; "stack"; "into"; "c"] ->
  List.length (vars st) + 3 <= MAX_VARS ->
  exists st',
    execute pow (6 + fuel) idx (idx + 5) st = Ok (idx + 5) st' /\
    holds_number st' "a" (of_Z 2) /\
    holds_number st' "b" (of_Z 1) /\
    holds_number st' "c" dzero /\
    data_stack st' = [].
Proof.
  intros Hempty H0 H1 H2 H3 H4 Hroom.
  (* push 1 *)
  pose proof (push_number pow (execute pow (5 + fuel)) (5 + fuel) st idx "1" [] H0) as P0.
  unfold stack_top in P0. rewrite Hempty in P0. specialize (P0 ltac:(cbn; unfold MAX_STACK; lia)).
  set (st1 := with_data_stack st ([] ++ [resolve_num st "1"])) in P0.
  (* push 2 *)
  pose proof (push_number pow (execute pow (4 + fuel)) (4 + fuel) st1 (idx + 1) "2" []
                (statement_at_same_lines st st1 _ _ eq_refl H1)) as P1.
  specialize (P1 ltac:(cbn; unfold MAX_STACK; lia)).
  set (st2 := with_data_stack st1 (data_stack st1 ++ [resolve_num st1 "2"])) in P1.
  (* pop a *)
  destruct (pop_number pow (execute pow (3 + fuel)) (3 + fuel) st2 (idx + 2) "a" []
              (statement_at_same_lines st st2 _ _ eq_refl H2))
    as (st3 & P2 & Ha3 & Hds3 & Hl3 & Hn3 & _).
  { right. cbn [vars st2 st1 with_data_stack]. unfold MAX_VARS in *. lia. }
  (* pop b *)
  destruct (pop_number pow (execute pow (2 + fuel)) (2 + fuel) st3 (idx + 3) "b" []
              (statement_at_same_lines st st3 _ _ Hl3 H3))
    as (st4 & P3 & Hb4 & Hds4 & Hl4 & Hn4 & Hk4).
  { right. cbn [vars st2 st1 with_data_stack] in Hn3. unfold MAX_VARS in *. lia. }
  (* pop c *)
  destruct (pop_number pow (execute pow (1 + fuel)) (1 + fuel) st4 (idx + 4) "c" []
              (statement_at_same_lines st st4 _ _ (eq_trans Hl4 Hl3) H4))
    as (st5 & P4 & Hc5 & Hds5 & Hl5 & Hn5 & Hk5).
  { right. cbn [vars st2 st1 with_data_stack] in Hn3. unfold MAX_VARS in *. lia. }
  exists st5.
  assert (L0 : idx < line_count st) by exact (statement_at_in_program _ _ _ _ H0).
  assert (L1 : idx + 1 < line_count st) by exact (statement_at_in_program _ _ _ _ H1).
  assert (L2 : idx + 2 < line_count st) by exact (statement_at_in_program _ _ _ _ H2).
  assert (L3 : idx + 3 < line_count st) by exact (statement_at_in_program _ _ _ _ H3).
  assert (L4 : idx + 4 < line_count st) by exact (statement_at_in_program _ _ _ _ H4).
  assert (C3 : line_count st3 = line_count st) by (unfold line_count; rewrite Hl3; reflexivity).
  assert (C4 : line_count st4 = line_count st)
    by (unfold line_count; rewrite Hl4, Hl3; reflexivity).
  split.
  - change (6 + fuel) with (S (5 + fuel)).
    rewrite (execute_step pow (5 + fuel) idx (idx + 5) st st1 (idx + 1) ltac:(lia) L0 P0).
    change (5 + fuel) with (S (4 + fuel)).
    rewrite (execute_step pow (4 + fuel) (idx + 1) (idx + 5) st1 st2 (idx + 1 + 1)
               ltac:(lia) L1 P1).
    change (4 + fuel) with (S (3 + fuel)). replace (idx + 1 + 1) with (idx + 2) by lia.
    rewrite (execute_step pow (3 + fuel) (idx + 2) (idx + 5) st2 st3 (idx + 2 + 1)
               ltac:(lia) L2 P2).
    change (3 + fuel) with (S (2 + fuel)). replace (idx + 2 + 1) with (idx + 3) by lia.
    rewrite (execute_step pow (2 + fuel) (idx + 3) (idx + 5) st3 st4 (idx + 3 + 1)
               ltac:(lia) ltac:(lia) P3).
    change (2 + fuel) with (S (1 + fuel)). replace (idx + 3 + 1) with (idx + 4) by lia.
    rewrite (execute_step pow (1 + fuel) (idx + 4) (idx + 5) st4 st5 (idx + 4 + 1)
               ltac:(lia) ltac:(lia) P4).
    change (1 + fuel) with (S fuel). replace (idx + 4 + 1) with (idx + 5) by lia.
    apply execute_done.
  - assert (Ha : last (data_stack st2) dzero = of_Z 2) by (vm_compute; reflexivity).
    assert (Hb : last (data_stack st3) dzero = of_Z 1)
      by (rewrite Hds3; vm_compute; reflexivity).
    assert (He4 : data_stack st4 = []) by (rewrite Hds4, Hds3; reflexivity).
    rewrite Ha in Ha3. rewrite Hb in Hb4. rewrite He4 in Hc5, Hds5.
    split; [|split; [|split]].
    + apply Hk5; [discriminate|]. apply Hk4; [discriminate|]. exact Ha3.
    + apply Hk5; [discriminate|]. exact Hb4.
    + exact Hc5.
    + exact Hds5.
Qed.

(** The theorem at the program that is these five statements, from the
    state [main] starts with. *)
Lemma stack_is_lifo_witness :
  exists st',
    execute pow_unused 6 0 5 (initial_state stack_program "") = Ok 5 st' /\
    holds_number st' "a" (of_Z 2) /\
    holds_number st' "b" (of_Z 1) /\
    holds_number st' "c" dzero /\
    data_stack st' = [].
Proof.
  apply (stack_is_lifo pow_unused 0 (initial_state stack_program "") 0).
  - reflexivity.
  - split; [vm_compute; lia | reflexivity].
  - split; [vm_compute; lia | reflexivity].
  - split; [vm_compute; lia | reflexivity].
  - split; [vm_compute; lia | reflexivity].
  - split; [vm_compute; lia | reflexivity].
  - vm_compute; lia.
Defined.

(** ** [print] and [say] *)

Lemma append_assoc (a b c : string) : (a ++ b) ++ c = a ++ (b ++ c).
Proof. induction a as [|x a IH]; cbn [append]; [reflexivity | rewrite IH; reflexivity]. Qed.

Lemma append_empty_r (a : string) : a ++ "" = a.
Proof. induction a as [|x a IH]; cbn [append]; [reflexivity | rewrite IH; reflexivity]. Qed.

Lemma spaced_join (texts : list string) :
  texts <> [] -> spaced texts = join_words texts ++ " ".
Proof.
  induction texts as [|s rest IH]; [congruence|]. intros _.
  destruct rest as [|s' rest].
  - cbn [spaced join_words]. rewrite append_empty_r. reflexivity.
  - cbn [spaced join_words] in *. rewrite IH by discriminate.
    rewrite !append_assoc. reflexivity.
Qed.

(** Writing to the output changes no display text. *)
Lemma display_texts_with_stdout (st : State) (out : string) (ts : list string) :
  display_texts (with_stdout st out) ts = display_texts st ts.
Proof.
  induction ts as [|t rest IH]; cbn [display_texts]; [reflexivity|].
  rewrite IH. reflexivity.
Qed.

Lemma print_loop_output (ts : list string) :
  forall (first : bool) (st : State) (texts : list string),
    display_texts st ts = Some texts ->
    print_loop ts first st
    = Ok tt (with_stdout st (stdout st ++ match texts with
                                          | [] => ""
                                          | _ => (if first then "" else " ") ++ join_words texts
                                          end)).
Proof.
  induction ts as [|t rest IH]; intros first st texts Htexts; cbn [display_texts] in Htexts.
  - injection Htexts as <-. cbn [print_loop]. unfold ret. rewrite append_empty_r.
    destruct st; reflexivity.
  - cbn [print_loop]. destruct (streq t "and"); [exact (IH first st texts Htexts)|].
    destruct (resolve_str st t) as [s|] eqn:Hs; [|discriminate].
    destruct (display_texts st rest) as [l|] eqn:Hl; [|discriminate].
    injection Htexts as <-.
    set (st1 := if first then st else with_stdout st (stdout st ++ " ")).
    assert (H1 : (if first then ret tt else printf " ") st = Ok tt st1)
      by (destruct first; reflexivity).
    rewrite (bind_ok _ _ _ _ _ H1).
    rewrite (bind_ok _ _ _ _ _ (eq_refl : get st1 = Ok st1 st1)).
    assert (Hs1 : resolve_str st1 t = Some s) by (destruct first; exact Hs).
    rewrite Hs1. cbn [defined].
    rewrite (bind_ok _ _ _ _ _ (eq_refl : ret s st1 = Ok s st1)).
    rewrite (bind_ok _ _ _ _ _ (eq_refl : printf s st1 = Ok tt (with_stdout st1 (stdout st1 ++ s)))).
    rewrite (IH false (with_stdout st1 (stdout st1 ++ s)) l)
      by (rewrite display_texts_with_stdout; destruct first;
          [|unfold st1; rewrite display_texts_with_stdout]; exact Hl).
    f_equal. destruct first, l as [|s' l]; subst st1; cbn [with_stdout stdout join_words];
      rewrite ?append_assoc, ?append_empty_r; reflexivity.
Qed.

Lemma say_loop_output (ts : list string) :
  forall (st : State) (texts : list string),
    display_texts st ts = Some texts ->
    say_loop ts st = Ok tt (with_stdout st (stdout st ++ spaced texts)).
Proof.
  induction ts as [|t rest IH]; intros st texts Htexts; cbn [display_texts] in Htexts.
  - injection Htexts as <-. cbn [say_loop spaced]. unfold ret. rewrite append_empty_r.
    destruct st; reflexivity.
  - cbn [say_loop]. destruct (streq t "and"); [exact (IH st texts Htexts)|].
    destruct (resolve_str st t) as [s|] eqn:Hs; [|discriminate].
    destruct (display_texts st rest) as [l|] eqn:Hl; [|discriminate].
    injection Htexts as <-.
    rewrite (bind_ok _ _ _ _ _ (eq_refl : get st = Ok st st)).
    rewrite Hs. cbn [defined].
    rewrite (bind_ok _ _ _ _ _ (eq_refl : ret s st = Ok s st)).
    rewrite (bind_ok _ _ _ _ _
               (eq_refl : printf (s ++ " ") st = Ok tt (with_stdout st (stdout st ++ s ++ " ")))).
    rewrite (IH (with_stdout st (stdout st ++ s ++ " ")) l)
      by (rewrite display_texts_with_stdout; exact Hl).
    f_equal. cbn [with_stdout stdout spaced]. rewrite !append_assoc. reflexivity.
Qed.

(** C7, and where the code departs from it.  A [print] line writes the
    display texts of its arguments, joined by single spaces, and a newline,
    as the claim says.  A [say] line with the same arguments writes the
    same, but with one more space before the newline. *)
Theorem say_adds_a_space (pow : double -> double -> double) (exec : nat -> nat -> M nat)
    (fuel : nat) (st : State) (i j : nat) (args texts : list string) :
  statement_at st i ("print" :: args) ->
  statement_at st j ("say" :: args) ->
  display_texts st args = Some texts ->
  texts <> [] ->
  exec_line pow exec fuel i st
  = Ok (i + 1) (with_stdout st (stdout st ++ join_words texts ++ newline)) /\
  exec_line pow exec fuel j st
  = Ok (j + 1) (with_stdout st (stdout st ++ join_words texts ++ " " ++ newline)).
Proof.
  intros Hi Hj Htexts Hne.
  rewrite (exec_line_tokens pow exec fuel st i _ _ Hi eq_refl eq_refl).
  rewrite (exec_line_tokens pow exec fuel st j _ _ Hj eq_refl eq_refl).
  split; dispatch.
  - unfold do_print. cbn [tl].
    rewrite (bind_ok _ _ _ _ _ (print_loop_output args true st texts Htexts)).
    unfold bind, printf, ret. cbn [with_stdout stdout]. f_equal.
    destruct texts; [congruence|]. rewrite append_assoc. reflexivity.
  - unfold do_say. cbn [tl].
    rewrite (bind_ok _ _ _ _ _ (say_loop_output args st texts Htexts)).
    unfold bind, printf, ret. cbn [with_stdout stdout]. f_equal.
    rewrite (spaced_join texts Hne), !append_assoc. reflexivity.
Qed.

(** The theorem at [print hello] and [say hello]: [hello] and a newline
    against [hello], a space and a newline. *)
Lemma say_adds_a_space_witness :
  exec_line pow_unused (execute pow_unused 0) 0 0 (initial_state ["print hello"; "say hello"] "")
  = Ok 1 (with_stdout (initial_state ["print hello"; "say hello"] "") ("hello" ++ newline)) /\
  exec_line pow_unused (execute pow_unused 0) 0 1 (initial_state ["print hello"; "say hello"] "")
  = Ok 2 (with_stdout (initial_state ["print hello"; "say hello"] "") ("hello " ++ newline)).
Proof.
  apply (say_adds_a_space pow_unused (execute pow_unused 0) 0
           (initial_state ["print hello"; "say hello"] "") 0 1 ["hello"] ["hello"]).
  - split; [vm_compute; lia | reflexivity].
  - split; [vm_compute; lia | reflexivity].
  - reflexivity.
  - discriminate.
Defined.

(** ** What a run keeps: the steps *)

Lemma extends_list_refl {A : Type} (l : list A) : extends_list l l.
Proof. exists []. rewrite app_nil_r. reflexivity. Qed.

Lemma extends_list_trans {A : Type} (l1 l2 l3 : list A) :
  extends_list l1 l2 -> extends_list l2 l3 -> extends_list l1 l3.
Proof. intros [a ->] [b ->]. exists (a ++ b)%list. rewrite app_assoc. reflexivity. Qed.

Lemma extends_text_refl (s : string) : extends_text s s.
Proof. exists "". rewrite append_empty_r. reflexivity. Qed.

Lemma extends_text_trans (s1 s2 s3 : string) :
  extends_text s1 s2 -> extends_text s2 s3 -> extends_text s1 s3.
Proof. intros [a ->] [b ->]. exists (a ++ b). rewrite append_assoc. reflexivity. Qed.

Lemma evolves_refl (st : State) : evolves st st.
Proof.
  constructor; auto using extends_list_refl, extends_text_refl.
  exists "". reflexivity.
Qed.

Lemma evolves_trans (st1 st2 st3 : State) :
  evolves st1 st2 -> evolves st2 st3 -> evolves st1 st3.
Proof.
  intros [v1 a1 f1 o1 e1 [t1 i1] b1] [v2 a2 f2 o2 e2 [t2 i2] b2].
  constructor; eauto using extends_list_trans, extends_text_trans.
  exists (t1 ++ t2). rewrite i1, i2, append_assoc. reflexivity.
Qed.

Create HintDb sound.

#[local] Hint Resolve evolves_refl extends_list_refl extends_text_refl : sound.

Lemma sound_ret {A : Type} (a : A) (st : State) : sound_at (ret a) st.
Proof. apply evolves_refl. Qed.

Lemma sound_fault {A : Type} (st : State) : sound_at (@fault A) st.
Proof. exact I. Qed.

Lemma sound_timeout {A : Type} (st : State) : sound_at (@timeout A) st.
Proof. exact I. Qed.

Lemma sound_exit {A : Type} (status : Z) (st : State) : sound_at (@exit A status) st.
Proof. apply evolves_refl. Qed.

Lemma sound_defined {A : Type} (o : option A) (st : State) : sound_at (defined o) st.
Proof. destruct o; [apply sound_ret | exact I]. Qed.

Lemma sound_bind {A B : Type} (m : M A) (k : A -> M B) (st : State) :
  sound_at m st ->
  (forall a st', m st = Ok a st' -> sound_at (k a) st') ->
  sound_at (bind m k) st.
Proof.
  unfold sound_at, bind. intros Hm Hk.
  destruct (m st) as [a st'| status st'| |]; auto.
  specialize (Hk a st' eq_refl).
  destruct (k a st') as [b st''| status st''| |]; eauto using evolves_trans.
Qed.

Lemma sound_bind_get {B : Type} (k : State -> M B) (st : State) :
  sound_at (k st) st -> sound_at (bind get k) st.
Proof. intros H. exact H. Qed.

Lemma sound_put (s st : State) : evolves st s -> sound_at (put s) st.
Proof. intros H. exact H. Qed.

(** A change of output only. *)
Lemma sound_printf (s : string) (st : State) : sound_at (printf s) st.
Proof.
  unfold sound_at, printf. constructor; cbn; auto with sound.
  - exists s. reflexivity.
  - exists "". reflexivity.
  - intros []. constructor; assumption.
Qed.

Lemma sound_eprintf (s : string) (st : State) : sound_at (eprintf s) st.
Proof.
  unfold sound_at, eprintf. constructor; cbn; auto with sound.
  - exists s. reflexivity.
  - exists "". reflexivity.
  - intros []. constructor; assumption.
Qed.

Lemma map_update_nth_name {A B : Type} (f : A -> B) (i : nat) (x d : A) (l : list A) :
  f x = f (nth i l d) -> map f (update_nth i x l) = map f l.
Proof.
  revert i; induction l as [|y l IH]; intros i; [destruct i; reflexivity|].
  destruct i as [|i]; cbn [update_nth nth map].
  - intros ->. reflexivity.
  - intros H. rewrite (IH i H). reflexivity.
Qed.

Lemma length_update_nth {A : Type} (i : nat) (x : A) (l : list A) :
  List.length (update_nth i x l) = List.length l.
Proof.
  revert i; induction l as [|y l IH]; intros [|i]; cbn [update_nth List.length]; auto.
Qed.

Lemma sound_set_var (i : nat) (v : Value) (st : State) : sound_at (set_var i v) st.
Proof.
  unfold sound_at, set_var. constructor; cbn; auto with sound.
  - rewrite (map_update_nth_name var_name i _ (mkVar "" zero_value)) by reflexivity.
    auto with sound.
  - exists "". reflexivity.
  - intros []. constructor; cbn; try assumption. rewrite length_update_nth. assumption.
Qed.

Lemma sound_set_var_num (i : nat) (d : double) (st : State) : sound_at (set_var_num i d) st.
Proof. apply sound_set_var. Qed.

Lemma sound_set_var_num_field (i : nat) (d : double) (st : State) :
  sound_at (set_var_num_field i d) st.
Proof. apply sound_set_var. Qed.

Lemma sound_set_var_type (i : nat) (t : VType) (st : State) :
  sound_at (set_var_type i t) st.
Proof. apply sound_set_var. Qed.

Lemma sound_get_or_create_var (name : string) (st : State) :
  sound_at (get_or_create_var name) st.
Proof.
  unfold sound_at, get_or_create_var.
  destruct (find_var st name); [apply evolves_refl|].
  destruct (List.length (vars st) <? MAX_VARS) eqn:Hroom.
  - apply Nat.ltb_lt in Hroom. constructor; cbn; auto with sound.
    + rewrite map_app. eexists. reflexivity.
    + exists "". reflexivity.
    + intros []. constructor; cbn; try assumption.
      rewrite length_app. cbn. lia.
  - cbn. constructor; cbn; auto with sound.
    + eexists. reflexivity.
    + exists "". reflexivity.
    + intros []. constructor; assumption.
Qed.

Lemma sound_get_or_create_array (name : string) (st : State) :
  sound_at (get_or_create_array name) st.
Proof.
  unfold sound_at, get_or_create_array.
  destruct (find_array st name); [apply evolves_refl|].
  destruct (List.length (arrays st) <? MAX_ARRAYS) eqn:Hroom.
  - apply Nat.ltb_lt in Hroom. constructor; cbn; auto with sound.
    + rewrite map_app. eexists. reflexivity.
    + exists "". reflexivity.
    + intros []. constructor; cbn; try assumption.
      * rewrite length_app. cbn. lia.
      * apply Forall_app. split; [assumption|]. constructor; [|constructor].
        unfold size. cbn. unfold MAX_ARRAY_SIZE. lia.
  - cbn. constructor; cbn; auto with sound.
    + eexists. reflexivity.
    + exists "". reflexivity.
    + intros []. constructor; assumption.
Qed.

Lemma Forall_update_nth {A : Type} (P : A -> Prop) (i : nat) (x : A) (l : list A) :
  Forall P l -> P x -> Forall P (update_nth i x l).
Proof.
  intros Hl Hx. revert i; induction Hl as [|y l Hy Hl IH]; intros [|i]; cbn [update_nth];
    constructor; auto.
Qed.

Lemma size_array_at (st : State) (a : nat) :
  bounded st -> size (array_at st a) <= MAX_ARRAY_SIZE.
Proof.
  intros [_ _ Hs _ _ _]. unfold array_at.
  destruct (Nat.lt_ge_cases a (List.length (arrays st))) as [H|H].
  - rewrite Forall_forall in Hs. apply Hs, nth_In, H.
  - rewrite nth_overflow by exact H. unfold size. cbn. lia.
Qed.

Lemma sound_set_array_data (a : nat) (d : list Value) (st : State) :
  (bounded st -> List.length d <= MAX_ARRAY_SIZE) ->
  sound_at (set_array_data a d) st.
Proof.
  intros Hd. unfold sound_at, set_array_data. constructor; cbn; auto with sound.
  - rewrite (map_update_nth_name array_name a _ (mkArray "" [])) by reflexivity.
    auto with sound.
  - exists "". reflexivity.
  - intros Hb. pose proof (Hd Hb) as Hlen. destruct Hb. constructor; cbn; try assumption.
    + rewrite length_update_nth. assumption.
    + apply Forall_update_nth; assumption.
Qed.

#[local] Hint Resolve sound_ret sound_fault sound_timeout sound_exit sound_defined
  sound_printf sound_eprintf sound_set_var sound_set_var_num sound_set_var_num_field
  sound_set_var_type
  sound_get_or_create_var sound_get_or_create_array : sound.

Lemma defined_state {A : Type} (o : option A) (st st' : State) (a : A) :
  defined o st = Ok a st' -> st' = st.
Proof. destruct o; cbn; [intros H; injection H as _ <-; reflexivity | discriminate]. Qed.

(** Takes a monadic term apart: binds, reads of the state and tests. *)
Ltac sound_steps :=
  repeat first
    [ progress auto with sound
    | match goal with
      | |- sound_at (bind get _) _ => apply sound_bind_get
      | |- sound_at (bind _ _) _ =>
          apply sound_bind;
          [| let H := fresh "Hrun" in
             intros ? ? H; try (apply defined_state in H; subst); try clear H]
      | |- sound_at (if ?c then _ else _) _ => destruct c eqn:?
      | |- sound_at (match ?o with _ => _ end) _ => destruct o eqn:?
      end ].

Section SoundStatements.

Variable pow : double -> double -> double.
Variable exec : nat -> nat -> M nat.
Variable fuel : nat.
Hypothesis sound_exec : forall a b st, sound_at (exec a b) st.

Variable toks : list string.
Variable idx : nat.

Lemma sound_do_set (st : State) : sound_at (do_set pow toks idx) st.
Proof. unfold do_set. sound_steps. Qed.

Lemma sound_do_arith (op : double -> double -> double) (a b r : string) (st : State) :
  sound_at (do_arith idx op a b r) st.
Proof. unfold do_arith. sound_steps. Qed.

Lemma sound_do_divide (st : State) : sound_at (do_divide toks idx) st.
Proof. unfold do_divide. sound_steps. Qed.

Lemma sound_do_step (op : double -> double -> double) (st : State) :
  sound_at (do_step toks idx op) st.
Proof. unfold do_step. sound_steps. Qed.

Lemma sound_print_loop (ts : list string) (first : bool) (st : State) :
  sound_at (print_loop ts first) st.
Proof.
  revert first st; induction ts as [|t rest IH]; intros first st; cbn [print_loop];
    sound_steps.
Qed.

Lemma sound_say_loop (ts : list string) (st : State) : sound_at (say_loop ts) st.
Proof.
  revert st; induction ts as [|t rest IH]; intros st; cbn [say_loop]; sound_steps.
Qed.

Lemma sound_do_print (st : State) : sound_at (do_print toks idx) st.
Proof. unfold do_print. sound_steps. apply sound_print_loop. Qed.

Lemma sound_do_say (st : State) : sound_at (do_say toks idx) st.
Proof. unfold do_say. sound_steps. apply sound_say_loop. Qed.


Lemma fgets_chars_split (k : nat) (s l rest : string) :
  fgets_chars k s = (l, rest) -> s = l ++ rest.
Proof.
  revert s l rest; induction k as [|k IH]; intros s l rest; cbn [fgets_chars].
  - intros H; injection H as <- <-. reflexivity.
  - destruct s as [|c r]; [intros H; injection H as <- <-; reflexivity|].
    destruct (Ascii.eqb c "010").
    + intros H; injection H as <- <-. reflexivity.
    + destruct (fgets_chars k r) as [l' rest'] eqn:E.
      intros H; injection H as <- <-. cbn [append]. f_equal. exact (IH _ _ _ E).
Qed.

Lemma sound_fgets (n : nat) (st : State) : sound_at (fgets n) st.
Proof.
  unfold sound_at, fgets. destruct (stdin st) as [|c r] eqn:Hin; [apply evolves_refl|].
  destruct (fgets_chars (n - 1) (String c r)) as [l rest] eqn:E.
  constructor; cbn; auto with sound.
  - exists l. rewrite Hin. exact (fgets_chars_split _ _ _ _ E).
  - intros []. constructor; assumption.
Qed.

#[local] Hint Resolve sound_fgets sound_exec : sound.

Lemma sound_do_ask (st : State) : sound_at (do_ask toks idx) st.
Proof. unfold do_ask. sound_steps. Qed.

Lemma sound_do_if (st : State) : sound_at (do_if exec toks idx) st.
Proof. unfold do_if. sound_steps. Qed.

Lemma sound_while_loop (n : nat) (cond : string) (body : M nat) :
  (forall st, sound_at body st) -> forall st, sound_at (while_loop n cond body) st.
Proof.
  intros Hbody. induction n as [|n IH]; intros st; cbn [while_loop]; sound_steps.
Qed.

Lemma sound_do_while (st : State) : sound_at (do_while exec fuel toks idx) st.
Proof. unfold do_while. sound_steps. apply sound_while_loop. auto with sound. Qed.

Lemma sound_repeat_loop (n : nat) (body : M nat) :
  (forall st, sound_at body st) -> forall st, sound_at (repeat_loop n body) st.
Proof.
  intros Hbody. induction n as [|n IH]; intros st; cbn [repeat_loop]; sound_steps.
Qed.

Lemma sound_do_repeat (st : State) : sound_at (do_repeat exec toks idx) st.
Proof. unfold do_repeat. sound_steps. apply sound_repeat_loop. auto with sound. Qed.

Lemma sound_for_loop (n : nat) (up : bool) (v : nat) (to step : double) (body : M nat) :
  (forall st, sound_at body st) ->
  forall d st, sound_at (for_loop n up v d to step body) st.
Proof.
  intros Hbody. induction n as [|n IH]; intros d st; cbn [for_loop]; sound_steps.
Qed.

Lemma sound_do_for (st : State) : sound_at (do_for exec fuel toks idx) st.
Proof. unfold do_for. sound_steps. apply sound_for_loop. auto with sound. Qed.

Lemma sound_register_func (end_def : nat) (st : State) :
  sound_at (register_func toks idx end_def) st.
Proof.
  unfold sound_at, register_func. destruct (func_count st <? MAX_FUNCS) eqn:Hroom; [|exact I].
  apply Nat.ltb_lt in Hroom. constructor; cbn; auto with sound.
  - eexists. reflexivity.
  - exists "". reflexivity.
  - intros []. constructor; cbn; try assumption.
    unfold func_count in *. cbn. rewrite length_app. cbn. lia.
Qed.

#[local] Hint Resolve sound_register_func : sound.

Lemma sound_do_define (st : State) : sound_at (do_define toks idx) st.
Proof. unfold do_define. sound_steps. Qed.

Lemma sound_bind_params (ps args : list string) (st : State) :
  sound_at (bind_params ps args) st.
Proof.
  revert args st; induction ps as [|p ps IH]; intros args st; cbn [bind_params];
    [sound_steps|].
  destruct args as [|a args]; sound_steps.
Qed.

#[local] Hint Resolve sound_bind_params : sound.

Lemma sound_do_call (st : State) : sound_at (do_call exec toks idx) st.
Proof. unfold do_call. sound_steps. Qed.

Lemma sound_do_return (st : State) : sound_at (do_return toks idx) st.
Proof. unfold do_return. sound_steps. Qed.

Lemma evolves_with_data_stack (st : State) (ds : list double) :
  (bounded st -> List.length ds <= MAX_STACK) -> evolves st (with_data_stack st ds).
Proof.
  intros Hds. constructor; cbn; auto with sound.
  - exists "". reflexivity.
  - intros Hb. pose proof (Hds Hb). destruct Hb. constructor; assumption.
Qed.

Lemma evolves_with_mem (st : State) (m : list double) :
  List.length m = List.length (mem st) -> evolves st (with_mem st m).
Proof.
  intros Hm. constructor; cbn; auto with sound.
  - exists "". reflexivity.
  - intros []. constructor; cbn; try assumption. congruence.
Qed.

Lemma sound_do_push (st : State) : sound_at (do_push toks idx) st.
Proof.
  unfold do_push. sound_steps. apply sound_put, evolves_with_data_stack.
  intros _. rewrite length_app. cbn. unfold stack_top in *.
  match goal with H : (_ <? _) = true |- _ => apply Nat.ltb_lt in H end. lia.
Qed.

Lemma length_removelast_le {A : Type} (l : list A) :
  List.length (removelast l) <= List.length l.
Proof.
  induction l as [|x l IH]; [cbn; lia|].
  destruct l as [|y l]; [cbn; lia|]. cbn [removelast List.length] in *. lia.
Qed.

Lemma sound_do_pop (st : State) : sound_at (do_pop toks idx) st.
Proof.
  unfold do_pop. sound_steps. apply sound_put, evolves_with_data_stack.
  intros [_ _ _ Hs _ _]. unfold stack_top in Hs.
  etransitivity; [apply length_removelast_le | exact Hs].
Qed.

Lemma sound_do_store (st : State) : sound_at (do_store toks idx) st.
Proof.
  unfold do_store. sound_steps. apply sound_put, evolves_with_mem, length_update_nth.
Qed.

Lemma sound_do_load (st : State) : sound_at (do_load toks idx) st.
Proof. unfold do_load. sound_steps. Qed.

Lemma sound_do_create (st : State) : sound_at (do_create toks idx) st.
Proof. unfold do_create. sound_steps. Qed.

Lemma sound_do_append (st : State) : sound_at (do_append toks idx) st.
Proof.
  unfold do_append. sound_steps. apply sound_set_array_data.
  intros _. rewrite length_app. cbn. unfold size in *.
  match goal with H : (_ <? _) = true |- _ => apply Nat.ltb_lt in H end. lia.
Qed.

Lemma sound_do_get (st : State) : sound_at (do_get toks idx) st.
Proof. unfold do_get, tok_unchecked. sound_steps. Qed.

Lemma length_store_element (d : list Value) (i : nat) (x : Value) :
  List.length (store_element d i x) = Nat.max (List.length d) (i + 1).
Proof.
  unfold store_element. destruct (i <? List.length d) eqn:H.
  - apply Nat.ltb_lt in H. rewrite length_update_nth. lia.
  - apply Nat.ltb_ge in H. rewrite !length_app, repeat_length. cbn. lia.
Qed.

Lemma sound_do_set_element (st : State) : sound_at (do_set_element toks idx) st.
Proof.
  unfold do_set_element, tok_unchecked. sound_steps. apply sound_set_array_data.
  intros Hb. rewrite length_store_element.
  pose proof (size_array_at _ a0 Hb) as Hsize. unfold size in Hsize.
  match goal with H : in_range _ _ = true |- _ =>
    unfold in_range in H; apply andb_prop in H; destruct H as [H1 H2];
    apply Z.leb_le in H1; apply Z.ltb_lt in H2 end.
  lia.
Qed.

Lemma sound_do_size (st : State) : sound_at (do_size toks idx) st.
Proof. unfold do_size, tok_unchecked. sound_steps. Qed.

Lemma sound_do_math (f : double -> double) (st : State) : sound_at (do_math toks idx f) st.
Proof. unfold do_math. sound_steps. Qed.

Lemma sound_do_length (st : State) : sound_at (do_length toks idx) st.
Proof. unfold do_length. sound_steps. Qed.

Lemma sound_do_convert_number (st : State) : sound_at (do_convert_number toks idx) st.
Proof. unfold do_convert_number. sound_steps. Qed.

Lemma sound_do_convert_string (st : State) : sound_at (do_convert_string toks idx) st.
Proof. unfold do_convert_string. sound_steps. Qed.

#[local] Hint Resolve sound_do_set sound_do_arith sound_do_divide sound_do_step sound_do_print
  sound_do_say sound_do_ask sound_do_if sound_do_while sound_do_repeat sound_do_for
  sound_do_define sound_do_call sound_do_return sound_do_push sound_do_pop sound_do_store
  sound_do_load sound_do_create sound_do_append sound_do_get sound_do_set_element
  sound_do_size sound_do_math sound_do_length sound_do_convert_number
  sound_do_convert_string : sound.

Lemma sound_exec_tokens (line : string) (st : State) :
  sound_at (exec_tokens pow exec fuel toks idx line) st.
Proof. unfold exec_tokens. sound_steps. Qed.

End SoundStatements.

Lemma sound_exec_line (pow : double -> double -> double) (exec : nat -> nat -> M nat)
    (fuel : nat) (idx : nat) :
  (forall a b st, sound_at (exec a b) st) ->
  forall st, sound_at (exec_line pow exec fuel idx) st.
Proof.
  intros Hexec st. unfold exec_line. sound_steps; apply sound_exec_tokens; exact Hexec.
Qed.

Lemma sound_execute (pow : double -> double -> double) (fuel : nat) :
  forall start end_excl st, sound_at (execute pow fuel start end_excl) st.
Proof.
  induction fuel as [|fuel IH]; intros start end_excl st; [exact I|].
  unfold sound_at. cbn [execute].
  destruct ((start <? end_excl) && (start <? line_count st)); [|apply evolves_refl].
  change (sound_at (bind (exec_line pow (execute pow fuel) fuel start)
                         (fun i => execute pow fuel i end_excl)) st).
  apply sound_bind; [apply sound_exec_line; exact IH | intros; apply IH].
Qed.

Lemma sound_collect_funcs_loop (n : nat) :
  forall i st, sound_at (collect_funcs_loop n i) st.
Proof.
  induction n as [|n IH]; intros i st; cbn [collect_funcs_loop]; sound_steps;
    apply sound_register_func.
Qed.

Lemma sound_main (pow : double -> double -> double) (fuel : nat) (st : State) :
  sound_at (main pow fuel) st.
Proof.
  unfold main, collect_funcs. sound_steps;
    first [apply sound_collect_funcs_loop | apply sound_execute].
Qed.

Lemma ends_in_sound {A : Type} (m : M A) (st st' : State) :
  sound_at m st -> ends_in (m st) st' -> evolves st st'.
Proof.
  unfold sound_at. intros Hs [[a H]|[status H]]; rewrite H in Hs; exact Hs.
Qed.

Lemma bounded_initial_state (program : list string) (input : string) :
  bounded (initial_state program input).
Proof.
  constructor; unfold initial_state, stack_top, func_count; cbn [vars arrays mem data_stack funcs];
    try (cbn [List.length]; unfold MAX_VARS, MAX_ARRAYS, MAX_STACK, MAX_FUNCS; lia).
  - constructor.
  - apply repeat_length.
Qed.

(** ** Invariants of a run *)

(** The function table is the one table the code fills without a test:
    with [MAX_FUNCS] entries in it, a [define] line that the executor meets
    writes past its end, and the run has no defined outcome. *)
Lemma define_on_full_function_table (pow : double -> double -> double)
    (exec : nat -> nat -> M nat) (fuel : nat) (st : State) (idx : nat) (name t : string)
    (rest : list string) :
  statement_at st idx ("define" :: name :: t :: rest) ->
  func_count st = MAX_FUNCS ->
  exec_line pow exec fuel idx st = Fault.
Proof.
  intros Hst Hfull.
  rewrite (exec_line_tokens pow exec fuel st idx _ _ Hst eq_refl eq_refl). dispatch.
  unfold do_define, bind, get, register_func. rewrite Hfull, Nat.ltb_irrefl. reflexivity.
Qed.

(** X1: the tables the code guards stay within their sizes.  In the state
    a run ends in, by returning or by [exit], there are at most [MAX_VARS]
    variables and [MAX_ARRAYS] arrays, no array holds more than
    [MAX_ARRAY_SIZE] elements, the stack holds at most [MAX_STACK] numbers
    and the memory has its [MAX_MEM] cells.  This is about runs with a
    defined outcome: a run in which a [define] line finds the function table
    full, which the code does not test, has none
    ([define_on_full_function_table]). *)
Theorem tables_stay_in_bounds (pow : double -> double -> double) (fuel : nat)
    (program : list string) (input : string) (st : State) :
  ends_in (run_program pow fuel program input) st ->
  List.length (vars st) <= MAX_VARS /\
  List.length (arrays st) <= MAX_ARRAYS /\
  Forall (fun a => size a <= MAX_ARRAY_SIZE) (arrays st) /\
  stack_top st <= MAX_STACK /\
  List.length (mem st) = MAX_MEM.
Proof.
  intros Hend.
  pose proof (ends_in_sound _ _ _ (sound_main pow fuel (initial_state program input)) Hend)
    as Hev.
  destruct (bounds_kept _ _ Hev (bounded_initial_state program input)). auto.
Qed.

Lemma find_index_map {A B : Type} (f : A -> B) (p : B -> bool) (l : list A) :
  find_index (fun x => p (f x)) l = find_index p (map f l).
Proof.
  induction l as [|x l IH]; cbn [find_index map]; [reflexivity|]. rewrite IH. reflexivity.
Qed.

Lemma find_index_app_some {A : Type} (p : A -> bool) (l more : list A) (i : nat) :
  find_index p l = Some i -> find_index p (l ++ more) = Some i.
Proof.
  revert i; induction l as [|x l IH]; intros i; cbn [find_index app]; [discriminate|].
  destruct (p x); [auto|].
  destruct (find_index p l) as [j|]; [|discriminate].
  rewrite (IH j eq_refl). auto.
Qed.

Lemma find_app_some_list {A : Type} (p : A -> bool) (l more : list A) (y : A) :
  find p l = Some y -> find p (l ++ more) = Some y.
Proof.
  induction l as [|z l IH]; cbn [find app]; [discriminate|]. destruct (p z); auto.
Qed.

Lemma evolves_find_var (st st' : State) (name : string) (i : nat) :
  evolves st st' -> find_var st name = Some i -> find_var st' name = Some i.
Proof.
  intros Hev. destruct (vars_kept _ _ Hev) as [more Hmore]. unfold find_var.
  rewrite (find_index_map var_name (fun n => streq n name) (vars st)).
  rewrite (find_index_map var_name (fun n => streq n name) (vars st')).
  rewrite Hmore. apply find_index_app_some.
Qed.

Lemma evolves_find_func (st st' : State) (g : string) (f : FuncDef) :
  evolves st st' -> find_func st g = Some f -> find_func st' g = Some f.
Proof.
  intros Hev. destruct (funcs_kept _ _ Hev) as [more Hmore]. unfold find_func.
  rewrite Hmore. apply find_app_some_list.
Qed.

(** The theorem at [tour_program]. *)
Lemma tables_stay_in_bounds_witness :
  exists st,
    run_program pow_unused 40 tour_program "" = Ok 0%Z st /\
    List.length (vars st) <= MAX_VARS /\
    List.length (arrays st) <= MAX_ARRAYS /\
    Forall (fun a => size a <= MAX_ARRAY_SIZE) (arrays st) /\
    stack_top st <= MAX_STACK /\
    List.length (mem st) = MAX_MEM.
Proof.
  assert (H : exists st, run_program pow_unused 40 tour_program "" = Ok 0%Z st)
    by (eexists; vm_compute; reflexivity).
  destruct H as [st H]. exists st. split; [exact H|].
  apply (tables_stay_in_bounds pow_unused 40 tour_program "" st).
  left. exists 0%Z. exact H.
Defined.

(** X2: a variable is never removed or renamed.  Whatever lines run, a name
    that was found in a slot is found in the same slot afterwards. *)
Theorem variables_keep_their_slots (pow : double -> double -> double) (fuel : nat)
    (start end_excl : nat) (st st' : State) (name : string) (slot : nat) :
  ends_in (execute pow fuel start end_excl st) st' ->
  find_var st name = Some slot ->
  find_var st' name = Some slot.
Proof.
  intros Hend. apply evolves_find_var.
  exact (ends_in_sound _ _ _ (sound_execute pow fuel start end_excl st) Hend).
Qed.

(** The theorem at a state with the variable [x], over three lines that
    make [y] and write to [x]. *)
Lemma variables_keep_their_slots_witness :
  exists st',
    execute pow_unused 5 0 3 one_variable_state = Ok 3 st' /\
    find_var st' "x" = Some 0.
Proof.
  assert (H : exists st', execute pow_unused 5 0 3 one_variable_state = Ok 3 st')
    by (eexists; vm_compute; reflexivity).
  destruct H as [st' H]. exists st'. split; [exact H|].
  apply (variables_keep_their_slots pow_unused 5 0 3 one_variable_state st' "x" 0).
  - left. exists 3. exact H.
  - reflexivity.
Defined.

(** X3: the first definition of a name is the one [call] runs, for good.
    Whatever lines run, later [define] lines of the same name among them, a
    name that [find_func] found leads to the same entry afterwards. *)
Theorem first_definition_wins (pow : double -> double -> double) (fuel : nat)
    (start end_excl : nat) (st st' : State) (name : string) (f : FuncDef) :
  ends_in (execute pow fuel start end_excl st) st' ->
  find_func st name = Some f ->
  find_func st' name = Some f.
Proof.
  intros Hend. apply evolves_find_func.
  exact (ends_in_sound _ _ _ (sound_execute pow fuel start end_excl st) Hend).
Qed.

(** The theorem at [tour_program], which defines [twice] a second time. *)
Lemma first_definition_wins_witness :
  exists st',
    execute pow_unused 40 0 14 tour_state = Ok 14 st' /\
    find_func st' "twice" = Some (mkFuncDef "twice" 1 2 ["n"]).
Proof.
  assert (H : exists st', execute pow_unused 40 0 14 tour_state = Ok 14 st')
    by (eexists; vm_compute; reflexivity).
  destruct H as [st' H]. exists st'. split; [exact H|].
  apply (first_definition_wins pow_unused 40 0 14 tour_state st' "twice").
  - left. exists 14. exact H.
  - reflexivity.
Defined.

(** X4: a run only adds to its output and only takes input from the front.
    The two output streams of the state a run ends in begin with what they
    held before, and the input left is an end of the input there was. *)
Theorem streams_move_forward (pow : double -> double -> double) (fuel : nat)
    (start end_excl : nat) (st st' : State) :
  ends_in (execute pow fuel start end_excl st) st' ->
  (exists more, stdout st' = stdout st ++ more) /\
  (exists more, stderr st' = stderr st ++ more) /\
  (exists taken, stdin st = taken ++ stdin st').
Proof.
  intros Hend.
  destruct (ends_in_sound _ _ _ (sound_execute pow fuel start end_excl st) Hend).
  auto.
Qed.

(** The theorem at the three lines above. *)
Lemma streams_move_forward_witness :
  exists st',
    execute pow_unused 5 0 3 one_variable_state = Ok 3 st' /\
    (exists more, stdout st' = stdout one_variable_state ++ more) /\
    (exists more, stderr st' = stderr one_variable_state ++ more) /\
    (exists taken, stdin one_variable_state = taken ++ stdin st').
Proof.
  assert (H : exists st', execute pow_unused 5 0 3 one_variable_state = Ok 3 st')
    by (eexists; vm_compute; reflexivity).
  destruct H as [st' H]. exists st'. split; [exact H|].
  apply (streams_move_forward pow_unused 5 0 3 one_variable_state st').
  left. exists 3. exact H.
Defined.

(** ** Assignment and arithmetic *)

Lemma resolve_same_vars (st st' : State) (t : string) :
  vars st' = vars st -> resolve st' t = resolve st t.
Proof. intros H. unfold resolve, find_var, var_at. rewrite H. reflexivity. Qed.

(** A new variable changes the value of no other token. *)
Lemma resolve_with_new_var_other (st : State) (name t : string) :
  find_var st name = None ->
  String.length name <= MAX_NAME - 1 ->
  t <> name ->
  resolve (with_new_var st name) t = resolve st t.
Proof.
  intros Hfresh Hlen Hne. unfold resolve.
  destruct (match t with String c _ => Ascii.eqb c dquote | EmptyString => false end);
    [reflexivity|].
  destruct (strtod t) as [d rest]. destruct rest as [|c r]; [reflexivity|].
  unfold find_var, with_new_var, var_at. cbn [vars with_vars].
  rewrite find_index_app.
  destruct (find_index (fun v => streq (var_name v) t) (vars st)) as [i|] eqn:Hi.
  - destruct (find_index_bound _ _ _ (mkVar "" zero_value) Hi) as [Hlt _].
    rewrite app_nth1 by exact Hlt. reflexivity.
  - cbn [var_name]. rewrite (truncate_short _ _ Hlen).
    unfold streq. destruct (String.eqb_spec name t); [congruence | reflexivity].
Qed.

(** What a name is read as: the value in its slot. *)
Lemma resolve_variable (st : State) (x : string) (slot : nat) :
  names_variable x -> find_var st x = Some slot -> resolve st x = var_at st slot.
Proof.
  intros [Hq Hn] Hfind. unfold resolve. rewrite Hq.
  destruct (strtod x) as [d rest]. cbn [snd] in Hn.
  destruct rest; [congruence|]. rewrite Hfind. reflexivity.
Qed.

Lemma resolve_num_of_value (st : State) (x : string) (slot : nat) :
  names_variable x -> find_var st x = Some slot ->
  resolve_num st x = match type (var_at st slot) with
                     | TYPE_STR => dzero
                     | TYPE_NUM => num (var_at st slot)
                     end.
Proof. intros Hx Hfind. unfold resolve_num. rewrite (resolve_variable st x slot Hx Hfind). reflexivity. Qed.

(** X5: after [set <x> to <v>], reading [x] gives the value [v] had before
    the statement.  ([x] is a name, and exists or is another word than
    [v]: a new variable is made before [v] is read.) *)
Theorem set_then_read (pow : double -> double -> double) (exec : nat -> nat -> M nat)
    (fuel : nat) (st : State) (idx : nat) (x v : string) :
  statement_at st idx ["set"; x; "to"; v] ->
  names_variable x ->
  find_var st x <> None \/ (v <> x /\ List.length (vars st) < MAX_VARS) ->
  exists st',
    exec_line pow exec fuel idx st = Ok (idx + 1) st' /\
    resolve st' x = resolve st v.
Proof.
  intros Hst Hx Hroom.
  assert (Hlen : String.length x <= MAX_NAME - 1).
  { apply (token_fits _ _ _ x Hst); cbn [In]; auto. }
  destruct (get_or_create_var_ok x st Hlen ltac:(destruct Hroom as [H|[_ H]]; [left|right]; exact H))
    as (slot & st1 & Hget & Hfind & Hslot & Hcase).
  rewrite (exec_line_tokens pow exec fuel st idx _ _ Hst eq_refl eq_refl). dispatch.
  unfold do_set. cbn [nth List.length Nat.ltb Nat.leb].
  rewrite (bind_ok _ _ _ _ _ Hget).
  rewrite (bind_ok _ _ _ _ _ (eq_refl : get st1 = Ok st1 st1)).
  rewrite (bind_ok _ _ _ _ _ (eq_refl : ret (resolve st1 v) st1 = Ok (resolve st1 v) st1)).
  destruct (set_var slot (resolve st1 v) st1) as [[] st2| | |] eqn:Hset; try discriminate Hset.
  rewrite (bind_ok _ _ _ _ _ Hset). exists st2. split; [reflexivity|].
  rewrite (resolve_variable st2 x slot Hx)
    by (rewrite (find_var_set_var _ _ _ _ x Hset); exact Hfind).
  rewrite (var_at_set_var _ _ _ _ Hset Hslot).
  destruct Hcase as [[_ ->]|[Hfresh ->]]; [reflexivity|].
  destruct Hroom as [H|[Hne _]]; [congruence|].
  apply resolve_with_new_var_other; assumption.
Qed.

(** The theorem at [set greeting to hello], with no variable yet. *)
Lemma set_then_read_witness :
  exists st',
    exec_line pow_unused (execute pow_unused 0) 0 0 (initial_state ["set greeting to hello"] "")
    = Ok 1 st' /\
    resolve st' "greeting" = resolve (initial_state ["set greeting to hello"] "") "hello".
Proof.
  apply (set_then_read pow_unused (execute pow_unused 0) 0
           (initial_state ["set greeting to hello"] "") 0 "greeting" "hello").
  - split; [vm_compute; lia | reflexivity].
  - split; [reflexivity | vm_compute; discriminate].
  - right. split; [discriminate | vm_compute; lia].
Defined.

(** An assignment to one variable changes the value of no other word. *)
Lemma resolve_set_var_other (slot : nat) (v : Value) (st st' : State) (x y : string) :
  set_var slot v st = Ok tt st' ->
  find_var st x = Some slot ->
  y <> x ->
  resolve st' y = resolve st y.
Proof.
  intros Hset Hx Hne. unfold resolve.
  destruct (match y with String c _ => Ascii.eqb c dquote | EmptyString => false end);
    [reflexivity|].
  destruct (strtod y) as [d rest]. destruct rest as [|c r]; [reflexivity|].
  rewrite (find_var_set_var _ _ _ _ y Hset).
  destruct (find_var st y) as [j|] eqn:Hy; [|reflexivity].
  apply (var_at_set_var_other _ _ _ _ _ Hset).
  exact (find_var_distinct st y x j slot Hy Hx Hne).
Qed.

(** A word that is no name stands for the same value in every state. *)
Lemma resolve_not_name (st st' : State) (t : string) :
  is_name t = false -> resolve st' t = resolve st t.
Proof.
  unfold is_name, resolve. intros H.
  destruct (match t with String c _ => Ascii.eqb c dquote | EmptyString => false end);
    [reflexivity|].
  destruct (strtod t) as [d rest]. cbn [snd negb andb] in H.
  destruct rest; [reflexivity | discriminate H].
Qed.

(** What an operand is read as once the result variable is made and tagged
    a number. *)
Lemma operand_read (st st1 st2 : State) (r t : string) (slot : nat) :
  String.length r <= MAX_NAME - 1 ->
  get_or_create_var r st = Ok slot st1 ->
  find_var st1 r = Some slot ->
  slot < List.length (vars st1) ->
  (find_var st r = Some slot /\ st1 = st) \/
  (find_var st r = None /\ st1 = with_new_var st r) ->
  set_var_type slot TYPE_NUM st1 = Ok tt st2 ->
  resolve_num st2 t = operand st r t.
Proof.
  intros Hlen Hget Hfind Hslot Hcase Htag. unfold set_var_type in Htag. unfold operand.
  destruct (is_name t) eqn:Hname; cbn [andb].
  2:{ unfold resolve_num. rewrite (resolve_not_name st st2 t Hname). reflexivity. }
  destruct (String.eqb_spec t r) as [->|Hne].
  - assert (Hx : names_variable r).
    { unfold is_name in Hname. apply andb_prop in Hname. destruct Hname as [Hq Hn].
      apply negb_true_iff in Hq, Hn. split; [exact Hq|]. intros E. rewrite E in Hn.
      discriminate Hn. }
    destruct Hx as [Hq Hn]. unfold resolve_num, resolve. rewrite Hq.
    destruct (strtod r) as [d rest]. cbn [snd] in Hn. destruct rest; [congruence|].
    rewrite (find_var_set_var _ _ _ _ r Htag), Hfind, (var_at_set_var _ _ _ _ Htag Hslot).
    cbn [type num].
    destruct Hcase as [[Hold ->]|[Hfresh ->]].
    + rewrite Hold. reflexivity.
    + rewrite Hfresh. unfold var_at, with_new_var. cbn [vars with_vars].
      unfold get_or_create_var in Hget. rewrite Hfresh in Hget.
      destruct (List.length (vars st) <? MAX_VARS); [|discriminate Hget].
      injection Hget as <-. rewrite nth_middle. reflexivity.
  - unfold resolve_num. rewrite (resolve_set_var_other slot _ st1 st2 r t Htag Hfind Hne).
    destruct Hcase as [[_ ->]|[Hfresh ->]]; [reflexivity|].
    rewrite (resolve_with_new_var_other st r t Hfresh Hlen Hne). reflexivity.
Qed.

(** The number a statement of arithmetic stores in its result variable. *)
Lemma arith_result (st : State) (idx : nat) (op : double -> double -> double)
    (a b r : string) :
  String.length r <= MAX_NAME - 1 ->
  can_hold st r ->
  exists st',
    do_arith idx op a b r st = Ok (idx + 1) st' /\
    holds_number st' r (op (operand st r a) (operand st r b)).
Proof.
  intros Hlen Hroom.
  destruct (get_or_create_var_ok r st Hlen Hroom) as (slot & st1 & Hget & Hfind & Hslot & Hcase).
  destruct (set_var_type slot TYPE_NUM st1) as [[] st2| | |] eqn:Htag; try discriminate Htag.
  pose proof (operand_read st st1 st2 r a slot Hlen Hget Hfind Hslot Hcase Htag) as Ha.
  pose proof (operand_read st st1 st2 r b slot Hlen Hget Hfind Hslot Hcase Htag) as Hb.
  unfold set_var_type in Htag.
  pose proof (find_var_set_var _ _ _ _ r Htag) as Hfind2. rewrite Hfind in Hfind2.
  pose proof (var_at_set_var _ _ _ _ Htag Hslot) as Hval2.
  unfold do_arith. rewrite (bind_ok _ _ _ _ _ Hget).
  rewrite (bind_ok _ _ _ _ _ (Htag : set_var_type slot TYPE_NUM st1 = Ok tt st2)).
  rewrite (bind_ok _ _ _ _ _ (eq_refl : get st2 = Ok st2 st2)).
  destruct (set_var_num_field slot (op (resolve_num st2 a) (resolve_num st2 b)) st2)
    as [[] st3| | |] eqn:Hset; try discriminate Hset.
  rewrite (bind_ok _ _ _ _ _ Hset). exists st3. split; [reflexivity|].
  unfold set_var_num_field in Hset.
  exists slot.
  rewrite (find_var_set_var _ _ _ _ r Hset),
    (var_at_set_var _ _ _ _ Hset (find_var_bound _ _ _ Hfind2)), Hval2, Ha, Hb.
  cbn [type num]. auto.
Qed.

(** X6: [add], [subtract] and [multiply] make the result variable a number
    before they read their operands, and store the sum, difference or
    product of what the operands are then read as: the number an operand
    stood for before the statement, except that the result variable named
    as an operand counts with the number stored in it, also when it held a
    text ([operand]); [subtract <a> from <b>] is [b - a]. *)
Theorem arithmetic_into_result (pow : double -> double -> double) (exec : nat -> nat -> M nat)
    (fuel : nat) (st : State) (idx : nat) (a b r : string) (d : double) :
  (statement_at st idx ["add"; a; "and"; b; "into"; r] /\
   d = dadd (operand st r a) (operand st r b)) \/
  (statement_at st idx ["subtract"; a; "from"; b; "into"; r] /\
   d = dsub (operand st r b) (operand st r a)) \/
  (statement_at st idx ["multiply"; a; "by"; b; "into"; r] /\
   d = dmul (operand st r a) (operand st r b)) ->
  can_hold st r ->
  exists st',
    exec_line pow exec fuel idx st = Ok (idx + 1) st' /\
    holds_number st' r d.
Proof.
  intros Hst Hroom.
  destruct Hst as [[Hst ->]|[[Hst ->]|[Hst ->]]];
    (assert (Hlen : String.length r <= MAX_NAME - 1)
       by (apply (token_fits _ _ _ r Hst); cbn [In]; auto 10));
    rewrite (exec_line_tokens pow exec fuel st idx _ _ Hst eq_refl eq_refl); dispatch;
    apply arith_result; assumption.
Qed.

(** The theorem at [add x and 1 into x], with [x] the text [hello] over a
    stored number 5: the result is 6. *)
Lemma arithmetic_into_result_witness :
  exists st',
    exec_line pow_unused (execute pow_unused 0) 0 0 (stale_number_state ["add x and 1 into x"])
    = Ok 1 st' /\
    holds_number st' "x" (of_Z 6).
Proof.
  apply (arithmetic_into_result pow_unused (execute pow_unused 0) 0
           (stale_number_state ["add x and 1 into x"]) 0 "x" "1" "x" (of_Z 6)).
  - left. split; [split; [vm_compute; lia | reflexivity] | vm_compute; reflexivity].
  - left. vm_compute. discriminate.
Defined.

(** ** Memory and stack *)

Lemma resolve_num_same_vars (st st' : State) (t : string) :
  vars st' = vars st -> resolve_num st' t = resolve_num st t.
Proof. intros H. unfold resolve_num. rewrite (resolve_same_vars st st' t H). reflexivity. Qed.

(** [load from address <a> into <x>]: [x] gets the cell when the address is
    one, and 0 otherwise; only the variables change. *)
Lemma load_number (pow : double -> double -> double) (exec : nat -> nat -> M nat)
    (fuel : nat) (st : State) (idx : nat) (a x : string) (z : Z) :
  statement_at st idx ["load"; "from"; "address"; a; "into"; x] ->
  to_int (resolve_num st a) = Some z ->
  can_hold st x ->
  exists st',
    exec_line pow exec fuel idx st = Ok (idx + 1) st' /\
    holds_number st' x (if in_range z MAX_MEM then nth (Z.to_nat z) (mem st) dzero else dzero) /\
    mem st' = mem st.
Proof.
  intros Hst Haddr Hroom.
  assert (Hlen : String.length x <= MAX_NAME - 1).
  { apply (token_fits _ _ _ x Hst); cbn [In]; auto 10. }
  destruct (get_or_create_var_ok x st Hlen Hroom) as (slot & st1 & Hget & Hfind & Hslot & Hcase).
  rewrite (exec_line_tokens pow exec fuel st idx _ _ Hst eq_refl eq_refl). dispatch.
  unfold do_load. cbn [nth].
  rewrite (bind_ok _ _ _ _ _ (eq_refl : get st = Ok st st)).
  rewrite Haddr. cbn [defined].
  rewrite (bind_ok _ _ _ _ _ (eq_refl : ret z st = Ok z st)).
  rewrite (bind_ok _ _ _ _ _ Hget).
  rewrite (bind_ok _ _ _ _ _ (eq_refl : get st1 = Ok st1 st1)).
  assert (Hmem : mem st1 = mem st) by (destruct Hcase as [[_ ->]|[_ ->]]; reflexivity).
  rewrite Hmem.
  set (d := if in_range z MAX_MEM then nth (Z.to_nat z) (mem st) dzero else dzero).
  destruct (set_var_num slot d st1) as [[] st2| | |] eqn:Hset; try discriminate Hset.
  rewrite (bind_ok _ _ _ _ _ Hset). exists st2. split; [reflexivity|].
  unfold set_var_num in Hset. split.
  - exists slot. rewrite (find_var_set_var _ _ _ _ x Hset), (var_at_set_var _ _ _ _ Hset Hslot).
    auto.
  - unfold set_var in Hset. injection Hset as <-. exact Hmem.
Qed.

(** X7: a number stored at an address is the number loaded from it.  After
    [store <v> at address <a>] and [load from address <a> into <x>], with
    [a] an address below [MAX_MEM], [x] holds the number [v] stood for. *)
Theorem store_then_load (pow : double -> double -> double) (exec : nat -> nat -> M nat)
    (fuel : nat) (st : State) (idx : nat) (v a x : string) (n : nat) :
  statement_at st idx ["store"; v; "at"; "address"; a] ->
  statement_at st (idx + 1) ["load"; "from"; "address"; a; "into"; x] ->
  to_int (resolve_num st a) = Some (Z.of_nat n) ->
  n < MAX_MEM ->
  List.length (mem st) = MAX_MEM ->
  can_hold st x ->
  exists st1 st2,
    exec_line pow exec fuel idx st = Ok (idx + 1) st1 /\
    exec_line pow exec fuel (idx + 1) st1 = Ok (idx + 1 + 1) st2 /\
    holds_number st2 x (resolve_num st v).
Proof.
  intros Hs1 Hs2 Haddr Hn Hmem Hroom.
  assert (Hin : in_range (Z.of_nat n) MAX_MEM = true).
  { unfold in_range. apply andb_true_intro. split; [apply Z.leb_le | apply Z.ltb_lt]; lia. }
  set (st1 := with_mem st (update_nth n (resolve_num st v) (mem st))).
  assert (Hrun1 : exec_line pow exec fuel idx st = Ok (idx + 1) st1).
  { rewrite (exec_line_tokens pow exec fuel st idx _ _ Hs1 eq_refl eq_refl). dispatch.
    unfold do_store. cbn [nth].
    rewrite (bind_ok _ _ _ _ _ (eq_refl : get st = Ok st st)).
    rewrite Haddr. cbn [defined].
    rewrite (bind_ok _ _ _ _ _ (eq_refl : ret (Z.of_nat n) st = Ok (Z.of_nat n) st)).
    rewrite Hin, Nat2Z.id. reflexivity. }
  destruct (load_number pow exec fuel st1 (idx + 1) a x (Z.of_nat n)
              (statement_at_same_lines st st1 _ _ eq_refl Hs2))
    as (st2 & Hrun2 & Hx & _).
  - rewrite (resolve_num_same_vars st st1 a eq_refl). exact Haddr.
  - exact Hroom.
  - exists st1, st2. split; [exact Hrun1|]. split; [exact Hrun2|].
    rewrite Hin, Nat2Z.id in Hx. unfold st1 in Hx. cbn [mem with_mem] in Hx.
    rewrite nth_update_nth in Hx by lia. exact Hx.
Qed.

(** The theorem at address 7. *)
Lemma store_then_load_witness :
  exists st1 st2,
    exec_line pow_unused (execute pow_unused 0) 0 0
      (initial_state ["store 2.5 at address 7"; "load from address 7 into x"] "") = Ok 1 st1 /\
    exec_line pow_unused (execute pow_unused 0) 0 1 st1 = Ok 2 st2 /\
    holds_number st2 "x" (atof "2.5").
Proof.
  apply (store_then_load pow_unused (execute pow_unused 0) 0
           (initial_state ["store 2.5 at address 7"; "load from address 7 into x"] "")
           0 "2.5" "7" "x" 7).
  - split; [vm_compute; lia | reflexivity].
  - split; [vm_compute; lia | reflexivity].
  - vm_compute. reflexivity.
  - unfold MAX_MEM. lia.
  - apply repeat_length.
  - right. vm_compute. lia.
Defined.

(** X8: an address that is an integer outside the memory is ignored:
    [store] at it changes nothing at all, and [load] from it gives 0. *)
Theorem address_out_of_range (pow : double -> double -> double) (exec : nat -> nat -> M nat)
    (fuel : nat) (st : State) (idx : nat) (v a x : string) (z : Z) :
  statement_at st idx ["store"; v; "at"; "address"; a] ->
  statement_at st (idx + 1) ["load"; "from"; "address"; a; "into"; x] ->
  to_int (resolve_num st a) = Some z ->
  (z < 0 \/ Z.of_nat MAX_MEM <= z)%Z ->
  can_hold st x ->
  exists st2,
    exec_line pow exec fuel idx st = Ok (idx + 1) st /\
    exec_line pow exec fuel (idx + 1) st = Ok (idx + 1 + 1) st2 /\
    holds_number st2 x dzero /\
    mem st2 = mem st.
Proof.
  intros Hs1 Hs2 Haddr Hz Hroom.
  assert (Hout : in_range z MAX_MEM = false).
  { unfold in_range. apply andb_false_iff. destruct Hz; [left; apply Z.leb_gt | right; apply Z.ltb_ge]; lia. }
  destruct (load_number pow exec fuel st (idx + 1) a x z Hs2 Haddr Hroom) as (st2 & Hrun2 & Hx & Hm).
  exists st2. rewrite Hout in Hx. split; [|auto].
  rewrite (exec_line_tokens pow exec fuel st idx _ _ Hs1 eq_refl eq_refl). dispatch.
  unfold do_store. cbn [nth].
  rewrite (bind_ok _ _ _ _ _ (eq_refl : get st = Ok st st)).
  rewrite Haddr. cbn [defined].
  rewrite (bind_ok _ _ _ _ _ (eq_refl : ret z st = Ok z st)).
  rewrite Hout. reflexivity.
Qed.

(** The theorem at address 1024, the first past the memory. *)
Lemma address_out_of_range_witness :
  exists st2,
    exec_line pow_unused (execute pow_unused 0) 0 0
      (initial_state ["store 9 at address 1024"; "load from address 1024 into x"] "")
    = Ok 1 (initial_state ["store 9 at address 1024"; "load from address 1024 into x"] "") /\
    exec_line pow_unused (execute pow_unused 0) 0 1
      (initial_state ["store 9 at address 1024"; "load from address 1024 into x"] "")
    = Ok 2 st2 /\
    holds_number st2 "x" dzero /\
    mem st2 = mem (initial_state ["store 9 at address 1024"; "load from address 1024 into x"] "").
Proof.
  apply (address_out_of_range pow_unused (execute pow_unused 0) 0
           (initial_state ["store 9 at address 1024"; "load from address 1024 into x"] "")
           0 "9" "1024" "x" 1024%Z).
  - split; [vm_compute; lia | reflexivity].
  - split; [vm_compute; lia | reflexivity].
  - vm_compute. reflexivity.
  - right. unfold MAX_MEM. lia.
  - right. vm_compute. lia.
Defined.

(** X9: what is pushed is what is popped.  After [push <v> onto stack] on a
    stack with room and [pop from stack into <x>], [x] holds the number [v]
    stood for and the stack is as it was. *)
Theorem push_then_pop (pow : double -> double -> double) (exec : nat -> nat -> M nat)
    (fuel : nat) (st : State) (idx : nat) (v x : string) :
  statement_at st idx ["push"; v; "onto"; "stack"] ->
  statement_at st (idx + 1) ["pop"; "from"; "stack"; "into"; x] ->
  stack_top st < MAX_STACK ->
  can_hold st x ->
  exists st1 st2,
    exec_line pow exec fuel idx st = Ok (idx + 1) st1 /\
    exec_line pow exec fuel (idx + 1) st1 = Ok (idx + 1 + 1) st2 /\
    holds_number st2 x (resolve_num st v) /\
    data_stack st2 = data_stack st.
Proof.
  intros Hs1 Hs2 Htop Hroom.
  pose proof (push_number pow exec fuel st idx v [] Hs1 Htop) as Hrun1.
  set (st1 := with_data_stack st (data_stack st ++ [resolve_num st v])) in Hrun1.
  destruct (pop_number pow exec fuel st1 (idx + 1) x []
              (statement_at_same_lines st st1 _ _ eq_refl Hs2) Hroom)
    as (st2 & Hrun2 & Hx & Hds & _).
  exists st1, st2. split; [exact Hrun1|]. split; [exact Hrun2|].
  unfold st1 in Hx, Hds. cbn [data_stack with_data_stack] in Hx, Hds.
  rewrite last_last in Hx. rewrite removelast_last in Hds. auto.
Qed.

(** The theorem at [push 4 onto stack] and [pop from stack into x]. *)
Lemma push_then_pop_witness :
  exists st1 st2,
    exec_line pow_unused (execute pow_unused 0) 0 0
      (initial_state ["push 4 onto stack"; "pop from stack into x"] "") = Ok 1 st1 /\
    exec_line pow_unused (execute pow_unused 0) 0 1 st1 = Ok 2 st2 /\
    holds_number st2 "x" (resolve_num (initial_state ["push 4 onto stack"; "pop from stack into x"] "") "4") /\
    data_stack st2 = [].
Proof.
  apply (push_then_pop pow_unused (execute pow_unused 0) 0
           (initial_state ["push 4 onto stack"; "pop from stack into x"] "") 0 "4" "x").
  - split; [vm_compute; lia | reflexivity].
  - split; [vm_compute; lia | reflexivity].
  - vm_compute. lia.
  - right. vm_compute. lia.
Defined.

(** X10: a push on a full stack is dropped: with [MAX_STACK] numbers on the
    stack, [push <v> onto stack] changes nothing and the run goes on. *)
Theorem push_on_full_stack (pow : double -> double -> double) (exec : nat -> nat -> M nat)
    (fuel : nat) (st : State) (idx : nat) (v : string) (rest : list string) :
  statement_at st idx ("push" :: v :: "onto" :: "stack" :: rest) ->
  stack_top st = MAX_STACK ->
  exec_line pow exec fuel idx st = Ok (idx + 1) st.
Proof.
  intros Hst Hfull.
  rewrite (exec_line_tokens pow exec fuel st idx _ _ Hst eq_refl eq_refl). dispatch.
  unfold do_push, bind, get. rewrite Hfull, Nat.ltb_irrefl. reflexivity.
Qed.

(** The theorem at a stack of [MAX_STACK] zeros. *)
Lemma push_on_full_stack_witness :
  exec_line pow_unused (execute pow_unused 0) 0 0 full_stack_state = Ok 1 full_stack_state.
Proof.
  apply (push_on_full_stack pow_unused (execute pow_unused 0) 0 full_stack_state 0 "1" []).
  - split; [vm_compute; lia | reflexivity].
  - apply repeat_length.
Defined.

(** ** Arrays *)

Lemma find_array_set_array_data (a : nat) (d : list Value) (st st' : State) (name : string) :
  set_array_data a d st = Ok tt st' -> find_array st' name = find_array st name.
Proof.
  unfold set_array_data. intros H; injection H as <-.
  unfold find_array. cbn [arrays with_arrays].
  apply find_index_update_nth with (d := mkArray "" []). reflexivity.
Qed.

Lemma find_array_bound (st : State) (name : string) (a : nat) :
  find_array st name = Some a -> a < List.length (arrays st).
Proof. intros H. exact (proj1 (find_index_bound _ _ _ (mkArray "" []) H)). Qed.

Lemma data_set_array_data (a : nat) (d : list Value) (st st' : State) :
  set_array_data a d st = Ok tt st' -> a < List.length (arrays st) ->
  data (array_at st' a) = d.
Proof.
  unfold set_array_data. intros H Ha; injection H as <-.
  unfold array_at at 1. cbn [arrays with_arrays]. rewrite nth_update_nth by exact Ha. reflexivity.
Qed.

Lemma array_at_same_arrays (st st' : State) (a : nat) :
  arrays st' = arrays st -> array_at st' a = array_at st a.
Proof. unfold array_at. intros ->. reflexivity. Qed.

(** What [get_or_create_var] leaves alone. *)
Lemma get_or_create_var_frame (name : string) (st st' : State) (slot : nat) :
  get_or_create_var name st = Ok slot st' ->
  arrays st' = arrays st /\ mem st' = mem st /\ data_stack st' = data_stack st /\
  lines st' = lines st /\ funcs st' = funcs st /\ stdout st' = stdout st /\
  stderr st' = stderr st /\ stdin st' = stdin st.
Proof.
  unfold get_or_create_var. destruct (find_var st name).
  - intros H; injection H as _ <-. repeat split.
  - destruct (List.length (vars st) <? MAX_VARS); [|discriminate].
    intros H; injection H as _ <-. repeat split.
Qed.

(** [get element <i> of array <name> into <x>], with [i] an integer. *)
Lemma get_element (pow : double -> double -> double) (exec : nat -> nat -> M nat)
    (fuel : nat) (st : State) (idx : nat) (i name x : string) (z : Z) :
  statement_at st idx ["get"; "element"; i; "of"; "array"; name; "into"; x] ->
  to_int (resolve_num st i) = Some z ->
  can_hold st x ->
  exists st' slot,
    exec_line pow exec fuel idx st = Ok (idx + 1) st' /\
    find_var st' x = Some slot /\
    arrays st' = arrays st /\
    match find_array st name with
    | Some a => if in_range z (size (array_at st a))
                then var_at st' slot = element st a (Z.to_nat z)
                else type (var_at st' slot) = TYPE_NUM /\ num (var_at st' slot) = dzero
    | None => type (var_at st' slot) = TYPE_NUM /\ num (var_at st' slot) = dzero
    end.
Proof.
  intros Hst Hi Hroom.
  assert (Hlen : String.length x <= MAX_NAME - 1).
  { apply (token_fits _ _ _ x Hst); cbn [In]; auto 10. }
  destruct (get_or_create_var_ok x st Hlen Hroom) as (slot & st1 & Hget & Hfind & Hslot & _).
  destruct (get_or_create_var_frame _ _ _ _ Hget) as (Harr & _).
  rewrite (exec_line_tokens pow exec fuel st idx _ _ Hst eq_refl eq_refl). dispatch.
  unfold do_get, tok_unchecked. cbn [nth nth_error].
  rewrite (bind_ok _ _ _ _ _ (eq_refl : get st = Ok st st)).
  rewrite Hi. cbn [defined].
  rewrite (bind_ok _ _ _ _ _ (eq_refl : ret z st = Ok z st)).
  rewrite (bind_ok _ _ _ _ _ (eq_refl : ret x st = Ok x st)).
  rewrite (bind_ok _ _ _ _ _ Hget).
  rewrite (bind_ok _ _ _ _ _ (eq_refl : get st1 = Ok st1 st1)).
  assert (Hnum : exists st2, set_var_num slot dzero st1 = Ok tt st2 /\
                             find_var st2 x = Some slot /\ arrays st2 = arrays st /\
                             type (var_at st2 slot) = TYPE_NUM /\ num (var_at st2 slot) = dzero).
  { destruct (set_var_num slot dzero st1) as [[] st2| | |] eqn:Hset; try discriminate Hset.
    exists st2. split; [reflexivity|]. unfold set_var_num in Hset.
    rewrite (find_var_set_var _ _ _ _ x Hset), (var_at_set_var _ _ _ _ Hset Hslot).
    unfold set_var in Hset. injection Hset as <-. auto. }
  destruct Hnum as (stn & Hsetn & Hfn & Han & Htn & Hnn).
  destruct (find_array st name) as [a|] eqn:Hfa.
  - rewrite (array_at_same_arrays st st1 a Harr).
    destruct (in_range z (size (array_at st a))) eqn:Hin.
    + destruct (set_var slot (nth (Z.to_nat z) (data (array_at st a)) zero_value) st1)
        as [[] st2| | |] eqn:Hset; try discriminate Hset.
      rewrite (bind_ok _ _ _ _ _ Hset). exists st2, slot. split; [reflexivity|].
      rewrite (find_var_set_var _ _ _ _ x Hset), (var_at_set_var _ _ _ _ Hset Hslot).
      unfold set_var in Hset. injection Hset as <-. auto.
    + rewrite (bind_ok _ _ _ _ _ Hsetn). exists stn, slot. auto.
  - rewrite (bind_ok _ _ _ _ _ Hsetn). exists stn, slot. auto.
Qed.

(** X11: an appended value is the last element.  After
    [append <v> to array <name>] on an array below capacity, the array has
    one element more, and [get element <i> ..] at the old size gives the
    value of [v], text or number. *)
Theorem append_then_get (pow : double -> double -> double) (exec : nat -> nat -> M nat)
    (fuel : nat) (st : State) (idx : nat) (v name i x : string) (a : nat) :
  statement_at st idx ["append"; v; "to"; "array"; name] ->
  statement_at st (idx + 1) ["get"; "element"; i; "of"; "array"; name; "into"; x] ->
  find_array st name = Some a ->
  size (array_at st a) < MAX_ARRAY_SIZE ->
  to_int (resolve_num st i) = Some (Z.of_nat (size (array_at st a))) ->
  can_hold st x ->
  exists st1 st2,
    exec_line pow exec fuel idx st = Ok (idx + 1) st1 /\
    exec_line pow exec fuel (idx + 1) st1 = Ok (idx + 1 + 1) st2 /\
    size (array_at st2 a) = size (array_at st a) + 1 /\
    holds_value st2 x (resolve st v).
Proof.
  intros Hs1 Hs2 Hfa Hsize Hi Hroom.
  pose proof (find_array_bound _ _ _ Hfa) as Ha.
  destruct (set_array_data a (data (array_at st a) ++ [resolve st v]) st)
    as [[] st1| | |] eqn:Hset; try discriminate Hset.
  assert (Hrun1 : exec_line pow exec fuel idx st = Ok (idx + 1) st1).
  { rewrite (exec_line_tokens pow exec fuel st idx _ _ Hs1 eq_refl eq_refl). dispatch.
    unfold do_append, get_or_create_array. cbn [nth].
    unfold bind at 1. rewrite Hfa.
    rewrite (bind_ok _ _ _ _ _ (eq_refl : get st = Ok st st)).
    apply Nat.ltb_lt in Hsize. rewrite Hsize.
    rewrite (bind_ok _ _ _ _ _ Hset). reflexivity. }
  pose proof (data_set_array_data _ _ _ _ Hset Ha) as Hdata.
  assert (Hvars : vars st1 = vars st /\ lines st1 = lines st).
  { unfold set_array_data in Hset. injection Hset as <-. split; reflexivity. }
  destruct Hvars as [Hvars Hlines].
  destruct (get_element pow exec fuel st1 (idx + 1) i name x (Z.of_nat (size (array_at st a)))
              (statement_at_same_lines st st1 _ _ Hlines Hs2))
    as (st2 & slot & Hrun2 & Hfx & Harr & Hval).
  - rewrite (resolve_num_same_vars st st1 i Hvars). exact Hi.
  - unfold can_hold, find_var. rewrite Hvars. exact Hroom.
  - rewrite (find_array_set_array_data _ _ _ _ name Hset), Hfa in Hval.
    assert (Hsz : size (array_at st1 a) = size (array_at st a) + 1).
    { unfold size at 1. rewrite Hdata, length_app. reflexivity. }
    assert (Hin : in_range (Z.of_nat (size (array_at st a))) (size (array_at st1 a)) = true).
    { unfold in_range. apply andb_true_intro. split; [apply Z.leb_le | apply Z.ltb_lt]; lia. }
    rewrite Hin in Hval. exists st1, st2. split; [exact Hrun1|]. split; [exact Hrun2|]. split.
    + rewrite (array_at_same_arrays st1 st2 a Harr). exact Hsz.
    + exists slot. split; [exact Hfx|]. rewrite Hval. unfold element.
      rewrite Hdata, Nat2Z.id. unfold size. apply nth_middle.
Qed.

(** The theorem at the array [a] of two elements. *)
Lemma append_then_get_witness :
  exists st1 st2,
    exec_line pow_unused (execute pow_unused 0) 0 0
      (small_array_state ["append hello to array a"; "get element 2 of array a into x"]) = Ok 1 st1 /\
    exec_line pow_unused (execute pow_unused 0) 0 1 st1 = Ok 2 st2 /\
    size (array_at st2 0) = 2 + 1 /\
    holds_value st2 "x" (mkValue TYPE_STR dzero "hello").
Proof.
  apply (append_then_get pow_unused (execute pow_unused 0) 0
           (small_array_state ["append hello to array a"; "get element 2 of array a into x"])
           0 "hello" "a" "2" "x" 0).
  - split; [vm_compute; lia | reflexivity].
  - split; [vm_compute; lia | reflexivity].
  - reflexivity.
  - vm_compute. lia.
  - vm_compute. reflexivity.
  - right. vm_compute. lia.
Defined.

(** X12: reading outside an array gives the number 0.  When the array does
    not exist, or the index is negative or not below its size,
    [get element <i> of array <name> into <x>] makes [x] the number 0, and
    no array is made or changed. *)
Theorem get_outside_array (pow : double -> double -> double) (exec : nat -> nat -> M nat)
    (fuel : nat) (st : State) (idx : nat) (i name x : string) (z : Z) :
  statement_at st idx ["get"; "element"; i; "of"; "array"; name; "into"; x] ->
  to_int (resolve_num st i) = Some z ->
  find_array st name = None \/
  (exists a, find_array st name = Some a /\
             (z < 0 \/ Z.of_nat (size (array_at st a)) <= z)%Z) ->
  can_hold st x ->
  exists st',
    exec_line pow exec fuel idx st = Ok (idx + 1) st' /\
    holds_number st' x dzero /\
    arrays st' = arrays st.
Proof.
  intros Hst Hi Hout Hroom.
  destruct (get_element pow exec fuel st idx i name x z Hst Hi Hroom)
    as (st' & slot & Hrun & Hfx & Harr & Hval).
  exists st'. split; [exact Hrun|]. split; [|exact Harr].
  exists slot. split; [exact Hfx|].
  destruct Hout as [Hnone|(a & Hfa & Hz)].
  - rewrite Hnone in Hval. exact Hval.
  - rewrite Hfa in Hval.
    assert (Hin : in_range z (size (array_at st a)) = false).
    { unfold in_range. apply andb_false_iff.
      destruct Hz; [left; apply Z.leb_gt | right; apply Z.ltb_ge]; lia. }
    rewrite Hin in Hval. exact Hval.
Qed.

(** The theorem at index 2 of an array of two elements. *)
Lemma get_outside_array_witness :
  exists st',
    exec_line pow_unused (execute pow_unused 0) 0 0
      (small_array_state ["get element 2 of array a into x"]) = Ok 1 st' /\
    holds_number st' "x" dzero /\
    arrays st' = arrays (small_array_state ["get element 2 of array a into x"]).
Proof.
  apply (get_outside_array pow_unused (execute pow_unused 0) 0
           (small_array_state ["get element 2 of array a into x"]) 0 "2" "a" "x" 2%Z).
  - split; [vm_compute; lia | reflexivity].
  - vm_compute. reflexivity.
  - right. exists 0. split; [reflexivity|]. right. vm_compute. discriminate.
  - right. vm_compute. lia.
Defined.

Lemma nth_store_element (d : list Value) (k j : nat) (x : Value) :
  nth j (store_element d k x) zero_value
  = if j =? k then x else nth j d zero_value.
Proof.
  unfold store_element. destruct (k <? List.length d) eqn:Hk.
  - apply Nat.ltb_lt in Hk. destruct (Nat.eqb_spec j k) as [->|Hne].
    + apply nth_update_nth. exact Hk.
    + apply nth_update_nth_other. exact Hne.
  - apply Nat.ltb_ge in Hk. destruct (Nat.eqb_spec j k) as [->|Hne].
    + rewrite app_assoc.
      replace k with (List.length (d ++ repeat zero_value (k - List.length d))) at 1
        by (rewrite length_app, repeat_length; lia).
      apply nth_middle.
    + destruct (Nat.lt_ge_cases j (List.length d)) as [Hj|Hj].
      * rewrite app_nth1 by exact Hj. reflexivity.
      * rewrite app_nth2 by exact Hj. rewrite (nth_overflow d) by exact Hj.
        destruct (Nat.lt_ge_cases (j - List.length d) (k - List.length d)) as [Hp|Hp].
        -- rewrite app_nth1 by (rewrite repeat_length; exact Hp). apply nth_repeat.
        -- rewrite app_nth2 by (rewrite repeat_length; exact Hp). rewrite repeat_length.
           destruct (j - List.length d - (k - List.length d)) as [|m] eqn:E; [lia|].
           cbn [nth]. destruct m; reflexivity.
Qed.

(** X13: writing an element moves nothing else.  After
    [set element <i> of array <name> to <v>] with [i] below
    [MAX_ARRAY_SIZE], element [i] is the value of [v], every other element
    is what it was, the size is the larger of the old size and [i + 1],
    and so the slots between the old size and [i] read as the number 0.
    (The index is not written as the word [to]: that line is read as a
    plain [set].) *)
Theorem set_element_extends (pow : double -> double -> double) (exec : nat -> nat -> M nat)
    (fuel : nat) (st : State) (idx : nat) (i name v : string) (a k : nat) :
  statement_at st idx ["set"; "element"; i; "of"; "array"; name; "to"; v] ->
  i <> "to" ->
  find_array st name = Some a ->
  to_int (resolve_num st i) = Some (Z.of_nat k) ->
  k < MAX_ARRAY_SIZE ->
  exists st',
    exec_line pow exec fuel idx st = Ok (idx + 1) st' /\
    size (array_at st' a) = Nat.max (size (array_at st a)) (k + 1) /\
    element st' a k = resolve st v /\
    (forall j, j <> k -> element st' a j = element st a j) /\
    (forall j, size (array_at st a) <= j < k -> element st' a j = zero_value).
Proof.
  intros Hst Hi Hfa Hk Hlt.
  pose proof (find_array_bound _ _ _ Hfa) as Ha.
  assert (Hnot : String.eqb i "to" = false).
  { destruct (String.eqb_spec i "to"); [contradiction | reflexivity]. }
  assert (Hin : in_range (Z.of_nat k) MAX_ARRAY_SIZE = true).
  { unfold in_range. apply andb_true_intro. split; [apply Z.leb_le | apply Z.ltb_lt]; lia. }
  destruct (set_array_data a (store_element (data (array_at st a)) k (resolve st v)) st)
    as [[] st1| | |] eqn:Hset; try discriminate Hset.
  pose proof (data_set_array_data _ _ _ _ Hset Ha) as Hdata.
  exists st1. split.
  - rewrite (exec_line_tokens pow exec fuel st idx _ _ Hst eq_refl eq_refl).
    dispatch. rewrite Hnot. dispatch.
    unfold do_set_element, tok_unchecked, get_or_create_array. cbn [nth nth_error].
    rewrite (bind_ok _ _ _ _ _ (eq_refl : get st = Ok st st)).
    rewrite Hk. cbn [defined].
    rewrite (bind_ok _ _ _ _ _ (eq_refl : ret (Z.of_nat k) st = Ok (Z.of_nat k) st)).
    unfold bind at 1. rewrite Hfa. rewrite Hin.
    unfold bind at 2. cbn [ret]. unfold bind at 2. cbn [get].
    rewrite Nat2Z.id. unfold bind. rewrite Hset. reflexivity.
  - unfold element, size. rewrite Hdata. split; [apply length_store_element|].
    split; [rewrite nth_store_element, Nat.eqb_refl; reflexivity|]. split.
    + intros j Hj. rewrite nth_store_element.
      destruct (Nat.eqb_spec j k); [contradiction | reflexivity].
    + intros j Hj. rewrite nth_store_element.
      destruct (Nat.eqb_spec j k); [lia|]. apply nth_overflow. lia.
Qed.

(** The theorem at element 5 of an array of two elements. *)
Lemma set_element_extends_witness :
  exists st',
    exec_line pow_unused (execute pow_unused 0) 0 0
      (small_array_state ["set element 5 of array a to 9"]) = Ok 1 st' /\
    size (array_at st' 0) = Nat.max (size (array_at (small_array_state ["set element 5 of array a to 9"]) 0)) (5 + 1) /\
    element st' 0 5 = resolve (small_array_state ["set element 5 of array a to 9"]) "9" /\
    (forall j, j <> 5 ->
               element st' 0 j = element (small_array_state ["set element 5 of array a to 9"]) 0 j) /\
    (forall j, size (array_at (small_array_state ["set element 5 of array a to 9"]) 0) <= j < 5 ->
               element st' 0 j = zero_value).
Proof.
  apply (set_element_extends pow_unused (execute pow_unused 0) 0
           (small_array_state ["set element 5 of array a to 9"]) 0 "5" "a" "9" 0 5).
  - split; [vm_compute; lia | reflexivity].
  - discriminate.
  - reflexivity.
  - vm_compute. reflexivity.
  - unfold MAX_ARRAY_SIZE. lia.
Defined.

(** ** Errors *)

Lemma get_or_create_var_full (name : string) (st : State) :
  find_var st name = None ->
  MAX_VARS <= List.length (vars st) ->
  get_or_create_var name st
  = Exit 1 (with_stderr st (stderr st ++ "Error: too many variables" ++ newline)).
Proof.
  intros Hnone Hfull. unfold get_or_create_var. rewrite Hnone.
  apply Nat.ltb_ge in Hfull. rewrite Hfull. reflexivity.
Qed.

Lemma bind_exit {A B : Type} (m : M A) (k : A -> M B) (st st' : State) (status : Z) :
  m st = Exit status st' -> bind m k st = Exit status st'.
Proof. unfold bind. intros ->. reflexivity. Qed.

(** X14: a full variable table is fatal.  With [MAX_VARS] variables in the
    table, a [set], [increment], [decrement] or [pop] statement whose
    variable does not exist ends the process with status 1; it writes
    [Error: too many variables] to the error stream and changes nothing
    else. *)
Theorem too_many_variables (pow : double -> double -> double) (exec : nat -> nat -> M nat)
    (fuel : nat) (st : State) (idx : nat) (x v : string) (rest : list string) :
  statement_at st idx ("set" :: x :: "to" :: v :: rest) \/
  statement_at st idx ("increment" :: x :: rest) \/
  statement_at st idx ("decrement" :: x :: rest) \/
  statement_at st idx ("pop" :: "from" :: "stack" :: "into" :: x :: rest) ->
  find_var st x = None ->
  MAX_VARS <= List.length (vars st) ->
  exec_line pow exec fuel idx st
  = Exit 1 (with_stderr st (stderr st ++ "Error: too many variables" ++ newline)).
Proof.
  intros Hst Hnone Hfull.
  pose proof (get_or_create_var_full x st Hnone Hfull) as Hexit.
  destruct Hst as [Hst|[Hst|[Hst|Hst]]];
    rewrite (exec_line_tokens pow exec fuel st idx _ _ Hst eq_refl eq_refl); dispatch.
  - unfold do_set. cbn [nth]. apply bind_exit. exact Hexit.
  - unfold do_step. cbn [nth]. apply bind_exit. exact Hexit.
  - unfold do_step. cbn [nth]. apply bind_exit. exact Hexit.
  - unfold do_pop. cbn [nth]. apply bind_exit. exact Hexit.
Qed.

(** The theorem at [increment fresh] with the table full. *)
Lemma too_many_variables_witness :
  exec_line pow_unused (execute pow_unused 0) 0 0 (full_vars_state ["increment fresh"])
  = Exit 1 (with_stderr (full_vars_state ["increment fresh"])
                        ("Error: too many variables" ++ newline)).
Proof.
  apply (too_many_variables pow_unused (execute pow_unused 0) 0
           (full_vars_state ["increment fresh"]) 0 "fresh" "" []).
  - right. left. split; [vm_compute; lia | reflexivity].
  - vm_compute. reflexivity.
  - vm_compute. lia.
Defined.

(** X15: a full array table is fatal.  With [MAX_ARRAYS] arrays in the
    table, [create array] or [append] on a name that is not in it ends the
    process with status 1; it writes [Error: too many arrays] to the error
    stream and changes nothing else. *)
Theorem too_many_arrays (pow : double -> double -> double) (exec : nat -> nat -> M nat)
    (fuel : nat) (st : State) (idx : nat) (name v : string) (rest : list string) :
  statement_at st idx ("create" :: "array" :: name :: rest) \/
  statement_at st idx ("append" :: v :: "to" :: "array" :: name :: rest) ->
  find_array st name = None ->
  MAX_ARRAYS <= List.length (arrays st) ->
  exec_line pow exec fuel idx st
  = Exit 1 (with_stderr st (stderr st ++ "Error: too many arrays" ++ newline)).
Proof.
  intros Hst Hnone Hfull.
  assert (Hexit : get_or_create_array name st
                  = Exit 1 (with_stderr st (stderr st ++ "Error: too many arrays" ++ newline))).
  { unfold get_or_create_array. rewrite Hnone. apply Nat.ltb_ge in Hfull. rewrite Hfull.
    reflexivity. }
  destruct Hst as [Hst|Hst];
    rewrite (exec_line_tokens pow exec fuel st idx _ _ Hst eq_refl eq_refl); dispatch.
  - unfold do_create. cbn [nth]. apply bind_exit. exact Hexit.
  - unfold do_append. cbn [nth]. apply bind_exit. exact Hexit.
Qed.

(** The theorem at [create array more] with the table full. *)
Lemma too_many_arrays_witness :
  exec_line pow_unused (execute pow_unused 0) 0 0 (full_arrays_state ["create array more"])
  = Exit 1 (with_stderr (full_arrays_state ["create array more"])
                        ("Error: too many arrays" ++ newline)).
Proof.
  apply (too_many_arrays pow_unused (execute pow_unused 0) 0
           (full_arrays_state ["create array more"]) 0 "more" "" []).
  - left. split; [vm_compute; lia | reflexivity].
  - vm_compute. reflexivity.
  - vm_compute. lia.
Defined.

(** X16: a call of a name that is not in the function table is reported and
    skipped: [Error: undefined function '<name>'] goes to the error stream,
    nothing else changes, and the run goes on with the next line. *)
Theorem call_of_undefined_function (pow : double -> double -> double)
    (exec : nat -> nat -> M nat) (fuel : nat) (st : State) (idx : nat) (name : string)
    (rest : list string) :
  statement_at st idx ("call" :: name :: rest) ->
  find_func st name = None ->
  exec_line pow exec fuel idx st
  = Ok (idx + 1)
       (with_stderr st (stderr st ++ "Error: undefined function '" ++ name ++ "'" ++ newline)).
Proof.
  intros Hst Hnone.
  rewrite (exec_line_tokens pow exec fuel st idx _ _ Hst eq_refl eq_refl). dispatch.
  unfold do_call. cbn [nth].
  rewrite (bind_ok _ _ _ _ _ (eq_refl : get st = Ok st st)).
  rewrite Hnone. reflexivity.
Qed.

(** The theorem at [call nobody with 1] in a program without definitions. *)
Lemma call_of_undefined_function_witness :
  exec_line pow_unused (execute pow_unused 0) 0 0 (initial_state ["call nobody with 1"] "")
  = Ok 1 (with_stderr (initial_state ["call nobody with 1"] "")
                      ("Error: undefined function 'nobody'" ++ newline)).
Proof.
  apply (call_of_undefined_function pow_unused (execute pow_unused 0) 0
           (initial_state ["call nobody with 1"] "") 0 "nobody" ["with"; "1"]).
  - split; [vm_compute; lia | reflexivity].
  - reflexivity.
Defined.

(** X17: a line whose first word begins no statement form (it is no
    keyword and does not begin with [end], [#] or [/]) gets a warning and
    nothing more: the error stream receives
    [Warning: unknown instruction on line <n>: '<line>'], with the line
    number counted from 1 and the line as trimmed, and the run goes on with
    the next line. *)
Theorem unknown_instruction (pow : double -> double -> double) (exec : nat -> nat -> M nat)
    (fuel : nat) (st : State) (idx : nat) (t : string) (rest : list string) :
  statement_at st idx (t :: rest) ->
  ~ In t keywords ->
  startswith t "end" = false ->
  startswith t "#" = false -> startswith t "/" = false ->
  exec_line pow exec fuel idx st
  = Ok (idx + 1)
       (with_stderr st (stderr st ++ "Warning: unknown instruction on line "
                          ++ string_of_nat (idx + 1) ++ ": '"
                          ++ trim (nth idx (lines st) "") ++ "'" ++ newline)).
Proof.
  intros Hst Hkey Hend Hhash Hslash.
  rewrite (exec_line_tokens pow exec fuel st idx _ _ Hst Hhash Hslash).
  unfold exec_tokens, streq. cbn [nth].
  repeat match goal with
         | |- context [String.eqb t ?k] =>
             rewrite (proj2 (String.eqb_neq t k))
               by (intros ->; apply Hkey; unfold keywords; cbn [In]; tauto)
         end.
  cbn [andb orb]. unfold startswith in Hend. unfold startswith. rewrite Hend.
  reflexivity.
Qed.

(** The theorem at the line [bogus line], the second of its program. *)
Lemma unknown_instruction_witness :
  exec_line pow_unused (execute pow_unused 0) 0 1 (initial_state ["print 1"; "  bogus line "] "")
  = Ok 2 (with_stderr (initial_state ["print 1"; "  bogus line "] "")
                      ("Warning: unknown instruction on line 2: 'bogus line'" ++ newline)).
Proof.
  apply (unknown_instruction pow_unused (execute pow_unused 0) 0
           (initial_state ["print 1"; "  bogus line "] "") 1 "bogus" ["line"]).
  - split; [vm_compute; lia | reflexivity].
  - unfold keywords. cbn [In]. intros H.
    repeat (destruct H as [H|H]; [discriminate H|]). exact H.
  - reflexivity.
  - reflexivity.
  - reflexivity.
Defined.

(** ** Blocks that do not run *)

Lemma index_of_absent (key : string) (ws : list string) :
  ~ In key ws -> index_of key ws 0 = None.
Proof.
  induction ws as [|w ws IH]; intros Hnot; cbn [index_of]; [reflexivity|].
  unfold streq. destruct (String.eqb_spec w key) as [->|Hne].
  - exfalso. apply Hnot. left. reflexivity.
  - rewrite IH; [reflexivity|]. intros H. apply Hnot. right. exact H.
Qed.

Lemma index_of_first (key : string) (ws rest : list string) :
  ~ In key ws -> index_of key (ws ++ key :: rest) 0 = Some (List.length ws).
Proof.
  induction ws as [|w ws IH]; intros Hnot; cbn [index_of app List.length].
  - unfold streq. rewrite String.eqb_refl. reflexivity.
  - unfold streq. destruct (String.eqb_spec w key) as [->|Hne].
    + exfalso. apply Hnot. left. reflexivity.
    + rewrite IH; [reflexivity|]. intros H. apply Hnot. right. exact H.
Qed.

(** X18: [repeat <n> times] with a count that is zero or negative (a word
    that is no number counts as zero) runs its block not once: the state is
    unchanged and the run goes on after the matching [end repeat]. *)
Theorem repeat_no_times (pow : double -> double -> double) (exec : nat -> nat -> M nat)
    (fuel : nat) (st : State) (idx : nat) (n : string) (rest : list string) (z : Z) :
  statement_at st idx ("repeat" :: n :: "times" :: rest) ->
  to_int (resolve_num st n) = Some z ->
  (z <= 0)%Z ->
  exec_line pow exec fuel idx st = Ok (find_end st idx "end repeat" + 1) st.
Proof.
  intros Hst Hz Hle.
  rewrite (exec_line_tokens pow exec fuel st idx _ _ Hst eq_refl eq_refl). dispatch.
  unfold do_repeat. cbn [nth].
  rewrite (bind_ok _ _ _ _ _ (eq_refl : get st = Ok st st)).
  rewrite Hz. unfold bind, defined, ret.
  replace (Z.to_nat z) with 0 by lia. reflexivity.
Qed.

(** The theorem at [repeat -2 times], whose block would print. *)
Lemma repeat_no_times_witness :
  exec_line pow_unused (execute pow_unused 0) 0 0
            (initial_state ["repeat -2 times"; "print 1"; "end repeat"; "print 2"] "")
  = Ok 3 (initial_state ["repeat -2 times"; "print 1"; "end repeat"; "print 2"] "").
Proof.
  apply (repeat_no_times pow_unused (execute pow_unused 0) 0
           (initial_state ["repeat -2 times"; "print 1"; "end repeat"; "print 2"] "")
           0 "-2" [] (-2)%Z).
  - split; [vm_compute; lia | reflexivity].
  - vm_compute. reflexivity.
  - lia.
Defined.

(** X19: a [while] whose condition is false when the statement is reached
    runs its block not once: the state is unchanged and the run goes on
    after the matching [end while].  The condition is the text of the tokens
    before the first [then]. *)
Theorem while_false_skips (pow : double -> double -> double) (exec : nat -> nat -> M nat)
    (fuel : nat) (st : State) (idx : nat) (ws rest : list string) :
  statement_at st idx ("while" :: ws ++ "then" :: rest) ->
  ~ In "then" ws ->
  eval_condition st (join_words ws) = Some false ->
  exec_line pow exec (S fuel) idx st = Ok (find_end st idx "end while" + 1) st.
Proof.
  intros Hst Hnot Hcond.
  rewrite (exec_line_tokens pow exec (S fuel) st idx _ _ Hst eq_refl eq_refl). dispatch.
  unfold do_while, condition_text. cbn [index_of tl].
  rewrite (index_of_first "then" ws rest Hnot). cbn [option_map].
  replace (S (List.length ws) - 1) with (List.length ws + 0) by lia.
  rewrite firstn_app_2. cbn [firstn]. rewrite app_nil_r.
  rewrite (bind_ok _ _ _ _ _ (eq_refl : get st = Ok st st)).
  cbn [while_loop]. unfold bind, get. rewrite Hcond. reflexivity.
Qed.

(** The theorem at [while 1 is greater than 2 then]. *)
Lemma while_false_skips_witness :
  exec_line pow_unused (execute pow_unused 0) 1 0
            (initial_state ["while 1 is greater than 2 then"; "print 1"; "end while"] "")
  = Ok 3 (initial_state ["while 1 is greater than 2 then"; "print 1"; "end while"] "").
Proof.
  apply (while_false_skips pow_unused (execute pow_unused 0) 0
           (initial_state ["while 1 is greater than 2 then"; "print 1"; "end while"] "")
           0 ["1"; "is"; "greater"; "than"; "2"] []).
  - split; [vm_compute; lia | reflexivity].
  - cbn [In]. intros H. repeat (destruct H as [H|H]; [discriminate H|]). exact H.
  - vm_compute. reflexivity.
Defined.

(** X20: an [if] or [while] line without the word [then] does nothing, and
    says nothing: the state is unchanged, the condition is not evaluated,
    and the run goes on with the next line, which is the first line of what
    was meant as the block. *)
Theorem condition_without_then (pow : double -> double -> double)
    (exec : nat -> nat -> M nat) (fuel : nat) (st : State) (idx : nat) (kw : string)
    (rest : list string) :
  statement_at st idx (kw :: rest) ->
  kw = "if" \/ kw = "while" ->
  ~ In "then" rest ->
  exec_line pow exec fuel idx st = Ok (idx + 1) st.
Proof.
  intros Hst Hkw Hnot.
  destruct Hkw as [-> | ->];
    rewrite (exec_line_tokens pow exec fuel st idx _ _ Hst eq_refl eq_refl); dispatch.
  - unfold do_if. cbn [index_of]. rewrite (index_of_absent "then" rest Hnot). reflexivity.
  - unfold do_while. cbn [index_of]. rewrite (index_of_absent "then" rest Hnot). reflexivity.
Qed.

(** The theorem at [if 1 is equal to 1], the word [then] left out. *)
Lemma condition_without_then_witness :
  exec_line pow_unused (execute pow_unused 0) 0 0
            (initial_state ["if 1 is equal to 1"; "print 1"; "end if"] "")
  = Ok 1 (initial_state ["if 1 is equal to 1"; "print 1"; "end if"] "").
Proof.
  apply (condition_without_then pow_unused (execute pow_unused 0) 0
           (initial_state ["if 1 is equal to 1"; "print 1"; "end if"] "")
           0 "if" ["1"; "is"; "equal"; "to"; "1"]).
  - split; [vm_compute; lia | reflexivity].
  - left. reflexivity.
  - cbn [In]. intros H. repeat (destruct H as [H|H]; [discriminate H|]). exact H.
Defined.

(** X21: [stop] and [exit] end the process with status 0 wherever the
    executor meets them: the lines after them in the range do not run, and
    the state is the one the statement was reached in. *)
Theorem stop_ends_the_run (pow : double -> double -> double) (fuel : nat) (st : State)
    (idx end_excl : nat) (kw : string) (rest : list string) :
  statement_at st idx (kw :: rest) ->
  kw = "stop" \/ kw = "exit" ->
  idx < end_excl ->
  execute pow (S fuel) idx end_excl st = Exit 0 st.
Proof.
  intros Hst Hkw Hlt.
  pose proof (statement_at_in_program st idx kw rest Hst) as Hin.
  cbn [execute]. apply Nat.ltb_lt in Hlt, Hin. rewrite Hlt, Hin. cbn [andb].
  apply bind_exit.
  destruct Hkw as [-> | ->];
    rewrite (exec_line_tokens pow _ fuel st idx _ _ Hst eq_refl eq_refl); dispatch;
    reflexivity.
Qed.

(** The theorem at [stop now], before a line that would print. *)
Lemma stop_ends_the_run_witness :
  execute pow_unused 1 0 2 (initial_state ["stop now"; "print 1"] "")
  = Exit 0 (initial_state ["stop now"; "print 1"] "").
Proof.
  apply (stop_ends_the_run pow_unused 0 (initial_state ["stop now"; "print 1"] "")
           0 2 "stop" ["now"]).
  - split; [vm_compute; lia | reflexivity].
  - left. reflexivity.
  - lia.
Defined.

(** ** Input *)

Lemma fgets_chars_line (line more : string) (k : nat) :
  one_line line = true ->
  String.length line < k ->
  fgets_chars k (line ++ newline ++ more) = (line ++ newline, more).
Proof.
  revert k. induction line as [|c r IH]; intros k Hone Hlen.
  - destruct k as [|k]; [cbn in Hlen; lia|]. reflexivity.
  - cbn [one_line] in Hone. apply andb_prop in Hone. destruct Hone as [Hc Hr].
    destruct k as [|k]; [cbn in Hlen; lia|].
    cbn [String.append fgets_chars]. apply negb_true_iff in Hc. rewrite Hc.
    rewrite (IH k Hr) by (cbn [String.length] in Hlen; lia). reflexivity.
Qed.

(** The answer [ask] works with: the line up to its first zero byte. *)
Lemma cut_newline_line (line : string) :
  one_line line = true -> cut_newline (c_string (line ++ newline)) = c_string line.
Proof.
  induction line as [|c r IH]; intros Hone; [reflexivity|].
  cbn [one_line] in Hone. apply andb_prop in Hone. destruct Hone as [Hc Hr].
  cbn [String.append c_string]. destruct (Ascii.eqb c "000"); [reflexivity|].
  cbn [cut_newline]. apply negb_true_iff in Hc. rewrite Hc.
  rewrite (IH Hr). reflexivity.
Qed.

Lemma c_string_length (s : string) : String.length (c_string s) <= String.length s.
Proof.
  induction s as [|c r IH]; cbn [c_string String.length]; [lia|].
  destruct (Ascii.eqb c "000"); cbn [String.length]; lia.
Qed.

Lemma fgets_line (st : State) (line more : string) :
  stdin st = line ++ newline ++ more ->
  one_line line = true ->
  String.length line < 255 ->
  fgets 256 st = Ok (Some (line ++ newline)) (with_stdin st more).
Proof.
  intros Hin Hone Hlen. unfold fgets. rewrite Hin.
  pose proof (fgets_chars_line line more 255 Hone Hlen) as Hread.
  destruct line as [|c r].
  - reflexivity.
  - change (String c r ++ newline ++ more) with (String c (r ++ newline ++ more)) in *.
    cbv iota. change (256 - 1) with 255. rewrite Hread. reflexivity.
Qed.

(** X22: [ask <prompt> into <x>] at the end of the input prints the prompt
    and a space and does nothing else: the variable is not made and not
    changed.  (The prompt is not the word [into] itself.) *)
Theorem ask_at_end_of_input (pow : double -> double -> double) (exec : nat -> nat -> M nat)
    (fuel : nat) (st : State) (idx : nat) (p x text : string) (rest : list string) :
  statement_at st idx ("ask" :: p :: "into" :: x :: rest) ->
  p <> "into" ->
  resolve_str st p = Some text ->
  stdin st = "" ->
  exec_line pow exec fuel idx st = Ok (idx + 1) (with_stdout st (stdout st ++ text ++ " ")).
Proof.
  intros Hst Hp Htext Hin.
  rewrite (exec_line_tokens pow exec fuel st idx _ _ Hst eq_refl eq_refl). dispatch.
  unfold do_ask. cbn [index_of]. unfold streq.
  rewrite (proj2 (String.eqb_neq p "into") Hp). cbn [String.eqb Ascii.eqb Bool.eqb option_map].
  cbn [Nat.ltb Nat.leb Nat.add List.length andb nth].
  rewrite (bind_ok _ _ _ _ _ (eq_refl : get st = Ok st st)).
  rewrite Htext. unfold bind, defined, ret, printf, fgets. cbn [stdin with_stdout].
  rewrite Hin. reflexivity.
Qed.

(** The theorem at [ask "Name?" into who] with no input left. *)
Lemma ask_at_end_of_input_witness :
  exec_line pow_unused (execute pow_unused 0) 0 0 (initial_state ["ask " ++ quoted "Name?" ++ " into who"] "")
  = Ok 1 (with_stdout (initial_state ["ask " ++ quoted "Name?" ++ " into who"] "") "Name? ").
Proof.
  apply (ask_at_end_of_input pow_unused (execute pow_unused 0) 0
           (initial_state ["ask " ++ quoted "Name?" ++ " into who"] "") 0 (quoted "Name?") "who" "Name?" []).
  - split; [vm_compute; lia | reflexivity].
  - discriminate.
  - reflexivity.
  - reflexivity.
Defined.

(** X23: [ask <prompt> into <x>] with a line of input left prints the
    prompt and a space, takes the line and its end-of-line character from
    the input, and stores the answer in [x]: the line without that
    character, and only up to its first zero byte if it has one
    ([c_string]).  The answer is stored as a number when [strtod] reads all
    of it and it is not empty, as a text otherwise (an empty answer is the
    empty text).  (The prompt is not the word [into] itself.) *)
Theorem ask_reads_a_line (pow : double -> double -> double) (exec : nat -> nat -> M nat)
    (fuel : nat) (st : State) (idx : nat) (p x text line more : string) (rest : list string) :
  statement_at st idx ("ask" :: p :: "into" :: x :: rest) ->
  p <> "into" ->
  resolve_str st p = Some text ->
  stdin st = line ++ newline ++ more ->
  one_line line = true ->
  String.length line < 255 ->
  can_hold st x ->
  exists st',
    exec_line pow exec fuel idx st = Ok (idx + 1) st' /\
    stdout st' = stdout st ++ text ++ " " /\
    stdin st' = more /\
    answer_stored st' x (c_string line).
Proof.
  intros Hst Hp Htext Hin Hone Hlen Hroom.
  assert (Hx : String.length x <= MAX_NAME - 1).
  { apply (token_fits _ _ _ x Hst); cbn [In]; auto 10. }
  set (st1 := with_stdin (with_stdout st (stdout st ++ text ++ " ")) more).
  destruct (get_or_create_var_ok x st1 Hx Hroom)
    as (slot & st2 & Hget & Hfind & Hslot & Hcase).
  assert (Hout : stdout st2 = stdout st ++ text ++ " " /\ stdin st2 = more).
  { destruct Hcase as [[_ ->]|[_ ->]]; split; reflexivity. }
  rewrite (exec_line_tokens pow exec fuel st idx _ _ Hst eq_refl eq_refl). dispatch.
  unfold do_ask. cbn [index_of]. unfold streq.
  rewrite (proj2 (String.eqb_neq p "into") Hp). cbn [String.eqb Ascii.eqb Bool.eqb option_map].
  cbn [Nat.ltb Nat.leb Nat.add List.length andb nth].
  rewrite (bind_ok _ _ _ _ _ (eq_refl : get st = Ok st st)).
  rewrite Htext.
  rewrite (bind_ok _ _ _ _ _ (eq_refl : defined (Some text) st = Ok text st)).
  rewrite (bind_ok _ _ _ _ _ (eq_refl : printf (text ++ " ") st
                                        = Ok tt (with_stdout st (stdout st ++ text ++ " ")))).
  rewrite (bind_ok _ _ _ _ _
             (fgets_line (with_stdout st (stdout st ++ text ++ " ")) line more Hin Hone Hlen)).
  rewrite (cut_newline_line line Hone).
  pose proof (c_string_length line) as Hshort.
  remember (c_string line) as answer eqn:Hanswer. clear Hanswer.
  fold st1. rewrite (bind_ok _ _ _ _ _ Hget).
  rewrite (bind_ok _ _ _ _ _ (eq_refl : get st2 = Ok st2 st2)).
  unfold answer_stored. destruct (strtod answer) as [d tail]. cbn [fst snd].
  assert (Hnum : forall st3, set_var_num slot d st2 = Ok tt st3 ->
                 stdout st3 = stdout st ++ text ++ " " /\ stdin st3 = more /\
                 holds_number st3 x d).
  { intros st3 Hset. unfold set_var_num in Hset. split; [|split].
    - unfold set_var in Hset. injection Hset as <-. exact (proj1 Hout).
    - unfold set_var in Hset. injection Hset as <-. exact (proj2 Hout).
    - exists slot. rewrite (find_var_set_var _ _ _ _ x Hset), (var_at_set_var _ _ _ _ Hset Hslot).
      auto. }
  assert (Htxt : forall st3,
             set_var slot (mkValue TYPE_STR (num (var_at st2 slot)) answer) st2 = Ok tt st3 ->
             stdout st3 = stdout st ++ text ++ " " /\ stdin st3 = more /\
             holds_text st3 x answer).
  { intros st3 Hset. split; [|split].
    - unfold set_var in Hset. injection Hset as <-. exact (proj1 Hout).
    - unfold set_var in Hset. injection Hset as <-. exact (proj2 Hout).
    - exists slot. rewrite (find_var_set_var _ _ _ _ x Hset), (var_at_set_var _ _ _ _ Hset Hslot).
      auto. }
  assert (Hfit : (String.length answer <=? 254) = true) by (apply Nat.leb_le; lia).
  destruct tail as [|c t]; [destruct answer as [|c' r]|]; try rewrite Hfit.
  - eexists. split; [reflexivity|]. apply Htxt. reflexivity.
  - eexists. split; [reflexivity|]. apply Hnum. reflexivity.
  - eexists. split; [reflexivity|]. apply Htxt. reflexivity.
Qed.

(** The theorem at [ask "Age?" into age] with an input line made of [42],
    a zero byte and [xyz], and one more line: the variable is the number
    42. *)
Lemma ask_reads_a_line_witness :
  exists st',
    exec_line pow_unused (execute pow_unused 0) 0 0
              (initial_state ["ask " ++ quoted "Age?" ++ " into age"]
                             (zero_byte_line ++ newline ++ "next" ++ newline))
    = Ok 1 st' /\
    stdout st' = "Age? " /\
    stdin st' = "next" ++ newline /\
    holds_number st' "age" (of_Z 42).
Proof.
  apply (ask_reads_a_line pow_unused (execute pow_unused 0) 0
           (initial_state ["ask " ++ quoted "Age?" ++ " into age"]
                          (zero_byte_line ++ newline ++ "next" ++ newline))
           0 (quoted "Age?") "age" "Age?" zero_byte_line ("next" ++ newline) []).
  - split; [vm_compute; lia | reflexivity].
  - discriminate.
  - reflexivity.
  - reflexivity.
  - reflexivity.
  - vm_compute. lia.
  - right. vm_compute. lia.
Defined.

(** ** Lines and tokens *)

Lemma skip_space_starts (s : string) (c : ascii) (r : string) :
  skip_space s = String c r -> isspace c = false.
Proof.
  induction s as [|x s IH]; cbn [skip_space]; [discriminate|].
  destruct (isspace x) eqn:Hx; [exact IH|].
  intros H; injection H as <- _. exact Hx.
Qed.

(** X24: the bounds of [tokenize].  A line gives at most as many tokens as
    the caller has room for, and every token is between 1 and
    [MAX_NAME - 1] characters long and begins with a character that is no
    white space. *)
Theorem tokenize_bounds (line : string) (room : nat) :
  List.length (tokenize line room) <= room /\
  Forall (fun t => starts_word t = true /\ String.length t <= MAX_NAME - 1)
         (tokenize line room).
Proof.
  revert line. induction room as [|k IH]; intros line; cbn [tokenize].
  - split; [cbn [List.length]; lia | constructor].
  - destruct (skip_space line) as [|c r] eqn:Hskip.
    + split; [cbn [List.length]; lia | constructor].
    + pose proof (skip_space_starts line c r Hskip) as Hc.
      assert (Hhead : forall w, starts_word (truncate (MAX_NAME - 1) (String c w)) = true).
      { intros w. change (MAX_NAME - 1) with 63. cbn [truncate starts_word].
        rewrite Hc. reflexivity. }
      destruct (Ascii.eqb c dquote).
      * destruct (scan_quoted r) as [w rest].
        destruct (IH rest) as [Hlen Hall].
        split; [cbn [List.length]; lia|].
        constructor; [split; [apply Hhead | apply truncate_length] | exact Hall].
      * cbn [scan_word]. rewrite Hc. destruct (scan_word r) as [w rest].
        destruct (IH rest) as [Hlen Hall].
        split; [cbn [List.length]; lia|].
        constructor; [split; [apply Hhead | apply truncate_length] | exact Hall].
Qed.

Lemma skip_space_split (s : string) :
  exists a, s = a ++ skip_space s /\ blank a = true.
Proof.
  induction s as [|c r [a [Ha Hb]]].
  - exists "". split; reflexivity.
  - cbn [skip_space]. destruct (isspace c) eqn:Hc.
    + exists (String c a). cbn [append blank]. rewrite Hc, Hb, <- Ha. split; reflexivity.
    + exists "". split; reflexivity.
Qed.

Lemma rtrim_split (s : string) :
  exists b, s = rtrim s ++ b /\ blank b = true.
Proof.
  induction s as [|c r [b [Hr Hb]]].
  - exists "". split; reflexivity.
  - cbn [rtrim]. destruct (rtrim r) as [|x y] eqn:Hrt.
    + cbn [append] in Hr. subst b. destruct (isspace c) eqn:Hc.
      * exists (String c r). cbn [append blank]. rewrite Hc, Hb. split; reflexivity.
      * exists r. split; [reflexivity | exact Hb].
    + exists b. cbn [append] in *. rewrite <- Hr. split; [reflexivity | exact Hb].
Qed.

Lemma rtrim_rtrim (s : string) : rtrim (rtrim s) = rtrim s.
Proof.
  induction s as [|c r IH]; [reflexivity|].
  cbn [rtrim]. destruct (rtrim r) as [|x y] eqn:Hrt.
  - destruct (isspace c) eqn:Hc; [reflexivity|]. cbn [rtrim]. rewrite Hc. reflexivity.
  - change (rtrim (String c (String x y)))
      with (match rtrim (String x y) with
            | EmptyString => if isspace c then EmptyString else String c EmptyString
            | r' => String c r'
            end).
    rewrite IH. reflexivity.
Qed.

Lemma skip_space_rtrim (s : string) :
  skip_space (rtrim (skip_space s)) = rtrim (skip_space s).
Proof.
  destruct (skip_space s) as [|c r] eqn:Hs; [reflexivity|].
  pose proof (skip_space_starts s c r Hs) as Hc.
  cbn [rtrim]. destruct (rtrim r); rewrite ?Hc; apply skip_space_head; exact Hc.
Qed.

(** X25: what [trim] cuts.  The line is its trimmed text between two runs
    of white space, and the trimmed text has no white space left to cut at
    either end; so trimming twice is trimming once. *)
Theorem trim_cuts_both_ends (s : string) :
  (exists a b, s = a ++ trim s ++ b /\ blank a = true /\ blank b = true) /\
  skip_space (trim s) = trim s /\
  rtrim (trim s) = trim s /\
  trim (trim s) = trim s.
Proof.
  unfold trim. split; [|split; [|split]].
  - destruct (skip_space_split s) as [a [Ha Hba]].
    destruct (rtrim_split (skip_space s)) as [b [Hb Hbb]].
    exists a, b. rewrite <- Hb, <- Ha. auto.
  - apply skip_space_rtrim.
  - apply rtrim_rtrim.
  - rewrite skip_space_rtrim. apply rtrim_rtrim.
Qed.

Lemma rtrim_ends_in_word (a : string) (c : ascii) :
  isspace c = false -> rtrim (a ++ String c "") = a ++ String c "".
Proof.
  intros Hc. induction a as [|x a IH].
  - cbn [append rtrim]. rewrite Hc. reflexivity.
  - cbn [append rtrim]. rewrite IH. destruct a; reflexivity.
Qed.

Lemma scan_quoted_closing (s rest : string) :
  no_quote s = true ->
  scan_quoted (s ++ String dquote rest) = (s ++ String dquote "", rest).
Proof.
  induction s as [|c r IH]; intros Hs; [reflexivity|].
  cbn [no_quote] in Hs. apply andb_prop in Hs. destruct Hs as [Hc Hr].
  apply negb_true_iff in Hc. cbn [append scan_quoted]. rewrite Hc, (IH Hr). reflexivity.
Qed.

Lemma length_append (s t : string) :
  String.length (s ++ t) = String.length s + String.length t.
Proof. induction s as [|c r IH]; cbn [append String.length]; [reflexivity | rewrite IH; reflexivity]. Qed.

(** A quoted text is read as the text between the quotes. *)
Lemma resolve_quoted (st : State) (s : string) :
  String.length s < 256 ->
  resolve st (quoted s) = mkValue TYPE_STR dzero s.
Proof.
  intros Hlen. unfold resolve, quoted.
  change (Ascii.eqb dquote dquote) with true. cbv iota.
  cbn [String.length]. rewrite length_append. cbn [String.length].
  replace (S (String.length s + 1)) with (String.length s + 2) by lia.
  assert (Hcopy : (if 2 <? String.length s + 2 then String.length s + 2 - 2 else 0)
                  = String.length s).
  { destruct (2 <? String.length s + 2) eqn:E; [lia|]. apply Nat.ltb_ge in E. lia. }
  rewrite Hcopy.
  assert (Hsmall : (256 <=? String.length s) = false) by (apply Nat.leb_gt; exact Hlen).
  rewrite Hsmall. cbn [substring]. rewrite substring_prefix. reflexivity.
Qed.

Lemma tokenize_quoted (s : string) (k : nat) :
  no_quote s = true ->
  String.length s + 2 <= 63 ->
  tokenize (String " " (quoted s)) (S k) = [quoted s].
Proof.
  intros Hs Hlen. cbn [tokenize].
  change (skip_space (String " " (quoted s))) with (String dquote (s ++ String dquote "")).
  cbv beta iota. rewrite (scan_quoted_closing s "" Hs).
  change (Ascii.eqb dquote dquote) with true. cbv beta iota.
  change (MAX_NAME - 1) with 63.
  rewrite truncate_short
    by (cbn [String.length]; rewrite length_append; cbn [String.length]; lia).
  destruct k; reflexivity.
Qed.

(** X26: a quoted text goes through the tokenizer, [resolve] and [print]
    unchanged: the line [print "<s>"] writes [s], with the white space in
    it, and a newline.  ([s] has no double quote, and the token with its
    quotes fits [MAX_NAME - 1] characters.) *)
Theorem print_quoted_text (pow : double -> double -> double) (exec : nat -> nat -> M nat)
    (fuel : nat) (st : State) (idx : nat) (s : string) :
  nth idx (lines st) "" = "print " ++ quoted s ->
  no_quote s = true ->
  String.length s + 2 <= MAX_NAME - 1 ->
  exec_line pow exec fuel idx st = Ok (idx + 1) (with_stdout st (stdout st ++ s ++ newline)).
Proof.
  intros Hline Hs Hlen. change (MAX_NAME - 1) with 63 in Hlen.
  assert (Hquoted : quoted s = String dquote s ++ String dquote "") by reflexivity.
  assert (Htrim : trim ("print " ++ quoted s) = "print " ++ quoted s).
  { unfold trim. change (skip_space ("print " ++ quoted s)) with ("print " ++ quoted s).
    change ("print " ++ quoted s) with (("print " ++ String dquote s) ++ String dquote "").
    apply rtrim_ends_in_word. reflexivity. }
  assert (Hst : statement_at st idx ["print"; quoted s]).
  { split.
    - rewrite Hline. unfold quoted. cbn [append String.length]. rewrite length_append.
      cbn [String.length]. unfold MAX_LINE. lia.
    - rewrite Hline, Htrim.
      change (tokenize ("print " ++ quoted s) 32)
        with ("print" :: tokenize (String " " (quoted s)) 31).
      f_equal. apply tokenize_quoted; assumption. }
  rewrite (exec_line_tokens pow exec fuel st idx _ _ Hst eq_refl eq_refl). dispatch.
  unfold do_print. cbn [tl].
  assert (Htext : display_texts st [quoted s] = Some [s]).
  { cbn [display_texts]. change (streq (quoted s) "and") with false. cbv iota.
    unfold resolve_str. rewrite (resolve_quoted st s) by lia. cbn [type str].
    unfold strncpy_local. change (256 - 1) with 255.
    assert (Hfit : (String.length s <? 255) = true) by (apply Nat.ltb_lt; lia).
    rewrite Hfit. reflexivity. }
  rewrite (bind_ok _ _ _ _ _ (print_loop_output [quoted s] true st [s] Htext)).
  cbn [join_words append].
  unfold bind, printf, ret. cbn [stdout with_stdout]. rewrite append_assoc.
  destruct st; reflexivity.
Qed.

(** The theorem at [print "a  b"], two spaces between the letters. *)
Lemma print_quoted_text_witness :
  exec_line pow_unused (execute pow_unused 0) 0 0
            (initial_state ["print " ++ quoted "a  b"] "")
  = Ok 1 (with_stdout (initial_state ["print " ++ quoted "a  b"] "") ("a  b" ++ newline)).
Proof.
  apply (print_quoted_text pow_unused (execute pow_unused 0) 0
           (initial_state ["print " ++ quoted "a  b"] "") 0 "a  b").
  - reflexivity.
  - reflexivity.
  - vm_compute. lia.
Defined.

(** ** Conditions *)

Lemma is_delim_isspace (c : ascii) : isspace c = false -> is_delim c = false.
Proof.
  intros Hc. unfold is_delim.
  destruct (Ascii.eqb_spec c " ") as [->|_]; [discriminate Hc|].
  destruct (Ascii.eqb_spec c "009") as [->|_]; [discriminate Hc|]. reflexivity.
Qed.

Lemma scan_to_delim_word (w rest : string) :
  no_space w = true ->
  scan_to_delim w = (w, "") /\ scan_to_delim (w ++ String " " rest) = (w, rest).
Proof.
  induction w as [|c r IH]; intros Hw; [split; reflexivity|].
  cbn [no_space] in Hw. apply andb_prop in Hw. destruct Hw as [Hc Hr].
  apply negb_true_iff in Hc. apply is_delim_isspace in Hc.
  destruct (IH Hr) as [H1 H2].
  cbn [append scan_to_delim]. rewrite Hc, H1, H2. split; reflexivity.
Qed.

Lemma split_words_join (ws : list string) :
  Forall (fun w => is_word w = true) ws ->
  forall room, List.length ws <= room -> split_words (join_words ws) room = ws.
Proof.
  induction ws as [|w rest IH]; intros Hall room Hroom.
  - destruct room; reflexivity.
  - inversion Hall as [|? ? Hw Hrest]; subst.
    destruct room as [|k]; [cbn [List.length] in Hroom; lia|].
    destruct w as [|c r]; [discriminate Hw|].
    cbn [is_word] in Hw.
    pose proof Hw as Hc. cbn [no_space] in Hc. apply andb_prop in Hc. destruct Hc as [Hc _].
    apply negb_true_iff in Hc. apply is_delim_isspace in Hc.
    destruct (scan_to_delim_word (String c r) (join_words rest) Hw) as [H1 H2].
    destruct rest as [|w2 rest].
    + cbn [join_words split_words skip_delims]. rewrite Hc, H1. destruct k; reflexivity.
    + change (join_words (String c r :: w2 :: rest))
        with (String c (r ++ String " " (join_words (w2 :: rest)))).
      cbn [split_words skip_delims]. rewrite Hc.
      change (String c (r ++ String " " (join_words (w2 :: rest))))
        with (String c r ++ String " " (join_words (w2 :: rest))).
      rewrite H2. f_equal. apply IH; [exact Hrest | cbn [List.length] in *; lia].
Qed.

Lemma rtrim_no_space (w : string) : no_space w = true -> rtrim w = w.
Proof.
  induction w as [|c r IH]; intros Hw; [reflexivity|].
  cbn [no_space] in Hw. apply andb_prop in Hw. destruct Hw as [Hc Hr].
  apply negb_true_iff in Hc. cbn [rtrim]. rewrite (IH Hr), Hc. destruct r; reflexivity.
Qed.

Lemma rtrim_before_word (x w : string) : is_word w = true -> rtrim (x ++ w) = x ++ w.
Proof.
  intros Hw. induction x as [|c x IH].
  - apply rtrim_no_space. destruct w; [discriminate Hw | exact Hw].
  - cbn [append rtrim]. rewrite IH.
    destruct (x ++ w) eqn:E; [|reflexivity].
    destruct x; [cbn [append] in E; subst w; discriminate Hw | discriminate E].
Qed.

Lemma join_words_last (w : string) (ws : list string) :
  exists x l, join_words (w :: ws) = x ++ l /\ In l (w :: ws).
Proof.
  revert w. induction ws as [|w2 ws IH]; intros w.
  - exists "", w. split; [reflexivity | left; reflexivity].
  - destruct (IH w2) as (x & l & Hj & Hin).
    exists (w ++ " " ++ x), l. split; [|right; exact Hin].
    change (join_words (w :: w2 :: ws)) with (w ++ " " ++ join_words (w2 :: ws)).
    rewrite Hj, !append_assoc. reflexivity.
Qed.

Lemma trim_join (ws : list string) :
  Forall (fun w => is_word w = true) ws -> trim (join_words ws) = join_words ws.
Proof.
  intros Hall. destruct ws as [|w ws]; [reflexivity|].
  unfold trim.
  assert (Hskip : skip_space (join_words (w :: ws)) = join_words (w :: ws)).
  { inversion Hall as [|? ? Hw _]; subst. destruct w as [|c r]; [discriminate Hw|].
    cbn [is_word no_space] in Hw. apply andb_prop in Hw. destruct Hw as [Hc _].
    apply negb_true_iff in Hc.
    destruct ws; cbn [join_words append]; apply skip_space_head; exact Hc. }
  rewrite Hskip.
  destruct (join_words_last w ws) as (x & l & Hj & Hin).
  rewrite Hj. apply rtrim_before_word.
  rewrite Forall_forall in Hall. exact (Hall l Hin).
Qed.

(** The words of a condition that is made of words. *)
Lemma condition_words (ws : list string) :
  Forall (fun w => is_word w = true) ws ->
  List.length ws <= 32 ->
  String.length (join_words ws) < MAX_LINE - 1 ->
  strncpy_local (join_words ws) MAX_LINE = Some (join_words ws) /\
  split_words (trim (join_words ws)) 32 = ws.
Proof.
  intros Hall Hcount Hlen. split.
  - unfold strncpy_local. apply Nat.ltb_lt in Hlen. rewrite Hlen. reflexivity.
  - rewrite (trim_join ws Hall). exact (split_words_join ws Hall 32 Hcount).
Qed.

Lemma comparison_words (a b : string) (ws : list string) :
  is_word a = true -> is_word b = true ->
  Forall (fun w => is_word w = true) ws ->
  Forall (fun w => is_word w = true) (a :: "is" :: ws ++ [b]).
Proof.
  intros Ha Hb Hws. constructor; [exact Ha|]. constructor; [reflexivity|].
  apply Forall_app. split; [exact Hws | constructor; [exact Hb | constructor]].
Qed.

(** X27: the comparisons of a condition.  [<a> is greater than <b>],
    [.. less than ..], [.. greater than or equal to ..] and
    [.. less than or equal to ..] compare the numbers the two words stand
    for (a text counts as 0), and with [not] after [is] the result is the
    opposite. *)
Theorem comparison_of_numbers (st : State) (a b : string) (words : list string)
    (rel : double -> double -> bool) :
  In (words, rel) comparisons ->
  is_word a = true -> is_word b = true ->
  a <> "is" ->
  String.length a <= MAX_NAME - 1 -> String.length b <= MAX_NAME - 1 ->
  eval_condition st (join_words (a :: "is" :: words ++ [b]))
  = Some (rel (resolve_num st a) (resolve_num st b)) /\
  eval_condition st (join_words (a :: "is" :: "not" :: words ++ [b]))
  = Some (negb (rel (resolve_num st a) (resolve_num st b))).
Proof.
  intros Hin Ha Hb Hne Hla Hlb. change (MAX_NAME - 1) with 63 in *.
  assert (Hfa : (String.length a <? MAX_NAME) = true) by (apply Nat.ltb_lt; unfold MAX_NAME; lia).
  assert (Hfb : (String.length b <? MAX_NAME) = true) by (apply Nat.ltb_lt; unfold MAX_NAME; lia).
  assert (His : String.eqb a "is" = false) by (apply String.eqb_neq; exact Hne).
  unfold comparisons in Hin. cbn [In] in Hin.
  assert (Heval : forall ws : list string,
             Forall (fun w => is_word w = true) ws ->
             List.length ws <= 32 ->
             String.length (join_words ws) < MAX_LINE - 1 ->
             eval_condition st (join_words ws)
             = let wc := List.length ws in
               if wc <? 3 then Some false
               else match index_of "is" ws 0 with
                    | None => Some false
                    | Some is_idx =>
                        match strcat_words (firstn is_idx ws) with
                        | None => None
                        | Some lhs =>
                            let neg := (is_idx + 1 <? wc) && streq (nth (is_idx + 1) ws "") "not" in
                            let op_start := if neg then is_idx + 2 else is_idx + 1 in
                            let '(op, rhs_start) := detect_operator ws op_start in
                            match strcat_words (skipn rhs_start ws) with
                            | None => None
                            | Some rhs =>
                                match compare_operands st op lhs rhs with
                                | Some result => Some (if neg then negb result else result)
                                | None => None
                                end
                            end
                        end
                    end).
  { intros ws Hall Hcount Hlen.
    destruct (condition_words ws Hall Hcount Hlen) as [Hcopy Hsplit].
    unfold eval_condition. rewrite Hcopy, Hsplit. reflexivity. }
  assert (Hwords : forall ws : list string,
             Forall (fun w => is_word w = true) ws ->
             Forall (fun w => is_word w = true) (a :: "is" :: ws ++ [b])).
  { intros ws Hws. exact (comparison_words a b ws Ha Hb Hws). }
  destruct Hin as [Hin|[Hin|[Hin|[Hin|[]]]]]; injection Hin as <- <-; split;
    (rewrite Heval;
     [ cbn [app List.length Nat.ltb Nat.leb index_of];
       unfold detect_operator; unfold streq; rewrite His;
       cbn [String.eqb Ascii.eqb Bool.eqb option_map firstn skipn nth Nat.add andb
            List.length Nat.ltb Nat.leb];
       unfold strcat_words; cbn [join_words]; rewrite Hfa, Hfb;
       unfold compare_operands, streq; cbn [String.eqb Ascii.eqb Bool.eqb];
       reflexivity
     | first [ apply Hwords | apply (Hwords ("not" :: _)) ];
       repeat (constructor; [reflexivity|]); constructor
     | cbn [app List.length]; lia
     | cbn [app join_words]; rewrite !length_append; cbn [String.length];
       unfold MAX_LINE; lia ]).
Qed.

(** The theorem at the words [x] and [3]: [x is less than 3] and
    [x is not less than 3]. *)
Lemma comparison_of_numbers_witness :
  (eval_condition one_variable_state "x is less than 3"
   = Some (dlt (resolve_num one_variable_state "x") (resolve_num one_variable_state "3"))) /\
  (eval_condition one_variable_state "x is not less than 3"
   = Some (negb (dlt (resolve_num one_variable_state "x") (resolve_num one_variable_state "3")))).
Proof.
  apply (comparison_of_numbers one_variable_state "x" "3" ["less"; "than"] (fun l r => dlt l r)).
  - right. left. reflexivity.
  - reflexivity.
  - reflexivity.
  - discriminate.
  - vm_compute. lia.
  - vm_compute. lia.
Defined.

(** ** Calls *)

(** X28: a call binds its argument to a global variable.  [call <f> with
    <a>], for a function whose first parameter is [p], gives the variable
    [p] the value [a] had, makes it if it does not exist, and changes the
    value of no other word, the further parameters of [f] included; then
    the body runs in that state, and the run goes on with the line after
    the call.  ([p] exists already, or the argument is another word than
    [p]: a new variable is made before the argument is read.) *)
Theorem call_binds_argument (pow : double -> double -> double) (exec : nat -> nat -> M nat)
    (fuel : nat) (st : State) (idx : nat) (name a p : string) (f : FuncDef)
    (more : list string) :
  statement_at st idx ["call"; name; "with"; a] ->
  find_func st name = Some f ->
  params f = p :: more ->
  String.length p <= MAX_NAME - 1 ->
  can_hold st p ->
  find_var st p <> None \/ a <> p ->
  exists st1,
    holds_value st1 p (resolve st a) /\
    (forall y, y <> p -> resolve st1 y = resolve st y) /\
    exec_line pow exec fuel idx st
    = (exec (start_line f) (end_line f) ;;; ret (idx + 1)) st1.
Proof.
  intros Hst Hf Hp Hlen Hroom Harg.
  destruct (get_or_create_var_ok p st Hlen Hroom) as (slot & st0 & Hget & Hfind & Hslot & Hcase).
  destruct (set_var slot (resolve st0 a) st0) as [[] st1| | |] eqn:Hset; try discriminate Hset.
  assert (Ha : resolve st0 a = resolve st a).
  { destruct Hcase as [[_ ->]|[Hfresh ->]]; [reflexivity|].
    destruct Harg as [H|H]; [congruence|].
    apply resolve_with_new_var_other; assumption. }
  exists st1. split; [|split].
  - exists slot. rewrite (find_var_set_var _ _ _ _ p Hset), (var_at_set_var _ _ _ _ Hset Hslot).
    split; [exact Hfind | exact Ha].
  - intros y Hy. rewrite (resolve_set_var_other slot _ st0 st1 p y Hset Hfind Hy).
    destruct Hcase as [[_ ->]|[Hfresh ->]]; [reflexivity|].
    apply resolve_with_new_var_other; assumption.
  - rewrite (exec_line_tokens pow exec fuel st idx _ _ Hst eq_refl eq_refl). dispatch.
    unfold do_call. cbn [nth List.length Nat.ltb Nat.leb andb streq String.eqb Ascii.eqb
                             Bool.eqb skipn].
    rewrite (bind_ok _ _ _ _ _ (eq_refl : get st = Ok st st)).
    rewrite Hf, Hp. cbn [bind_params].
    assert (Hbind : (pv <- get_or_create_var p ;;
                     s <- get ;;
                     set_var pv (resolve s a) ;;;
                     bind_params more []) st = Ok tt st1).
    { rewrite (bind_ok _ _ _ _ _ Hget).
      rewrite (bind_ok _ _ _ _ _ (eq_refl : get st0 = Ok st0 st0)).
      rewrite (bind_ok _ _ _ _ _ Hset). destruct more; reflexivity. }
    rewrite (bind_ok _ _ _ _ _ Hbind). reflexivity.
Qed.

(** The theorem at [call twice with 5] in a program that has [twice]. *)
Lemma call_binds_argument_witness :
  exists st1,
    holds_value st1 "n" (resolve tour_state "5") /\
    (forall y, y <> "n" -> resolve st1 y = resolve tour_state y) /\
    exec_line pow_unused (execute pow_unused 0) 0 12 tour_state
    = (execute pow_unused 0 1 2 ;;; ret (12 + 1)) st1.
Proof.
  apply (call_binds_argument pow_unused (execute pow_unused 0) 0 tour_state 12
           "twice" "5" "n" (mkFuncDef "twice" 1 2 ["n"]) []).
  - split; [vm_compute; lia | reflexivity].
  - reflexivity.
  - reflexivity.
  - vm_compute. lia.
  - right. vm_compute. lia.
  - right. discriminate.
Defined.

(** ** An empty range *)

(** X29: a [for] whose start is past its end runs its block not once.  With
    the step left out (it is 1) and [<a> <= <b>] false, the outcome does
    not depend on the block: the loop variable is made if it does not
    exist and becomes a number, keeping the number it had, and the run goes
    on after the matching [end for]. *)
Theorem for_empty_range (pow : double -> double -> double) (exec : nat -> nat -> M nat)
    (fuel : nat) (st : State) (idx : nat) (v a b : string) (rest : list string) :
  statement_at st idx ("for" :: v :: "from" :: a :: "to" :: b :: rest) ->
  List.length rest < 3 ->
  dle (resolve_num st a) (resolve_num st b) = false ->
  can_hold st v ->
  exists st',
    exec_line pow exec (S fuel) idx st = Ok (find_end st idx "end for" + 1) st' /\
    exec_line pow (fun _ _ => fault) (S fuel) idx st = Ok (find_end st idx "end for" + 1) st' /\
    holds_number st' v (match find_var st v with
                        | Some slot => num (var_at st slot)
                        | None => dzero
                        end).
Proof.
  intros Hst Hrest Hempty Hroom.
  assert (Hlen : String.length v <= MAX_NAME - 1).
  { apply (token_fits _ _ _ v Hst); cbn [In]; auto 10. }
  destruct (get_or_create_var_ok v st Hlen Hroom) as (slot & st0 & Hget & Hfind & Hslot & Hcase).
  destruct (set_var slot (mkValue TYPE_NUM (num (var_at st0 slot)) (str (var_at st0 slot))) st0)
    as [[] st1| | |] eqn:Hset; try discriminate Hset.
  assert (Hstep : (9 <=? S (S (S (S (S (S (List.length rest))))))) = false)
    by (apply Nat.leb_gt; lia).
  assert (Hup : dlt dzero (of_Z 1) = true) by (vm_compute; reflexivity).
  assert (Hrun : forall body : nat -> nat -> M nat,
             exec_line pow body (S fuel) idx st = Ok (find_end st idx "end for" + 1) st1).
  { intros body.
    rewrite (exec_line_tokens pow body (S fuel) st idx _ _ Hst eq_refl eq_refl). dispatch.
    unfold do_for. cbn [nth List.length]. rewrite Hstep. cbn [andb].
    rewrite (bind_ok _ _ _ _ _ (eq_refl : get st = Ok st st)).
    rewrite (bind_ok _ _ _ _ _ Hget).
    rewrite (bind_ok _ _ _ _ _ (eq_refl : get st0 = Ok st0 st0)).
    rewrite (bind_ok _ _ _ _ _ Hset).
    cbn [for_loop]. rewrite Hup, Hempty. reflexivity. }
  exists st1. split; [apply Hrun | split; [apply Hrun|]].
  exists slot. rewrite (find_var_set_var _ _ _ _ v Hset), (var_at_set_var _ _ _ _ Hset Hslot).
  cbn [type num]. split; [exact Hfind|]. split; [reflexivity|].
  destruct Hcase as [[Hold ->]|[Hfresh ->]].
  - rewrite Hold. reflexivity.
  - rewrite Hfresh. unfold var_at, with_new_var. cbn [vars with_vars].
    unfold get_or_create_var in Hget. rewrite Hfresh in Hget.
    destruct (List.length (vars st) <? MAX_VARS); [|discriminate Hget].
    injection Hget as <-. rewrite nth_middle. reflexivity.
Qed.

(** The theorem at [for i from 5 to 1 then]. *)
Lemma for_empty_range_witness :
  exists st',
    exec_line pow_unused (execute pow_unused 0) 1 0
              (initial_state ["for i from 5 to 1 then"; "print i"; "end for"] "")
    = Ok (find_end (initial_state ["for i from 5 to 1 then"; "print i"; "end for"] "")
                   0 "end for" + 1) st' /\
    exec_line pow_unused (fun _ _ => fault) 1 0
              (initial_state ["for i from 5 to 1 then"; "print i"; "end for"] "")
    = Ok (find_end (initial_state ["for i from 5 to 1 then"; "print i"; "end for"] "")
                   0 "end for" + 1) st' /\
    holds_number st' "i" dzero.
Proof.
  apply (for_empty_range pow_unused (execute pow_unused 0) 0
           (initial_state ["for i from 5 to 1 then"; "print i"; "end for"] "")
           0 "i" "5" "1" ["then"]).
  - split; [vm_compute; lia | reflexivity].
  - cbn [List.length]. lia.
  - vm_compute. reflexivity.
  - right. vm_compute. lia.
Defined.

(** ** The pass for definitions *)

Lemma count_defines_skipn (k : nat) (ls : list string) :
  count_defines (skipn k ls) <= count_defines ls.
Proof.
  revert ls. induction k as [|k IH]; intros ls; [cbn [skipn]; lia|].
  destruct ls as [|l ls]; [cbn [skipn]; lia|].
  cbn [skipn]. specialize (IH ls). unfold count_defines in *. cbn [filter].
  destruct (is_define l); cbn [List.length]; lia.
Qed.

Lemma count_defines_later (i j : nat) (ls : list string) :
  i <= j -> count_defines (skipn j ls) <= count_defines (skipn i ls).
Proof.
  intros Hle. replace j with ((j - i) + i) by lia. rewrite <- skipn_skipn.
  apply count_defines_skipn.
Qed.

Lemma skipn_nth (i : nat) (ls : list string) :
  i < List.length ls -> skipn i ls = nth i ls "" :: skipn (S i) ls.
Proof.
  revert ls. induction i as [|i IH]; intros [|l ls] Hlt; cbn [List.length] in Hlt; try lia.
  - reflexivity.
  - change (skipn i ls = nth i ls "" :: skipn (S i) ls). apply IH. lia.
Qed.

Lemma find_end_after (st : State) (i : nat) :
  i < line_count st -> i + 1 <= find_end st i "end define".
Proof.
  intros Hlt. unfold find_end.
  pose proof (find_end_loop_spec "end define" (skipn (i + 1) (lines st)) eq_refl
                (i + 1) 1%Z (line_count st)) as H.
  cbv zeta in H. apply H. unfold line_count in *. rewrite length_skipn. lia.
Qed.

Lemma with_funcs_twice (st : State) (fs gs : list FuncDef) :
  with_funcs (with_funcs st fs) gs = with_funcs st gs.
Proof. reflexivity. Qed.

Lemma collect_funcs_loop_registers (n : nat) :
  forall (i : nat) (st : State),
    lines_fit st ->
    func_count st + count_defines (skipn i (lines st)) <= MAX_FUNCS ->
    exists st',
      collect_funcs_loop n i st = Ok tt st' /\
      st' = with_funcs st (funcs st') /\
      extends_list (funcs st) (funcs st').
Proof.
  induction n as [|n IH]; intros i st Hfit Hroom.
  - exists st. split; [reflexivity|]. split; [destruct st; reflexivity | apply extends_list_refl].
  - cbn [collect_funcs_loop].
    rewrite (bind_ok _ _ _ _ _ (eq_refl : get st = Ok st st)).
    destruct (i <? line_count st) eqn:Hi.
    2:{ exists st. split; [reflexivity|].
        split; [destruct st; reflexivity | apply extends_list_refl]. }
    apply Nat.ltb_lt in Hi.
    assert (Hline : String.length (nth i (lines st) "") < MAX_LINE - 1).
    { unfold lines_fit in Hfit. rewrite Forall_forall in Hfit. apply Hfit.
      apply nth_In. exact Hi. }
    unfold strncpy_local. apply Nat.ltb_lt in Hline. rewrite Hline.
    rewrite (bind_ok _ _ _ _ _
               (eq_refl : defined (Some (nth i (lines st) "")) st = Ok (nth i (lines st) "") st)).
    rewrite (skipn_nth i (lines st) Hi) in Hroom.
    pose proof (count_defines_later (S i) (find_end st i "end define" + 1) (lines st)
                  ltac:(pose proof (find_end_after st i Hi); lia)) as Hskip.
    unfold count_defines in Hroom. cbn [filter] in Hroom. fold (count_defines (skipn (S i) (lines st))) in Hroom.
    change ((3 <=? List.length (tokenize (trim (nth i (lines st) "")) 32))
            && streq (nth 0 (tokenize (trim (nth i (lines st) "")) 32) "") "define")
      with (is_define (nth i (lines st) "")).
    destruct (is_define (nth i (lines st) "")) eqn:Hdef.
    + cbn [List.length] in Hroom.
      fold (count_defines (skipn (S i) (lines st))) in Hroom.
      unfold register_func at 1. unfold bind at 1.
      assert (Hfree : (func_count st <? MAX_FUNCS) = true) by (apply Nat.ltb_lt; lia).
      rewrite Hfree.
      match goal with
      | |- context [collect_funcs_loop n ?j ?s] =>
          destruct (IH j s) as (st' & Hrun & Hsame & Hext)
      end.
      * exact Hfit.
      * unfold func_count in *. cbn [funcs with_funcs lines]. rewrite length_app.
        cbn [List.length]. lia.
      * exists st'. split; [exact Hrun|]. split.
        -- rewrite Hsame at 1. apply with_funcs_twice.
        -- destruct Hext as [more Hmore]. cbn [funcs with_funcs] in Hmore.
           exists ((mkFuncDef (truncate (MAX_NAME - 1)
                                 (nth 1 (tokenize (trim (nth i (lines st) "")) 32) ""))
                              (i + 1) (find_end st i "end define")
                              (define_params (tokenize (trim (nth i (lines st) "")) 32)))
                   :: more).
           rewrite Hmore, <- app_assoc. reflexivity.
    + fold (count_defines (skipn (S i) (lines st))) in Hroom.
      apply IH; [exact Hfit|].
      replace (i + 1) with (S i) by lia. exact Hroom.
Qed.

(** X30: the pass for definitions only registers.  When every line fits
    the line buffer and the function table has room for the [define] lines
    of the program, [collect_funcs] returns, and the state it leaves
    differs from the one it started in by entries added at the end of the
    function table: it writes nothing, reads no input and makes no
    variable. *)
Theorem collect_funcs_only_registers (st : State) :
  lines_fit st ->
  func_count st + count_defines (lines st) <= MAX_FUNCS ->
  exists st',
    collect_funcs st = Ok tt st' /\
    st' = with_funcs st (funcs st') /\
    extends_list (funcs st) (funcs st').
Proof.
  intros Hfit Hroom. unfold collect_funcs.
  rewrite (bind_ok _ _ _ _ _ (eq_refl : get st = Ok st st)).
  apply collect_funcs_loop_registers; [exact Hfit | exact Hroom].
Qed.

(** The theorem at the program with two definitions of [twice]. *)
Lemma collect_funcs_only_registers_witness :
  exists st',
    collect_funcs (initial_state tour_program "") = Ok tt st' /\
    st' = with_funcs (initial_state tour_program "") (funcs st') /\
    extends_list (funcs (initial_state tour_program "")) (funcs st').
Proof.
  apply (collect_funcs_only_registers (initial_state tour_program "")).
  - unfold lines_fit. cbn [lines initial_state tour_program].
    repeat (constructor; [vm_compute; lia|]). constructor.
  - vm_compute. lia.
Defined.
